(** * MultiQC_CMGG: record parsers and derivation engines

    A shallow embedding of the two plugin modules

      - [multiqc_cmgg/modules/sample_gender/sample_gender.py]
      - [multiqc_cmgg/modules/targeted_MSH2/targeted_MSH2.py]

    together with the fragment of the Python runtime they rely on
    (text methods, [int()], [float()], [round()], float formatting,
    insertion-ordered dictionaries, exceptions).

    Conventions of the embedding:
      - a Python [str] is a [string]; every character is read as the
        Latin-1 code point of its byte (this covers ASCII reports);
      - a Python [float] is an IEEE-754 binary64 number, [spec_float]
        with precision 53 and maximal exponent 1024;
      - a Python [int] is a [Z];
      - a raised exception is the [Raise] outcome of the [result] monad;
      - a [dict] is an association list in insertion order whose keys
        are pairwise distinct, updated in place by [dict_set];
      - logging, file discovery and table rendering are left out. *)

From Stdlib Require Import ZArith List String Ascii Bool Lia.
From Stdlib Require Import SpecFloat DecimalString.
Import ListNotations.

Open Scope string_scope.
Open Scope Z_scope.

(* ================================================================= *)
(** * The Python runtime fragment *)

Module Py.

(** ** Exceptions and the error monad *)

Inductive exn : Type :=
| IndexError
| KeyError
| ValueError
| ZeroDivisionError
| OverflowError.

Inductive result (A : Type) : Type :=
| Ok (a : A)
| Raise (e : exn).

Arguments Ok {A} a.
Arguments Raise {A} e.

Definition bind {A B : Type} (r : result A) (k : A -> result B) : result B :=
  match r with
  | Ok a => k a
  | Raise e => Raise e
  end.

Notation "x <- e ;; k" := (bind e (fun x => k))
  (at level 61, e at next level, right associativity).

Definition raises {A : Type} (r : result A) : Prop :=
  exists e, r = Raise e.

(** A [for] loop whose body may raise: the first exception ends it. *)
Fixpoint for_each {A St : Type} (body : St -> A -> result St)
         (xs : list A) (s : St) : result St :=
  match xs with
  | [] => Ok s
  | x :: xs' => bind (body s x) (for_each body xs')
  end.

(** ** Floats: IEEE-754 binary64 *)

Definition prec : Z := 53.
Definition emax : Z := 1024.

Definition float : Type := spec_float.

Definition float_of_Z (z : Z) : float := binary_normalize prec emax z 0 false.
Definition fmul : float -> float -> float := SFmul prec emax.
Definition fdiv : float -> float -> float := SFdiv prec emax.
Definition fle : float -> float -> bool := SFleb.

Definition is_nan (x : float) : bool :=
  match x with S754_nan => true | _ => false end.

Definition is_inf (x : float) : bool :=
  match x with S754_infinity _ => true | _ => false end.

(** [round_quotient s a b] is the binary64 number nearest to [a / b]
    (ties to even) with sign [s], for naturals [a] and [b > 0]; the
    quotient is taken on the exact integers, as CPython does for
    [int / int] and for decimal-to-binary conversion. *)
Definition round_quotient (s : bool) (a b : Z) : float :=
  match a with
  | Z0 => S754_zero s
  | _ =>
      let '(q, e, l) := SFdiv_core_binary prec emax a 0 b 0 in
      binary_round_aux prec emax s q e l
  end.

(** [a / b] on two [int]s. *)
Definition int_truediv (a b : Z) : result float :=
  if b =? 0 then Raise ZeroDivisionError
  else
    let q := round_quotient (xorb (a <? 0) (b <? 0)) (Z.abs a) (Z.abs b) in
    if is_inf q then Raise OverflowError else Ok q.

(** [float(n)] on an [int]. *)
Definition float_of_int (n : Z) : result float :=
  let x := float_of_Z n in
  if is_inf x then Raise OverflowError else Ok x.

Definition is_zero (x : float) : bool :=
  match x with S754_zero _ => true | _ => false end.

(** [n / y] on an [int] and a [float]: the [int] is converted first. *)
Definition int_div_float (n : Z) (y : float) : result float :=
  x <- float_of_int n ;;
  if is_zero y then Raise ZeroDivisionError else Ok (fdiv x y).

(** ** Values stored in records *)

Inductive value : Type :=
| VStr (s : string)
| VFloat (x : float)
| VInt (n : Z).

(** ** Dictionaries *)

Definition dict : Type := list (string * value).

Fixpoint dict_get (d : dict) (k : string) : option value :=
  match d with
  | [] => None
  | (k', v) :: d' => if String.eqb k' k then Some v else dict_get d' k
  end.

(** [d[k] = v]: overwrite in place, or append a fresh key. *)
Fixpoint dict_set (d : dict) (k : string) (v : value) : dict :=
  match d with
  | [] => [(k, v)]
  | (k', v') :: d' =>
      if String.eqb k' k then (k', v) :: d' else (k', v') :: dict_set d' k v
  end.

(** [d[k]] as an expression. *)
Definition dict_getitem (d : dict) (k : string) : result value :=
  match dict_get d k with
  | Some v => Ok v
  | None => Raise KeyError
  end.

Definition keys (d : dict) : list string := map fst d.

(** ** Lists *)

(** [xs[i]] *)
Definition list_getitem {A : Type} (xs : list A) (i : nat) : result A :=
  match nth_error xs i with
  | Some x => Ok x
  | None => Raise IndexError
  end.

(** [xs[0] = x] *)
Definition list_set0 {A : Type} (xs : list A) (x : A) : result (list A) :=
  match xs with
  | [] => Raise IndexError
  | _ :: xs' => Ok (x :: xs')
  end.

(** [xs[lo:hi]] for [0 <= lo <= hi] *)
Definition slice {A : Type} (lo hi : nat) (xs : list A) : list A :=
  firstn (hi - lo)%nat (skipn lo xs).

(** [x in xs] on a list of strings *)
Definition str_in (x : string) (xs : list string) : bool :=
  existsb (String.eqb x) xs.

(** ** Text *)

Definition code (c : ascii) : Z := Z.of_N (N_of_ascii c).

Definition TAB : ascii := ascii_of_nat 9.
Definition LF : ascii := ascii_of_nat 10.
Definition CR : ascii := ascii_of_nat 13.
Definition SPACE : ascii := ascii_of_nat 32.

(** U+00A0, the no-break space *)
Definition NBSP : ascii := ascii_of_nat 160.

(** [str.isspace] on one character: U+0009..U+000D, U+001C..U+0020,
    U+0085 and U+00A0. *)
Definition isspace (c : ascii) : bool :=
  let n := code c in
  ((9 <=? n) && (n <=? 13)) || ((28 <=? n) && (n <=? 32))
  || (n =? 133) || (n =? 160).

(** The line boundaries of [str.splitlines]: LF, VT, FF, CR, FS, GS, RS
    and NEL; a CR immediately followed by LF is one boundary. *)
Definition is_linebreak (c : ascii) : bool :=
  let n := code c in
  ((10 <=? n) && (n <=? 13)) || ((28 <=? n) && (n <=? 30)) || (n =? 133).

Fixpoint lstrip_by (p : ascii -> bool) (s : string) : string :=
  match s with
  | String c r => if p c then lstrip_by p r else s
  | EmptyString => EmptyString
  end.

Fixpoint rstrip_by (p : ascii -> bool) (s : string) : string :=
  match s with
  | String c r =>
      match rstrip_by p r with
      | EmptyString => if p c then EmptyString else String c EmptyString
      | r' => String c r'
      end
  | EmptyString => EmptyString
  end.

(** [s.strip()] *)
Definition strip (s : string) : string := rstrip_by isspace (lstrip_by isspace s).

(** [s.split(sep)] for a one-character separator. *)
Fixpoint split (sep : ascii) (s : string) : list string :=
  match s with
  | EmptyString => [EmptyString]
  | String c r =>
      if Ascii.eqb c sep then EmptyString :: split sep r
      else
        match split sep r with
        | w :: ws => String c w :: ws
        | [] => [String c EmptyString]
        end
  end.

(** [s.splitlines()] *)
Fixpoint splitlines (s : string) : list string :=
  match s with
  | EmptyString => []
  | String c r =>
      if is_linebreak c then
        EmptyString ::
          (if Ascii.eqb c CR then
             match r with
             | String c' r' => if Ascii.eqb c' LF then splitlines r' else splitlines r
             | EmptyString => []
             end
           else splitlines r)
      else
        match splitlines r with
        | l :: ls => String c l :: ls
        | [] => [String c EmptyString]
        end
  end.

Definition lower_char (c : ascii) : ascii :=
  let n := code c in
  if ((65 <=? n) && (n <=? 90))
     || ((192 <=? n) && (n <=? 222) && negb (n =? 215))
  then ascii_of_N (Z.to_N (n + 32)) else c.

(** [s.lower()] *)
Fixpoint lower (s : string) : string :=
  match s with
  | String c r => String (lower_char c) (lower r)
  | EmptyString => EmptyString
  end.

(** [str(n)] on an [int] *)
Definition str_of_int (n : Z) : string := NilZero.string_of_int (Z.to_int n).

(** ** Numeric literals *)

Definition is_digit (c : ascii) : bool :=
  let n := code c in (48 <=? n) && (n <=? 57).

Definition digit_val (c : ascii) : Z := code c - 48.

(** [digit (["_"] digit)*]: the digits of a literal, or [None] when the
    text is not of that shape. *)
Fixpoint digitpart_from (after_digit : bool) (s : string) : option (list Z) :=
  match s with
  | EmptyString => if after_digit then Some [] else None
  | String c r =>
      if is_digit c then option_map (cons (digit_val c)) (digitpart_from true r)
      else if Ascii.eqb c "_" then
        if after_digit then digitpart_from false r else None
      else None
  end.

Definition digitpart (s : string) : option (list Z) := digitpart_from false s.

Definition Z_of_digits (ds : list Z) : Z :=
  fold_left (fun acc d => 10 * acc + d) ds 0.

Definition take_sign (s : string) : bool * string :=
  match s with
  | String c r =>
      if Ascii.eqb c "+" then (false, r)
      else if Ascii.eqb c "-" then (true, r)
      else (false, s)
  | EmptyString => (false, s)
  end.

(** The blanks that [int()] and [float()] skip around a literal: the
    ASCII ones of C ([" \t\n\v\f\r"]) and the non-ASCII spaces U+0085 and
    U+00A0; unlike [str.strip], not U+001C..U+001F. *)
Definition is_literal_blank (c : ascii) : bool :=
  let n := code c in
  ((9 <=? n) && (n <=? 13)) || (n =? 32) || (n =? 133) || (n =? 160).

Definition strip_literal (s : string) : string :=
  rstrip_by is_literal_blank (lstrip_by is_literal_blank s).

(** [sys.get_int_max_str_digits()] as the interpreter starts *)
Definition int_max_str_digits : nat := 4300.

(** [int(s)] on a [str], base ten.  A literal of more digits than
    [int_max_str_digits] is refused; leading zeros count as digits,
    underscores do not. *)
Definition int_of_str (s : string) : result Z :=
  let '(neg, body) := take_sign (strip_literal s) in
  match digitpart body with
  | Some ds =>
      if (int_max_str_digits <? List.length ds)%nat then Raise ValueError
      else Ok (if neg then - Z_of_digits ds else Z_of_digits ds)
  | None => Raise ValueError
  end.

(** The binary64 number nearest to [m * 10^e], for a natural [m]. *)
Definition float_of_decimal (s : bool) (m e : Z) : float :=
  if 0 <=? e then round_quotient s (m * 10 ^ e) 1
  else round_quotient s m (10 ^ (- e)).

(** Cut a text at the first character satisfying [p]; the character
    itself is dropped. *)
Fixpoint break_at (p : ascii -> bool) (s : string) : string * option string :=
  match s with
  | EmptyString => (EmptyString, None)
  | String c r =>
      if p c then (EmptyString, Some r)
      else let '(a, b) := break_at p r in (String c a, b)
  end.

Definition is_exp_mark (c : ascii) : bool := Ascii.eqb c "e" || Ascii.eqb c "E".
Definition is_dot (c : ascii) : bool := Ascii.eqb c ".".

(** [number ::= [digitpart] "." digitpart | digitpart ["."]]: the digits
    before and after the point. *)
Definition parse_number (s : string) : option (list Z * list Z) :=
  match break_at is_dot s with
  | (ip, None) => option_map (fun ds => (ds, [])) (digitpart ip)
  | (ip, Some fp) =>
      match ip, fp with
      | EmptyString, _ => option_map (fun fs => ([], fs)) (digitpart fp)
      | _, EmptyString => option_map (fun ds => (ds, [])) (digitpart ip)
      | _, _ =>
          match digitpart ip, digitpart fp with
          | Some ds, Some fs => Some (ds, fs)
          | _, _ => None
          end
      end
  end.

(** [exponent ::= ("e" | "E") ["+" | "-"] digitpart] *)
Definition parse_exponent (s : option string) : option Z :=
  match s with
  | None => Some 0
  | Some t =>
      let '(neg, body) := take_sign t in
      option_map (fun ds => if neg then - Z_of_digits ds else Z_of_digits ds)
                 (digitpart body)
  end.

(** [float(s)] on a [str]. *)
Definition float_of_str (s : string) : result float :=
  let '(neg, body) := take_sign (strip_literal s) in
  let low := lower body in
  if String.eqb low "inf" || String.eqb low "infinity" then Ok (S754_infinity neg)
  else if String.eqb low "nan" then Ok S754_nan
  else
    let '(mant, ex) := break_at is_exp_mark body in
    match parse_number mant, parse_exponent ex with
    | Some (ds, fs), Some e =>
        Ok (float_of_decimal neg (Z_of_digits (ds ++ fs)%list)
                             (e - Z.of_nat (List.length fs)))
    | _, _ => Raise ValueError
    end.

(** [round(x, ndigits)] for [ndigits >= 0]: the exact value of [x] is
    rounded to [ndigits] decimals, ties to even, and the decimal is
    converted back to binary64. *)
Definition round_half_even (n d : Z) : Z :=
  let '(q, r) := Z.div_eucl n d in
  match 2 * r ?= d with
  | Lt => q
  | Gt => q + 1
  | Eq => if Z.even q then q else q + 1
  end.

Definition py_round (x : float) (ndigits : Z) : float :=
  match x with
  | S754_finite s m e =>
      let scaled :=
        match e with
        | Zneg p => round_half_even (Zpos m * 10 ^ ndigits) (2 ^ Zpos p)
        | _ => Zpos m * 2 ^ e * 10 ^ ndigits
        end in
      round_quotient s scaled (10 ^ ndigits)
  | _ => x
  end.

(** ** Float formatting: [repr(x)], which is also [str(x)] and the
    rendering of [x] in an f-string without format specification. *)

Definition float_eqb (x y : float) : bool :=
  match x, y with
  | S754_zero a, S754_zero b => Bool.eqb a b
  | S754_infinity a, S754_infinity b => Bool.eqb a b
  | S754_nan, S754_nan => true
  | S754_finite a m e, S754_finite b m' e' =>
      Bool.eqb a b && Pos.eqb m m' && (e =? e')
  | _, _ => false
  end.

Definition str_of_nat_Z (n : Z) : string := NilZero.string_of_uint (N.to_uint (Z.to_N n)).

(** For [0 < num/den < 1]: the [k <= 0] with [10^(k-1) <= num/den < 10^k]. *)
Fixpoint small_decpt (fuel : nat) (num den : Z) : Z :=
  match fuel with
  | O => 0
  | S fuel' =>
      if num * 10 <? den then small_decpt fuel' (num * 10) den - 1 else 0
  end.

(** The [k] with [10^(k-1) <= num/den < 10^k]. *)
Definition decpt_of (num den : Z) : Z :=
  if den <=? num then Z.of_nat (String.length (str_of_nat_Z (num / den)))
  else small_decpt 400 num den.

(** The [n]-digit decimal [c * 10^(k-n)] next to [num/den] that reads
    back as [x], if there is one; of two, the nearer. *)
Definition digits_candidate (x : float) (num den k : Z) (n : Z) : option Z :=
  let sh := n - k in
  let '(lo, r) :=
    if 0 <=? sh then Z.div_eucl (num * 10 ^ sh) den
    else Z.div_eucl num (den * 10 ^ (- sh)) in
  let d := if 0 <=? sh then den else den * 10 ^ (- sh) in
  let ok c := float_eqb (float_of_decimal false c (k - n)) (SFabs x) in
  if r =? 0 then (if ok lo then Some lo else None)
  else
    match ok lo, ok (lo + 1) with
    | true, true =>
        match 2 * r ?= d with
        | Lt => Some lo
        | Gt => Some (lo + 1)
        | Eq => Some (if Z.even lo then lo else lo + 1)
        end
    | true, false => Some lo
    | false, true => Some (lo + 1)
    | false, false => None
    end.

(** Shortest digit string reading back as [x]: tries 1, 2, ... digits. *)
Fixpoint shortest_from (fuel : nat) (x : float) (num den k : Z) (n : Z)
  : option (Z * Z) :=
  match fuel with
  | O => None
  | S fuel' =>
      match digits_candidate x num den k n with
      | Some c => Some (c, k - n)
      | None => shortest_from fuel' x num den k (n + 1)
      end
  end.

Fixpoint rstrip_zeros (s : string) : string :=
  match s with
  | String c r =>
      match rstrip_zeros r with
      | EmptyString => if Ascii.eqb c "0" then EmptyString else String c EmptyString
      | r' => String c r'
      end
  | EmptyString => EmptyString
  end.

Fixpoint zeros (n : nat) : string :=
  match n with
  | O => EmptyString
  | S n' => String "0" (zeros n')
  end.

(** The digits [d1 d2 ... dn] and the position [decpt] of the decimal
    point, so that [|x| = 0.d1...dn * 10^decpt]. *)
Definition shortest_digits (x : float) : option (string * Z) :=
  match x with
  | S754_finite _ m e =>
      let '(num, den) :=
        match e with
        | Zneg p => (Zpos m, 2 ^ Zpos p)
        | _ => (Zpos m * 2 ^ e, 1)
        end in
      match shortest_from 17 x num den (decpt_of num den) 1 with
      | Some (c, e10) =>
          let ds := str_of_nat_Z c in
          Some (rstrip_zeros ds, Z.of_nat (String.length ds) + e10)
      | None => None
      end
  | _ => None
  end.

Definition pad2 (s : string) : string :=
  match s with
  | String c EmptyString => String "0" s
  | _ => s
  end.

Definition float_repr (x : float) : string :=
  match x with
  | S754_nan => "nan"
  | S754_infinity s => if s then "-inf" else "inf"
  | S754_zero s => if s then "-0.0" else "0.0"
  | S754_finite s _ _ =>
      let sign := if s then "-" else "" in
      match shortest_digits x with
      | None => sign ++ "?" (* not reached: 17 digits always read back *)
      | Some (ds, decpt) =>
          let n := Z.of_nat (String.length ds) in
          if (decpt <=? -4) || (16 <? decpt) then
            let ex := decpt - 1 in
            let frac := match ds with
                        | String c EmptyString => ds
                        | String c r => String c (String "." r)
                        | EmptyString => ds
                        end in
            sign ++ frac ++ "e" ++ (if ex <? 0 then "-" else "+")
                 ++ pad2 (str_of_nat_Z (Z.abs ex))
          else if decpt <=? 0 then
            sign ++ "0." ++ zeros (Z.to_nat (- decpt)) ++ ds
          else if n <=? decpt then
            sign ++ ds ++ zeros (Z.to_nat (decpt - n)) ++ ".0"
          else
            sign ++ substring 0 (Z.to_nat decpt) ds ++ "."
                 ++ substring (Z.to_nat decpt) (Z.to_nat (n - decpt)) ds
      end
  end.

(** ** Conversions on values *)

(** [int(v)] *)
Definition py_int (v : value) : result Z :=
  match v with
  | VStr s => int_of_str s
  | VInt n => Ok n
  | VFloat (S754_finite s m e) =>
      let a := match e with
               | Zneg p => Zpos m / 2 ^ Zpos p
               | _ => Zpos m * 2 ^ e
               end in
      Ok (if s then - a else a)
  | VFloat (S754_zero _) => Ok 0
  | VFloat S754_nan => Raise ValueError
  | VFloat (S754_infinity _) => Raise OverflowError
  end.

(** [float(v)] *)
Definition py_float (v : value) : result float :=
  match v with
  | VStr s => float_of_str s
  | VInt n => float_of_int n
  | VFloat x => Ok x
  end.

(** [str(v)], the rendering of [v] inside an f-string *)
Definition py_str (v : value) : string :=
  match v with
  | VStr s => s
  | VInt n => str_of_int n
  | VFloat x => float_repr x
  end.

(** [a == b] *)
Definition py_eq (a b : value) : bool :=
  match a, b with
  | VStr s, VStr t => String.eqb s t
  | VInt m, VInt n => m =? n
  | VFloat x, VFloat y => SFeqb x y
  | VInt m, VFloat y | VFloat y, VInt m =>
      match y with
      | S754_finite s p (Zneg q) => false
      | S754_finite s p e => (if s then - (Zpos p * 2 ^ e) else Zpos p * 2 ^ e) =? m
      | S754_zero _ => m =? 0
      | _ => false
      end
  | _, _ => false
  end.

(** ** More of the runtime: suffixes, slices, [dict.update], tables *)

(** [len(s)] *)
Definition len (s : string) : Z := Z.of_nat (String.length s).

(** [s.endswith(suffix)] *)
Definition endswith (s suffix : string) : bool :=
  let n := String.length s in
  let m := String.length suffix in
  (m <=? n)%nat && String.eqb (substring (n - m) m s) suffix.

(** [s[:stop]] for any integer [stop]: a negative [stop] counts from the
    end, and positions outside the text are clipped to it. *)
Definition str_slice_to (s : string) (stop : Z) : string :=
  let n := len s in
  let hi := if stop <? 0 then Z.max (n + stop) 0 else Z.min stop n in
  substring 0 (Z.to_nat hi) s.

(** [d.update(other)]: the entries of [other], in its order, written
    into [d]. *)
Definition dict_update (d other : dict) : dict :=
  fold_left (fun acc kv => dict_set acc (fst kv) (snd kv)) other d.

(** Insertion-ordered tables with text keys and any values (a [dict] of
    records): [k in t], [t.get(k)], [t[k]] and [t[k] = v]. *)
Fixpoint odict_get {V : Type} (t : list (string * V)) (k : string) : option V :=
  match t with
  | [] => None
  | (k', v) :: t' => if String.eqb k' k then Some v else odict_get t' k
  end.

Definition odict_mem {V : Type} (t : list (string * V)) (k : string) : bool :=
  match odict_get t k with Some _ => true | None => false end.

Definition odict_getitem {V : Type} (t : list (string * V)) (k : string)
  : result V :=
  match odict_get t k with
  | Some v => Ok v
  | None => Raise KeyError
  end.

Fixpoint odict_set {V : Type} (t : list (string * V)) (k : string) (v : V)
  : list (string * V) :=
  match t with
  | [] => [(k, v)]
  | (k', v') :: t' =>
      if String.eqb k' k then (k', v) :: t' else (k', v') :: odict_set t' k v
  end.

End Py.

(* ================================================================= *)
(** * What the reporting framework hands over *)

Module multiqc.
Import Py.

(** One file yielded by [find_log_files]: [f["s_name"]] and [f["f"]]. *)
Record log_file : Type := { file_s_name : string; file_f : string }.

(** Modelled from the spec: [ignore_samples] belongs to the reporting
    framework and is not part of these sources; it removes every sample
    whose name matches the exclusion rules, here the predicate
    [is_ignore_sample], and keeps the others in their order. *)
Definition ignore_samples {V : Type} (is_ignore_sample : string -> bool)
           (data : list (string * V)) : list (string * V) :=
  filter (fun entry => negb (is_ignore_sample (fst entry))) data.

(** Modelled from the spec: the rule [s_contains] of the framework's
    conditional formatting, which is not part of these sources, matches a
    cell whose text contains the pattern. *)
Definition s_contains (pattern text : string) : bool :=
  match index 0 pattern text with
  | Some _ => true
  | None => false
  end.

End multiqc.

(* ================================================================= *)
(** * sample_gender.py *)

Module sample_gender.
Import Py.

(** [self.samplegender_data]: sample name to record, in insertion order *)
Definition registry : Type := list (string * dict).

Definition list_gender_methods : list string :=
  ["gender_xy"; "gender_hetx"; "gender_sry"].

(** [data.get(method) == s]; an absent key gives [None], equal to no text *)
Definition get_is (data : dict) (method s : string) : bool :=
  match dict_get data method with
  | Some gender => py_eq gender (VStr s)
  | None => false
  end.

(** Body of [for method in list_gender_methods] on [(count_M, count_F)] *)
Definition count_method (data : dict) (acc : Z * Z) (method : string) : Z * Z :=
  let '(count_M, count_F) := acc in
  if get_is data method "M" then (count_M + 1, count_F)
  else if get_is data method "F" then (count_M, count_F + 1)
  else (count_M, count_F).

Definition gender_counts (data : dict) : Z * Z :=
  fold_left (count_method data) list_gender_methods (0, 0).

(** [total = 3.0] *)
Definition total : float := float_of_Z 3.

(** The [if count_M >= count_F: ... elif count_F >= count_M: ...] block,
    giving [(percentage, calc_sex)] *)
Definition vote (count_M count_F : Z) : result (float * string) :=
  if count_F <=? count_M then
    percentage <- int_div_float count_M total ;;
    Ok (percentage, if count_F <? count_M then "M" else "Unknown")
  else if count_M <=? count_F then
    percentage <- int_div_float count_F total ;;
    Ok (percentage, if count_M <? count_F then "F" else "Unknown")
  else Ok (S754_zero false, "Unknown").

(** Body of [for sample, data in self.samplegender_data.items()] *)
Definition consensus_record (data : dict) : result dict :=
  let '(count_M, count_F) := gender_counts data in
  r <- vote count_M count_F ;;
  Ok (dict_set (dict_set data "certainty" (VFloat (fst r)))
               "calc_gender" (VStr (snd r))).

Fixpoint _calculate_gender_consensus (samplegender_data : registry)
  : result registry :=
  match samplegender_data with
  | [] => Ok []
  | (sample, data) :: rest =>
      data' <- consensus_record data ;;
      rest' <- _calculate_gender_consensus rest ;;
      Ok ((sample, data') :: rest')
  end.

(** [param_map], in the order the literal lists it *)
Definition param_map : list (string * string) :=
  [("reads_chry", "gender_xy");
   ("het_fraction", "gender_hetx");
   ("coverage_sry", "gender_sry")].

(** Body of [for col_name, new_key in param_map.items()] *)
Definition rename_step (headers : list string) (entry : string * string)
  : result (list string) :=
  let '(col_name, new_key) := entry in
  if str_in col_name headers then list_set0 headers new_key
  else Ok headers.

Definition rename_headers (headers : list string) : result (list string) :=
  for_each rename_step param_map headers.

(** The [if values[0].lower() == "male": ... elif ...] block *)
Definition canonical_sex (values : list string) : result (list string) :=
  v0 <- list_getitem values 0 ;;
  if String.eqb (lower v0) "male" then list_set0 values "M"
  else
    v0' <- list_getitem values 0 ;;
    if String.eqb (lower v0') "female" then list_set0 values "F"
    else Ok values.

(** Body of [for key, value in zip(headers, values)]; only [ValueError]
    is caught by the [except] clause *)
Definition store (parsed_data : dict) (kv : string * string) : result dict :=
  let '(key, value) := kv in
  match float_of_str value with
  | Ok val_float =>
      if is_nan val_float then Ok (dict_set parsed_data key (VStr "N/A"))
      else Ok (dict_set parsed_data key (VFloat val_float))
  | Raise ValueError => Ok (dict_set parsed_data key (VStr value))
  | Raise e => Raise e
  end.

Definition parse_file (f : string) : result dict :=
  let parsed_data : dict := [] in
  let lines := splitlines f in
  if (List.length lines <? 2)%nat then Ok parsed_data
  else
    line0 <- list_getitem lines 0 ;;
    let headers := slice 1 6 (split TAB (strip line0)) in
    line1 <- list_getitem lines 1 ;;
    let values := slice 1 6 (split TAB (strip line1)) in
    values <- canonical_sex values ;;
    headers <- rename_headers headers ;;
    for_each store (combine headers values) parsed_data.

(** [method_dict], in the order the literal lists it *)
Definition method_dict : list (string * string) :=
  [("sample_gender/xy", "_xy");
   ("sample_gender/hetx", "_hetx");
   ("sample_gender/sry", "_sry")].

(** Lines 35-37: the sample name without the extension of its method *)
Definition clean_s_name (s_name extension : string) : string :=
  if endswith s_name extension
  then str_slice_to s_name (- len extension)
  else s_name.

(** Body of [for f in self.find_log_files(method)]: parse, skip an empty
    record, insert the record of a new sample, update in place the
    record of a known one. *)
Definition ingest_file (extension : string) (samplegender_data : registry)
           (f : multiqc.log_file) : result registry :=
  let s_name := clean_s_name (multiqc.file_s_name f) extension in
  parsed <- parse_file (multiqc.file_f f) ;;
  match parsed with
  | [] => Ok samplegender_data
  | _ :: _ =>
      if negb (odict_mem samplegender_data s_name)
      then Ok (odict_set samplegender_data s_name parsed)
      else
        record <- odict_getitem samplegender_data s_name ;;
        Ok (odict_set samplegender_data s_name (dict_update record parsed))
  end.

(** The two nested loops of [__init__] over the methods and their files *)
Definition collect (find_log_files : string -> list multiqc.log_file)
  : result registry :=
  for_each
    (fun data entry =>
       for_each (ingest_file (snd entry)) (find_log_files (fst entry)) data)
    method_dict [].

(** How [__init__] ends: with the data it writes and tabulates, with
    [raise UserWarning], or with the exception of a parser. *)
Inductive outcome : Type :=
| Reported (data : registry)
| UserWarning
| Failed (e : exn).

Definition __init__ (find_log_files : string -> list multiqc.log_file)
           (is_ignore_sample : string -> bool) : outcome :=
  match collect find_log_files with
  | Raise e => Failed e
  | Ok collected =>
      let samplegender_data := multiqc.ignore_samples is_ignore_sample collected in
      if (List.length samplegender_data =? 0)%nat then UserWarning
      else
        match _calculate_gender_consensus samplegender_data with
        | Ok derived => Reported derived
        | Raise e => Failed e
        end
  end.

End sample_gender.

(* ================================================================= *)
(** * targeted_MSH2.py *)

Module targeted_MSH2.
Import Py.

Definition wt_key : string := "MSH2_c.942+3_wt".

(** The f-string of the [else] arm, [f"{freq}% ({counts})"]: a space
    stands between the percent sign and the parenthesis. *)
Definition format_freq (freq : float) (counts : value) : string :=
  float_repr freq ++ "% (" ++ py_str counts ++ ")".

(** The f-string of the [if] arm: the same text with the no-break space
    U+00A0 in the place of the space. *)
Definition format_sanger (freq : float) (counts : value) : string :=
  float_repr freq ++ "%" ++ String NBSP "(" ++ py_str counts ++ ")".

(** [round(int(counts) / (int(parsed_data[wt]) + int(counts)) * 100, 2)],
    operands evaluated left to right *)
Definition frequency (parsed_data : dict) (counts : value) : result float :=
  c <- py_int counts ;;
  wt <- dict_getitem parsed_data wt_key ;;
  w <- py_int wt ;;
  c' <- py_int counts ;;
  q <- int_truediv c (w + c') ;;
  Ok (py_round (fmul q (float_of_Z 100)) 2).

(** Body of [for variant, counts in parsed_data.items()] *)
Definition derive_step (config : dict) (parsed_data : dict)
           (item : string * value) : result dict :=
  let '(variant, counts) := item in
  if negb (String.eqb variant wt_key) then
    freq <- frequency parsed_data counts ;;
    t <- dict_getitem config "sanger_threshold" ;;
    threshold <- py_float t ;;
    if fle threshold freq then
      Ok (dict_set parsed_data variant (VStr (format_sanger freq counts)))
    else
      Ok (dict_set parsed_data variant (VStr (format_freq freq counts)))
  else
    v <- dict_getitem parsed_data variant ;;
    n <- py_int v ;;
    Ok (dict_set parsed_data variant (VInt n)).

(** The frequency loop.  [parsed_data.items()] is a view of the record
    the loop updates; an iteration overwrites only the entry it is
    visiting, so every [counts] is the value its entry had when the loop
    began, while [parsed_data[...]] reads the record as updated so far. *)
Definition derive (config : dict) (parsed_data : dict) : result dict :=
  for_each (derive_step config) parsed_data parsed_data.

(** Body of [for key, value in zip(headers, values)] *)
Definition store (parsed_data : dict) (kv : string * string) : dict :=
  dict_set parsed_data (fst kv) (VStr (snd kv)).

(** Lines 115-119: the record read off the header and value lines *)
Definition extract (header_line value_line : string) : dict :=
  let headers := slice 1 6 (split SPACE (strip header_line)) in
  let values := slice 1 6 (split SPACE (strip value_line)) in
  fold_left store (combine headers values) [].

Definition parse_file (f : string) (config : dict) : result dict :=
  let parsed_data : dict := [] in
  let lines := splitlines f in
  if (List.length lines <? 3)%nat then Ok parsed_data
  else
    line2 <- list_getitem lines 2 ;;
    line3 <- list_getitem lines 3 ;;
    derive config (extract line2 line3).

(** The [headers] of the table, lines 59-93: every column with the
    pattern of its [s_contains] rule under ["sanger"], when it has one.
    The pattern is the one character U+00A0. *)
Definition headers : list (string * option string) :=
  [("MSH2_c.942+3_wt", None);
   ("MSH2_c.942+3A>T", Some (String NBSP EmptyString));
   ("MSH2_c.942+2T>A", Some (String NBSP EmptyString));
   ("MSH2_c.942+2T>C", Some (String NBSP EmptyString));
   ("MSH2_c.942+2T>G", Some (String NBSP EmptyString))].

(** [{"sanger_threshold": 28}], the default of [getattr] *)
Definition default_config : dict := [("sanger_threshold", VInt 28)].

(** [getattr(config, "targeted_MSH2_config", {"sanger_threshold": 28})] *)
Definition msh2_config_of (targeted_MSH2_config : option dict) : dict :=
  match targeted_MSH2_config with
  | Some c => c
  | None => default_config
  end.

(** [MSH2_varcount_data]: sample name to record, in insertion order *)
Definition varcount_data : Type := list (string * dict).

(** Body of [for f in self.find_log_files("targeted_MSH2")].  The record
    of a new sample is [parsed] itself, so that the update that follows
    writes [parsed] into itself. *)
Definition ingest_file (msh2_config : dict) (is_ignore_sample : string -> bool)
           (MSH2_varcount_data : varcount_data) (f : multiqc.log_file)
  : result varcount_data :=
  let s_name := multiqc.file_s_name f in
  parsed <- parse_file (multiqc.file_f f) msh2_config ;;
  let MSH2_varcount_data :=
    if negb (odict_mem MSH2_varcount_data s_name)
    then odict_set MSH2_varcount_data s_name parsed
    else MSH2_varcount_data in
  if odict_mem MSH2_varcount_data s_name then
    record <- odict_getitem MSH2_varcount_data s_name ;;
    Ok (multiqc.ignore_samples is_ignore_sample
          (odict_set MSH2_varcount_data s_name (dict_update record parsed)))
  else Ok MSH2_varcount_data.

(** The data [__init__] writes and tabulates, or the exception of the
    parser that ended it. *)
Definition __init__ (find_log_files : string -> list multiqc.log_file)
           (is_ignore_sample : string -> bool)
           (targeted_MSH2_config : option dict) : result varcount_data :=
  let msh2_config := msh2_config_of targeted_MSH2_config in
  for_each (ingest_file msh2_config is_ignore_sample)
           (find_log_files "targeted_MSH2") [].

End targeted_MSH2.

(* ================================================================= *)
(** * Vocabulary of the specification *)

Module Spec.
Import Py.

(** A method field of a sex-prediction record holds the text [s]. *)
Definition field_equals (data : dict) (method s : string) : bool :=
  match dict_get data method with
  | Some (VStr t) => String.eqb t s
  | _ => false
  end.

(** How many of the three method fields hold [s]. *)
Definition count_fields (data : dict) (s : string) : Z :=
  Z.of_nat (List.length
              (filter (fun method => field_equals data method s)
                      sample_gender.list_gender_methods)).

(** [n / 3] in floating point *)
Definition thirds (n : Z) : float := fdiv (float_of_Z n) (float_of_Z 3).

(** The values 0.0, 1/3, 2/3 and 1.0 *)
Definition certainty_levels : list float :=
  [S754_zero false; thirds 1; thirds 2; float_of_Z 1].

Definition consensus_calls : list string := ["M"; "F"; "Unknown"].

(** Two records carry the same three raw method fields. *)
Definition same_raw_fields (d1 d2 : dict) : Prop :=
  forall method, In method sample_gender.list_gender_methods ->
                 dict_get d1 method = dict_get d2 method.

(** What one method says: male, female, or neither. *)
Inductive call : Type := CallM | CallF | CallNone.

Definition classify (data : dict) (method : string) : call :=
  if field_equals data method "M" then CallM
  else if field_equals data method "F" then CallF
  else CallNone.

(** The counts and the vote, as a function of the three calls only. *)
Definition tally (c : call) (acc : Z * Z) : Z * Z :=
  match c with
  | CallM => (fst acc + 1, snd acc)
  | CallF => (fst acc, snd acc + 1)
  | CallNone => acc
  end.

Definition indicator (b : bool) : Z := if b then 1 else 0.

Definition is_M (c : call) : bool := match c with CallM => true | _ => false end.
Definition is_F (c : call) : bool := match c with CallF => true | _ => false end.

(** *** The sex-prediction parser *)

(** The tab-separated fields of a line, after stripping *)
Definition tab_fields (line : string) : list string := split TAB (strip line).

(** Columns 2 to 6, counted from 1 *)
Definition columns_2_to_6 {A : Type} (fields : list A) : list A := slice 1 6 fields.

(** Case-insensitive "male" to "M" and "female" to "F"; anything else
    unchanged *)
Definition canonical (v : string) : string :=
  if String.eqb (lower v) "male" then "M"
  else if String.eqb (lower v) "female" then "F"
  else v.

(** The parsed number, the not-available sentinel for a NaN, the raw
    text when the value is not a number *)
Definition coerce (v : string) : value :=
  match float_of_str v with
  | Ok x => if is_nan x then VStr "N/A" else VFloat x
  | Raise _ => VStr v
  end.

Definition coerced_record (headers values : list string) : dict :=
  fold_left (fun d kv => dict_set d (fst kv) (coerce (snd kv)))
            (combine headers values) [].

(** The three well-known source column names *)
Definition source_columns : list string := map fst sample_gender.param_map.

(** A line of tab-separated fields *)
Definition tsv (fields : list string) : string :=
  String.concat (String TAB EmptyString) fields.

Definition example_header : list string :=
  ["s_name"; "reads_chry"; "other"; "other2"; "other3"; "other4"].

(** *** The MSH2 parser and its frequency derivation *)

(** A configuration holding the threshold [t] *)
Definition config_with (t : value) : dict := [("sanger_threshold", t)].

(** The configuration gives a threshold that [float()] accepts. *)
Definition threshold_usable (config : dict) : Prop :=
  exists t x, dict_get config "sanger_threshold" = Some t /\ py_float t = Ok x.

(** The configuration gives the threshold that [float()] reads as [x]. *)
Definition threshold_is (config : dict) (x : float) : Prop :=
  exists t, dict_get config "sanger_threshold" = Some t /\ py_float t = Ok x.

(** What stands between the percent sign and the parenthesis of a
    derived text: a no-break space when the frequency is at or above the
    threshold, a space when it is below. *)
Definition separator (threshold freq : float) : string :=
  if fle threshold freq then String NBSP EmptyString else String SPACE EmptyString.

(** The text derived for a variant field *)
Definition variant_text (threshold freq : float) (counts : value) : string :=
  float_repr freq ++ "%" ++ separator threshold freq ++ "(" ++ py_str counts ++ ")".

(** The record read off lines 3 and 4, when the file has them. *)
Definition extracted (f : string) : option dict :=
  match splitlines f with
  | _ :: _ :: line2 :: line3 :: _ => Some (targeted_MSH2.extract line2 line3)
  | _ => None
  end.

(** The wild-type entry of the record under derivation reads as [w]. *)
Definition wt_ready (w : Z) (d : dict) : Prop :=
  exists x, dict_get d targeted_MSH2.wt_key = Some x /\ py_int x = Ok w.

(** [new] is what the derivation makes of the entry [old] when the
    threshold is [x] and the wild-type count is [w]. *)
Definition derived_entry (x : float) (w : Z) (old new : string * value) : Prop :=
  fst new = fst old
  /\ if String.eqb (fst old) targeted_MSH2.wt_key then snd new = VInt w
     else exists c q,
         py_int (snd old) = Ok c
         /\ int_truediv c (w + c) = Ok q
         /\ snd new = VStr (variant_text
                              x (py_round (fmul q (float_of_Z 100)) 2) (snd old)).

(** Two entries of records derived under the thresholds [x1] and [x2]:
    the same key, and values that are equal or are the texts derived
    from one frequency and one count under the two thresholds. *)
Definition entry_pair (x1 x2 : float) (e1 e2 : string * value) : Prop :=
  fst e1 = fst e2
  /\ (snd e1 = snd e2
      \/ exists freq counts,
          snd e1 = VStr (variant_text x1 freq counts)
          /\ snd e2 = VStr (variant_text x2 freq counts)).

Definition example_record : dict :=
  [(targeted_MSH2.wt_key, VStr "100"); ("MSH2_c.942+3A>T", VStr "25")].

(** A file made of the given lines, each ended by a line feed *)
Definition file_of (lines : list string) : string :=
  String.concat EmptyString (map (fun l => l ++ String LF EmptyString) lines).

(** *** Further vocabulary *)

(** [new] is an entry as the frequency loop leaves it: the wild-type
    entry holds an integer, any other entry the formatted text of some
    frequency and of the value [old] held, with a space or a no-break
    space after the percent sign. *)
Definition formatted_entry (old new : string * value) : Prop :=
  fst new = fst old
  /\ if String.eqb (fst old) targeted_MSH2.wt_key
     then exists n, py_int (snd old) = Ok n /\ snd new = VInt n
     else exists fr sep,
         (sep = SPACE \/ sep = NBSP)
         /\ snd new = VStr (float_repr fr ++ "%" ++ String sep "("
                            ++ py_str (snd old) ++ ")").

(** The character [c] occurs in the text [s]. *)
Definition has_char (c : ascii) (s : string) : bool :=
  existsb (Ascii.eqb c) (list_ascii_of_string s).

(** A stored value is text or a float that is not a NaN. *)
Definition text_or_number (v : value) : Prop :=
  (exists s, v = VStr s) \/ (exists x, v = VFloat x /\ is_nan x = false).

End Spec.

(* ================================================================= *)
(** * Facts about the runtime fragment *)

Section DictFacts.
Import Py.

Lemma dict_get_set_same (d : dict) (k : string) (v : value) :
  dict_get (dict_set d k v) k = Some v.
Proof.
  induction d as [| [k' v'] d IH]; simpl.
  - now rewrite String.eqb_refl.
  - destruct (String.eqb k' k) eqn:E; simpl; rewrite E; auto.
Qed.

Lemma dict_get_set_other (d : dict) (k k' : string) (v : value) :
  k <> k' -> dict_get (dict_set d k v) k' = dict_get d k'.
Proof.
  intros Hne. induction d as [| [k0 v0] d IH]; simpl.
  - destruct (String.eqb k k') eqn:E; auto.
    apply String.eqb_eq in E. contradiction.
  - destruct (String.eqb k0 k) eqn:E; simpl.
    + apply String.eqb_eq in E. subst k0.
      destruct (String.eqb k k') eqn:E'; auto.
      apply String.eqb_eq in E'. contradiction.
    + now rewrite IH.
Qed.

Lemma dict_get_In (d : dict) (k : string) (v : value) :
  dict_get d k = Some v -> In (k, v) d.
Proof.
  induction d as [| [k' v'] d IH]; simpl; intros H; [discriminate |].
  destruct (String.eqb k' k) eqn:E.
  - apply String.eqb_eq in E. inversion H. subst. now left.
  - right. auto.
Qed.

Lemma dict_get_None (d : dict) (k : string) :
  dict_get d k = None <-> ~ In k (keys d).
Proof.
  induction d as [| [k' v'] d IH]; simpl.
  - tauto.
  - destruct (String.eqb k' k) eqn:E.
    + apply String.eqb_eq in E. split; [discriminate | intros H; elim H; auto].
    + apply String.eqb_neq in E. rewrite IH. tauto.
Qed.

Lemma In_dict_get (d : dict) (k : string) (v : value) :
  NoDup (keys d) -> In (k, v) d -> dict_get d k = Some v.
Proof.
  induction d as [| [k' v'] d IH]; simpl; intros Hnd Hin; [contradiction |].
  inversion Hnd as [| ? ? Hnotin Hnd']; subst.
  destruct Hin as [Heq | Hin].
  - inversion Heq; subst. now rewrite String.eqb_refl.
  - destruct (String.eqb k' k) eqn:E.
    + apply String.eqb_eq in E. subst k'.
      elim Hnotin. change k with (fst (k, v)). now apply in_map.
    + auto.
Qed.

Lemma keys_dict_set_present (d : dict) (k : string) (v : value) :
  In k (keys d) -> keys (dict_set d k v) = keys d.
Proof.
  induction d as [| [k' v'] d IH]; simpl; intros Hin; [contradiction |].
  destruct (String.eqb k' k) eqn:E; simpl; [reflexivity |].
  f_equal. apply IH. destruct Hin as [H | H]; auto.
  apply String.eqb_neq in E. contradiction.
Qed.

Lemma keys_dict_set_absent (d : dict) (k : string) (v : value) :
  ~ In k (keys d) -> keys (dict_set d k v) = (keys d ++ [k])%list.
Proof.
  induction d as [| [k' v'] d IH]; simpl; intros Hin; [reflexivity |].
  destruct (String.eqb k' k) eqn:E; simpl.
  - apply String.eqb_eq in E. elim Hin. auto.
  - f_equal. apply IH. tauto.
Qed.

Lemma dict_set_NoDup (d : dict) (k : string) (v : value) :
  NoDup (keys d) -> NoDup (keys (dict_set d k v)).
Proof.
  intros Hnd. destruct (in_dec string_dec k (keys d)) as [Hin | Hout].
  - now rewrite keys_dict_set_present.
  - rewrite keys_dict_set_absent by assumption.
    apply NoDup_app; [assumption | repeat constructor; auto | ].
    intros x Hx [Hy | []]. subst. contradiction.
Qed.

Lemma dict_set_same_value (d : dict) (k : string) (v : value) :
  dict_get d k = Some v -> dict_set d k v = d.
Proof.
  induction d as [| [k0 v0] d IH]; simpl; intros Hget; [discriminate |].
  destruct (String.eqb k0 k) eqn:E; [congruence |]. f_equal. auto.
Qed.

(** Overwriting the entry at the head of the unvisited part of a record *)
Lemma dict_set_middle (pre post : dict) (k : string) (v v' : value) :
  ~ In k (keys pre) ->
  dict_set (pre ++ (k, v) :: post)%list k v' = (pre ++ (k, v') :: post)%list.
Proof.
  induction pre as [| [k0 v0] pre IH]; simpl; intros Hout.
  - now rewrite String.eqb_refl.
  - destruct (String.eqb k0 k) eqn:E.
    + apply String.eqb_eq in E. elim Hout. auto.
    + f_equal. apply IH. tauto.
Qed.

End DictFacts.

(* ================================================================= *)
(** * Sex consensus derivation *)

Section Consensus.
Import Py sample_gender Spec.

Lemma get_is_field_equals (data : dict) (method s : string) :
  get_is data method s = field_equals data method s.
Proof.
  unfold get_is, field_equals.
  destruct (dict_get data method) as [[t | x | n] |]; reflexivity.
Qed.

Lemma classify_spec (data : dict) (method : string) :
  match classify data method with
  | CallM => field_equals data method "M" = true
             /\ field_equals data method "F" = false
  | CallF => field_equals data method "M" = false
             /\ field_equals data method "F" = true
  | CallNone => field_equals data method "M" = false
                /\ field_equals data method "F" = false
  end.
Proof.
  unfold classify.
  destruct (field_equals data method "M") eqn:EM.
  - split; [reflexivity |]. unfold field_equals in *.
    destruct (dict_get data method) as [[t | x | n] |]; try discriminate.
    apply String.eqb_eq in EM. now subst.
  - destruct (field_equals data method "F"); auto.
Qed.

Lemma count_method_tally (data : dict) (acc : Z * Z) (method : string) :
  count_method data acc method = tally (classify data method) acc.
Proof.
  unfold count_method. destruct acc as [m f].
  rewrite (get_is_field_equals data method "M").
  rewrite (get_is_field_equals data method "F").
  pose proof (classify_spec data method) as H.
  destruct (classify data method); destruct H as [HM HF];
    rewrite HM, ?HF; reflexivity.
Qed.

Lemma gender_counts_tally (data : dict) :
  gender_counts data =
  tally (classify data "gender_sry")
        (tally (classify data "gender_hetx")
               (tally (classify data "gender_xy") (0, 0))).
Proof.
  unfold gender_counts, list_gender_methods. cbn [fold_left].
  now rewrite 3 count_method_tally.
Qed.

Lemma count_fields_classify (data : dict) :
  count_fields data "M" =
    indicator (is_M (classify data "gender_xy"))
    + indicator (is_M (classify data "gender_hetx"))
    + indicator (is_M (classify data "gender_sry"))
  /\ count_fields data "F" =
    indicator (is_F (classify data "gender_xy"))
    + indicator (is_F (classify data "gender_hetx"))
    + indicator (is_F (classify data "gender_sry")).
Proof.
  unfold count_fields, list_gender_methods. simpl.
  pose proof (classify_spec data "gender_xy") as H1.
  pose proof (classify_spec data "gender_hetx") as H2.
  pose proof (classify_spec data "gender_sry") as H3.
  destruct (classify data "gender_xy"), (classify data "gender_hetx"),
    (classify data "gender_sry");
    destruct H1 as [-> ->], H2 as [-> ->], H3 as [-> ->];
    split; reflexivity.
Qed.

(** The record after derivation: the two derived fields are present and
    the remaining fields are untouched. *)
Lemma consensus_record_fields (data : dict) (p : float) (g : string) :
  vote (fst (gender_counts data)) (snd (gender_counts data)) = Ok (p, g) ->
  exists data',
    consensus_record data = Ok data'
    /\ dict_get data' "certainty" = Some (VFloat p)
    /\ dict_get data' "calc_gender" = Some (VStr g)
    /\ forall k, k <> "certainty" -> k <> "calc_gender" ->
                 dict_get data' k = dict_get data k.
Proof.
  intros Hv. unfold consensus_record.
  destruct (gender_counts data) as [m f]. simpl in Hv. rewrite Hv. simpl.
  eexists. split; [reflexivity |]. repeat split.
  - rewrite dict_get_set_other by discriminate. apply dict_get_set_same.
  - apply dict_get_set_same.
  - intros k H1 H2. rewrite !dict_get_set_other by congruence. reflexivity.
Qed.

(** The vote on every combination of three calls. *)
Lemma vote_table (c1 c2 c3 : call) :
  let count_M := indicator (is_M c1) + indicator (is_M c2) + indicator (is_M c3) in
  let count_F := indicator (is_F c1) + indicator (is_F c2) + indicator (is_F c3) in
  tally c3 (tally c2 (tally c1 (0, 0))) = (count_M, count_F)
  /\ exists p g,
      vote count_M count_F = Ok (p, g)
      /\ In p certainty_levels
      /\ In g consensus_calls
      /\ (g = "Unknown" <-> count_M = count_F)
      /\ (count_F <= count_M ->
          p = thirds count_M /\ (g = "M" <-> count_F < count_M))
      /\ (count_M < count_F -> p = thirds count_F /\ g = "F").
Proof.
  destruct c1, c2, c3; vm_compute;
    (split; [reflexivity |]);
    do 2 eexists; (split; [reflexivity |]);
    intuition (try discriminate; try congruence).
Qed.

Lemma consensus_record_total (data : dict) :
  exists data', consensus_record data = Ok data'.
Proof.
  pose proof (vote_table (classify data "gender_xy")
                (classify data "gender_hetx") (classify data "gender_sry")) as H.
  cbv zeta in H. destruct H as [Ht (p & g & Hv & _)].
  rewrite <- gender_counts_tally in Ht.
  destruct (consensus_record_fields data p g) as (data' & H & _).
  - now rewrite Ht.
  - eauto.
Qed.

(** The pass over the registry derives every record and keeps the
    sample names and their order. *)
Lemma calculate_gender_consensus_total (reg : registry) :
  exists reg',
    _calculate_gender_consensus reg = Ok reg'
    /\ Forall2 (fun old new => fst new = fst old
                               /\ consensus_record (snd old) = Ok (snd new))
               reg reg'.
Proof.
  induction reg as [| [sample data] reg IH]; simpl.
  - eexists. split; [reflexivity | constructor].
  - destruct (consensus_record_total data) as [data' Hd].
    destruct IH as (reg' & Hr & Hall).
    rewrite Hd, Hr. simpl. eexists. split; [reflexivity |].
    constructor; auto.
Qed.

(** The derived fields are a function of the three raw fields. *)
Lemma classify_same_raw (d1 d2 : dict) (method : string) :
  same_raw_fields d1 d2 -> In method list_gender_methods ->
  classify d1 method = classify d2 method.
Proof.
  intros Hs Hin. unfold classify, field_equals. now rewrite (Hs method Hin).
Qed.

Lemma gender_counts_same_raw (d1 d2 : dict) :
  same_raw_fields d1 d2 -> gender_counts d1 = gender_counts d2.
Proof.
  intros Hs. rewrite !gender_counts_tally.
  rewrite (classify_same_raw d1 d2 "gender_xy" Hs) by (simpl; auto).
  rewrite (classify_same_raw d1 d2 "gender_hetx" Hs) by (simpl; auto).
  rewrite (classify_same_raw d1 d2 "gender_sry" Hs) by (simpl; auto).
  reflexivity.
Qed.

Lemma consensus_record_same_raw (d1 d2 : dict) :
  same_raw_fields d1 d2 ->
  exists r1 r2 p g,
    consensus_record d1 = Ok r1 /\ consensus_record d2 = Ok r2
    /\ dict_get r1 "certainty" = Some (VFloat p)
    /\ dict_get r2 "certainty" = Some (VFloat p)
    /\ dict_get r1 "calc_gender" = Some (VStr g)
    /\ dict_get r2 "calc_gender" = Some (VStr g).
Proof.
  intros Hs.
  pose proof (vote_table (classify d1 "gender_xy")
                (classify d1 "gender_hetx") (classify d1 "gender_sry")) as H.
  cbv zeta in H. destruct H as [Ht (p & g & Hv & _)].
  rewrite <- gender_counts_tally in Ht.
  destruct (consensus_record_fields d1 p g) as (r1 & H1 & Hc1 & Hg1 & _);
    [now rewrite Ht |].
  destruct (consensus_record_fields d2 p g) as (r2 & H2 & Hc2 & Hg2 & _);
    [now rewrite <- (gender_counts_same_raw d1 d2 Hs), Ht |].
  exists r1, r2, p, g. auto 10.
Qed.

Lemma same_raw_after_derivation (data data' : dict) :
  consensus_record data = Ok data' -> same_raw_fields data' data.
Proof.
  intros H method Hin. unfold consensus_record in H.
  destruct (gender_counts data) as [m f].
  destruct (vote m f) as [r |]; simpl in H; [| discriminate].
  inversion H; subst.
  rewrite !dict_get_set_other; [reflexivity | |];
    simpl in Hin; intuition (subst; discriminate).
Qed.

(** C1. For every sex-prediction record, consensus derivation succeeds
    and leaves [certainty] in {0.0, 1/3, 2/3, 1.0} and [calc_gender] in
    {"M", "F", "Unknown"}; [calc_gender] is "Unknown" exactly when
    count_M = count_F, where the counts are the numbers of method fields
    (gender_xy, gender_hetx, gender_sry) equal to "M", resp. "F"; when
    count_M >= count_F the certainty is count_M / 3 and the call is "M"
    only for count_M > count_F; otherwise the certainty is count_F / 3
    and the call is "F". *)
Theorem consensus_certainty_and_call (data : dict) :
  let count_M := count_fields data "M" in
  let count_F := count_fields data "F" in
  exists data' certainty calc_gender,
    consensus_record data = Ok data'
    /\ dict_get data' "certainty" = Some (VFloat certainty)
    /\ dict_get data' "calc_gender" = Some (VStr calc_gender)
    /\ In certainty certainty_levels
    /\ In calc_gender consensus_calls
    /\ (calc_gender = "Unknown" <-> count_M = count_F)
    /\ (count_F <= count_M ->
        certainty = thirds count_M
        /\ (calc_gender = "M" <-> count_F < count_M))
    /\ (count_M < count_F ->
        certainty = thirds count_F /\ calc_gender = "F").
Proof.
  intros count_M count_F. subst count_M count_F.
  destruct (count_fields_classify data) as [-> ->].
  pose proof (vote_table (classify data "gender_xy")
                (classify data "gender_hetx") (classify data "gender_sry")) as H.
  cbv zeta in H. destruct H as [Ht (p & g & Hv & Hrest)].
  rewrite <- gender_counts_tally in Ht.
  destruct (consensus_record_fields data p g) as (data' & Hd & Hc & Hg & _);
    [now rewrite Ht |].
  exists data', p, g. auto.
Qed.

(** C7. Consensus derivation recomputes [certainty] and [calc_gender]
    from gender_xy, gender_hetx and gender_sry alone: two records with
    the same three raw fields, whatever derived fields either of them
    already carries, get the same certainty and the same calc_gender. *)
Theorem consensus_ignores_prior_derived (d1 d2 : dict) :
  same_raw_fields d1 d2 ->
  exists r1 r2 certainty calc_gender,
    consensus_record d1 = Ok r1 /\ consensus_record d2 = Ok r2
    /\ dict_get r1 "certainty" = Some (VFloat certainty)
    /\ dict_get r2 "certainty" = Some (VFloat certainty)
    /\ dict_get r1 "calc_gender" = Some (VStr calc_gender)
    /\ dict_get r2 "calc_gender" = Some (VStr calc_gender).
Proof.
  apply consensus_record_same_raw.
Qed.

(** Rerunning the derivation on its own output changes nothing. *)
Lemma consensus_record_rerun (data data' : dict) :
  consensus_record data = Ok data' -> consensus_record data' = Ok data'.
Proof.
  intros H.
  pose proof (same_raw_after_derivation data data' H) as Hs.
  unfold consensus_record in *.
  rewrite (gender_counts_same_raw data' data Hs).
  destruct (gender_counts data) as [m f].
  destruct (vote m f) as [[p g] |]; simpl in *; [| discriminate].
  inversion H as [Hd]. rewrite Hd. f_equal.
  rewrite (dict_set_same_value data' "certainty" (VFloat p)).
  - apply dict_set_same_value. subst data'. apply dict_get_set_same.
  - subst data'. rewrite dict_get_set_other by discriminate.
    apply dict_get_set_same.
Qed.

(** A record that already carries derived fields, against the same
    record without them. *)
Lemma consensus_ignores_prior_derived_witness :
  let derived := [("gender_xy", VStr "M"); ("certainty", VStr "stale");
                  ("gender_sry", VStr "F"); ("calc_gender", VStr "F");
                  ("gender_hetx", VStr "M")] in
  let raw := [("gender_xy", VStr "M"); ("gender_sry", VStr "F");
              ("gender_hetx", VStr "M")] in
  same_raw_fields derived raw
  /\ exists r1 r2 certainty calc_gender,
      consensus_record derived = Ok r1 /\ consensus_record raw = Ok r2
      /\ dict_get r1 "certainty" = Some (VFloat certainty)
      /\ dict_get r2 "certainty" = Some (VFloat certainty)
      /\ dict_get r1 "calc_gender" = Some (VStr calc_gender)
      /\ dict_get r2 "calc_gender" = Some (VStr calc_gender).
Proof.
  intros derived raw.
  assert (Hs : same_raw_fields derived raw).
  { intros method [<- | [<- | [<- | []]]]; reflexivity. }
  split; [exact Hs |].
  exact (consensus_ignores_prior_derived derived raw Hs).
Defined.

End Consensus.

(* ================================================================= *)
(** * The sex-prediction record parser *)

Section SexParser.
Import Py sample_gender Spec.

Lemma for_each_total {A St : Type} (body : St -> A -> result St)
      (step : St -> A -> St) (xs : list A) (s : St) :
  (forall s x, body s x = Ok (step s x)) ->
  for_each body xs s = Ok (fold_left step xs s).
Proof.
  intros Hb. revert s. induction xs as [| x xs IH]; intros s; simpl.
  - reflexivity.
  - rewrite Hb. simpl. apply IH.
Qed.

Lemma str_in_In (x : string) (xs : list string) :
  str_in x xs = true <-> In x xs.
Proof.
  unfold str_in. rewrite existsb_exists. split.
  - intros (y & Hy & E). apply String.eqb_eq in E. now subst.
  - intros H. exists x. split; [assumption | apply String.eqb_refl].
Qed.

Lemma str_in_false (x : string) (xs : list string) :
  str_in x xs = false <-> ~ In x xs.
Proof.
  rewrite <- str_in_In. destruct (str_in x xs); split; congruence.
Qed.

(** *** Numeric coercion never fails *)

Lemma float_of_str_only_ValueError (s : string) (e : exn) :
  float_of_str s = Raise e -> e = ValueError.
Proof.
  unfold float_of_str.
  destruct (take_sign (strip_literal s)) as [neg body].
  destruct (String.eqb (lower body) "inf" || String.eqb (lower body) "infinity");
    [discriminate |].
  destruct (String.eqb (lower body) "nan"); [discriminate |].
  destruct (break_at is_exp_mark body) as [mant ex].
  destruct (parse_number mant) as [[ds fs] |];
    [destruct (parse_exponent ex) |]; intros H; inversion H; reflexivity.
Qed.

Lemma store_coerce (parsed_data : dict) (kv : string * string) :
  store parsed_data kv = Ok (dict_set parsed_data (fst kv) (coerce (snd kv))).
Proof.
  destruct kv as [key value]. unfold store, coerce. simpl.
  destruct (float_of_str value) as [x | e] eqn:E.
  - destruct (is_nan x); reflexivity.
  - apply float_of_str_only_ValueError in E. now subst e.
Qed.

Lemma store_all (headers values : list string) :
  for_each store (combine headers values) [] = Ok (coerced_record headers values).
Proof.
  unfold coerced_record. apply for_each_total. apply store_coerce.
Qed.

(** *** Canonical sex of the first value *)

Lemma canonical_sex_cons (v : string) (vs : list string) :
  canonical_sex (v :: vs) = Ok (canonical v :: vs).
Proof.
  unfold canonical_sex, canonical. simpl.
  destruct (String.eqb (lower v) "male"); [reflexivity |]. simpl.
  destruct (String.eqb (lower v) "female"); reflexivity.
Qed.

Lemma canonical_sex_nil : canonical_sex [] = Raise IndexError.
Proof. reflexivity. Qed.

(** *** Columns 2 to 6 *)

Lemma columns_nonempty {A : Type} (fields : list A) :
  (2 <= List.length fields)%nat ->
  exists x xs, slice 1 6 fields = x :: xs.
Proof.
  destruct fields as [| a [| b fields]]; simpl; intros H; try lia.
  unfold slice. simpl. eauto.
Qed.

Lemma columns_empty {A : Type} (fields : list A) :
  (List.length fields < 2)%nat -> slice 1 6 fields = [].
Proof.
  destruct fields as [| a [| b fields]]; simpl; intros H; try lia; reflexivity.
Qed.

(** *** Header renaming *)

Lemma rename_headers_nil : rename_headers [] = Ok [].
Proof. reflexivity. Qed.

Lemma rename_step_cons (h : string) (t : list string) (c k : string) :
  rename_step (h :: t) (c, k) = Ok ((if str_in c (h :: t) then k else h) :: t).
Proof.
  unfold rename_step. destruct (str_in c (h :: t)); reflexivity.
Qed.

(** Case analysis on [c in l], with the membership fact in [E]. *)
Ltac presence c l E :=
  destruct (str_in c l) eqn:E;
  [apply str_in_In in E | apply str_in_false in E].

(** A source column found behind an internal key sits in the tail. *)
Ltac in_tail E := destruct E as [E | E]; [discriminate |].

(** Close the goal of [rename_headers_cons] with source column [c]. *)
Ltac renamed_after c :=
  eexists; split; [reflexivity |]; right; exists c; simpl; auto 6.

(** The header at position 0 becomes the internal key of a source column
    present in the list, or stays when no source column is present; the
    other positions are never touched. *)
Lemma rename_headers_cons (h : string) (t : list string) :
  exists k,
    rename_headers (h :: t) = Ok (k :: t)
    /\ ((k = h /\ forall c, In c source_columns -> ~ In c (h :: t))
        \/ exists c, In (c, k) param_map /\ In c (h :: t)).
Proof.
  unfold rename_headers, param_map. cbn [for_each].
  rewrite rename_step_cons. cbn [bind].
  rewrite rename_step_cons. cbn [bind].
  rewrite rename_step_cons.
  presence "reads_chry" (h :: t) E1.
  - presence "het_fraction" ("gender_xy" :: t) E2.
    + in_tail E2. presence "coverage_sry" ("gender_hetx" :: t) E3.
      * in_tail E3. renamed_after "coverage_sry".
      * renamed_after "het_fraction".
    + presence "coverage_sry" ("gender_xy" :: t) E3.
      * in_tail E3. renamed_after "coverage_sry".
      * renamed_after "reads_chry".
  - presence "het_fraction" (h :: t) E2.
    + presence "coverage_sry" ("gender_hetx" :: t) E3.
      * in_tail E3. renamed_after "coverage_sry".
      * renamed_after "het_fraction".
    + presence "coverage_sry" (h :: t) E3.
      * renamed_after "coverage_sry".
      * eexists. split; [reflexivity |]. left. split; [reflexivity |].
        unfold source_columns, param_map.
        intros c [<- | [<- | [<- | []]]]; assumption.
Qed.

Lemma rename_headers_total (headers : list string) :
  exists headers',
    rename_headers headers = Ok headers'
    /\ List.length headers' = List.length headers.
Proof.
  destruct headers as [| h t].
  - exists []. split; reflexivity.
  - destruct (rename_headers_cons h t) as (k & Hk & _).
    exists (k :: t). split; [assumption | reflexivity].
Qed.

(** *** The parser on a file with a header line and a data line *)

Lemma parse_file_two_lines (f line0 line1 : string) (rest : list string) :
  splitlines f = line0 :: line1 :: rest ->
  parse_file f =
    (values <- canonical_sex (columns_2_to_6 (tab_fields line1)) ;;
     headers <- rename_headers (columns_2_to_6 (tab_fields line0)) ;;
     for_each store (combine headers values) []).
Proof.
  intros Hl. unfold parse_file. rewrite Hl. reflexivity.
Qed.

Lemma keys_coerced_prefix (kvs : list (string * string)) (d : dict) :
  exists extra,
    keys (fold_left (fun d kv => dict_set d (fst kv) (coerce (snd kv))) kvs d)
    = (keys d ++ extra)%list.
Proof.
  revert d. induction kvs as [| [k v] kvs IH]; intros d; simpl.
  - exists []. now rewrite app_nil_r.
  - destruct (IH (dict_set d k (coerce v))) as [extra ->].
    destruct (in_dec string_dec k (keys d)) as [Hin | Hout].
    + rewrite keys_dict_set_present by assumption. eauto.
    + rewrite keys_dict_set_absent by assumption.
      rewrite <- app_assoc. eauto.
Qed.

Lemma coerced_record_first_key (k v : string) (ks vs : list string) :
  hd_error (keys (coerced_record (k :: ks) (v :: vs))) = Some k.
Proof.
  unfold coerced_record. simpl.
  destruct (keys_coerced_prefix (combine ks vs) [(k, coerce v)]) as [extra ->].
  reflexivity.
Qed.

Lemma coerced_fold_untouched (kvs : list (string * string)) (d : dict) (k : string) :
  ~ In k (map fst kvs) ->
  dict_get (fold_left (fun d kv => dict_set d (fst kv) (coerce (snd kv))) kvs d) k
  = dict_get d k.
Proof.
  revert d. induction kvs as [| [k0 v0] kvs IH]; intros d Hout; simpl in *.
  - reflexivity.
  - rewrite IH by tauto. apply dict_get_set_other. intros ->. tauto.
Qed.

Lemma coerced_fold_lookup (kvs : list (string * string)) (d : dict)
      (k v : string) :
  NoDup (map fst kvs) -> In (k, v) kvs ->
  dict_get (fold_left (fun d kv => dict_set d (fst kv) (coerce (snd kv))) kvs d) k
  = Some (coerce v).
Proof.
  revert d. induction kvs as [| [k0 v0] kvs IH]; intros d Hnd Hin; simpl in *.
  - contradiction.
  - inversion Hnd as [| ? ? Hout Hnd']; subst.
    destruct Hin as [Heq | Hin].
    + inversion Heq; subst.
      rewrite coerced_fold_untouched by assumption.
      apply dict_get_set_same.
    + now apply IH.
Qed.

Lemma combine_keys_NoDup {B : Type} (ks : list string) (vs : list B) :
  NoDup ks -> NoDup (map fst (combine ks vs)).
Proof.
  revert vs. induction ks as [| k ks IH]; intros vs Hnd; simpl.
  - constructor.
  - destruct vs as [| v vs]; simpl; [constructor |].
    inversion Hnd as [| ? ? Hout Hnd']; subst.
    constructor; [| now apply IH].
    intros Hin. apply Hout. apply in_map_iff in Hin.
    destruct Hin as ([k' v'] & <- & Hin). simpl.
    eapply in_combine_l; eauto.
Qed.

(** C8. On a file whose first two lines each give at least two
    tab-separated fields, the parser returns normally; the record it
    returns is built from the renamed headers of columns 2-6 and from the
    values of columns 2-6 with the first one canonicalized ("male" to "M",
    "female" to "F", whatever the case, anything else unchanged), every
    value stored as its parsed number, as the sentinel "N/A" when that
    number is a NaN, and as the raw text when it is not a number. *)
Theorem parser_canonicalizes_and_coerces
        (f line0 line1 : string) (rest : list string) :
  splitlines f = line0 :: line1 :: rest ->
  (2 <= List.length (tab_fields line0))%nat ->
  (2 <= List.length (tab_fields line1))%nat ->
  exists first others headers parsed_data,
    columns_2_to_6 (tab_fields line1) = first :: others
    /\ rename_headers (columns_2_to_6 (tab_fields line0)) = Ok headers
    /\ parse_file f = Ok parsed_data
    /\ parsed_data = coerced_record headers (canonical first :: others)
    /\ (NoDup headers ->
        forall key value,
          In (key, value) (combine headers (canonical first :: others)) ->
          dict_get parsed_data key = Some (coerce value)).
Proof.
  intros Hl H0 H1.
  destruct (columns_nonempty (tab_fields line1) H1) as (first & others & Hv).
  destruct (rename_headers_total (columns_2_to_6 (tab_fields line0)))
    as (headers & Hh & _).
  exists first, others, headers,
    (coerced_record headers (canonical first :: others)).
  split; [exact Hv |]. split; [exact Hh |]. split; [| split; [reflexivity |]].
  - rewrite (parse_file_two_lines f line0 line1 rest Hl).
    unfold columns_2_to_6 in *. rewrite Hv, canonical_sex_cons. cbn [bind].
    rewrite Hh. cbn [bind]. apply store_all.
  - intros Hnd key value Hin. unfold coerced_record.
    apply coerced_fold_lookup; [| assumption].
    now apply combine_keys_NoDup.
Qed.

Lemma parser_canonicalizes_and_coerces_witness :
  let f := tsv ["s_name"; "reads_chry"; "ratio_chry_chrx"; "note"; "x"]
           ++ String LF (tsv ["S1"; "Male"; "0.5"; "n/a"; "NaN"])
           ++ String LF EmptyString in
  exists parsed_data,
    parse_file f = Ok parsed_data
    /\ parsed_data = [("gender_xy", VStr "M");
                      ("ratio_chry_chrx", VFloat (S754_finite false 4503599627370496 (-53)));
                      ("note", VStr "n/a"); ("x", VStr "N/A")].
Proof.
  intros f.
  destruct (parser_canonicalizes_and_coerces f
              (tsv ["s_name"; "reads_chry"; "ratio_chry_chrx"; "note"; "x"])
              (tsv ["S1"; "Male"; "0.5"; "n/a"; "NaN"]) [])
    as (first & others & headers & parsed_data & Hv & Hh & Hp & Hd & _).
  - reflexivity.
  - vm_compute. lia.
  - vm_compute. lia.
  - exists parsed_data. split; [exact Hp |].
    vm_compute in Hv. vm_compute in Hh.
    inversion Hv; subst first others. inversion Hh; subst headers.
    rewrite Hd. vm_compute. reflexivity.
Defined.

(** C9. When one of the source columns reads_chry, het_fraction,
    coverage_sry occurs anywhere in the extracted header list, renaming
    succeeds and replaces the header at position 0, and no other, by the
    internal key of a source column that occurs in the list: of the only
    one when a single source column occurs.  On the header
    s_name, reads_chry, other, other2, other3, other4 restricted to
    columns 2-6 the first retained header becomes gender_xy, and a file
    with that header line is parsed without error whenever its data row
    has at least two fields. *)
Theorem header_renamed_at_position_0 (headers : list string) (c : string) :
  In c source_columns -> In c headers ->
  (exists h t c' k,
      headers = h :: t
      /\ In (c', k) param_map /\ In c' headers
      /\ rename_headers headers = Ok (k :: t)
      /\ ((forall c'', In c'' source_columns -> In c'' headers -> c'' = c) ->
          In (c, k) param_map))
  /\ rename_headers (columns_2_to_6 example_header)
     = Ok ["gender_xy"; "other"; "other2"; "other3"; "other4"]
  /\ (forall f row rest,
        splitlines f = tsv example_header :: row :: rest ->
        (2 <= List.length (tab_fields row))%nat ->
        exists parsed_data,
          parse_file f = Ok parsed_data
          /\ hd_error (keys parsed_data) = Some "gender_xy").
Proof.
  intros Hc Hin. split; [| split].
  - destruct headers as [| h t]; [contradiction |].
    destruct (rename_headers_cons h t) as (k & Hk & [[_ Hnone] | (c' & Hm & Hc')]).
    + elim (Hnone c Hc Hin).
    + exists h, t, c', k. repeat split; auto.
      intros Honly.
      assert (c' = c) as <-; [| assumption].
      apply Honly; [| assumption].
      unfold source_columns. change c' with (fst (c', k)). now apply in_map.
  - reflexivity.
  - intros f row rest Hl Hrow.
    destruct (columns_nonempty (tab_fields row) Hrow) as (first & others & Hv).
    rewrite (parse_file_two_lines f _ row rest Hl).
    unfold columns_2_to_6. rewrite Hv, canonical_sex_cons. cbn [bind].
    replace (rename_headers (slice 1 6 (tab_fields (tsv example_header))))
      with (Ok (A := list string) ["gender_xy"; "other"; "other2"; "other3"; "other4"])
      by reflexivity.
    cbn [bind]. rewrite store_all. eexists. split; [reflexivity |].
    apply coerced_record_first_key.
Qed.

Lemma header_renamed_at_position_0_witness :
  exists h t c' k,
    ["ratio"; "x"; "reads_chry"] = h :: t
    /\ In (c', k) param_map /\ In c' ["ratio"; "x"; "reads_chry"]
    /\ rename_headers ["ratio"; "x"; "reads_chry"] = Ok (k :: t)
    /\ ((forall c'', In c'' source_columns ->
                     In c'' ["ratio"; "x"; "reads_chry"] -> c'' = "reads_chry") ->
        In ("reads_chry", k) param_map).
Proof.
  apply (header_renamed_at_position_0 ["ratio"; "x"; "reads_chry"] "reads_chry").
  - unfold source_columns. simpl. auto.
  - simpl. auto.
Defined.

(** C10. With two lines or more the parser still fails on some inputs:
    whenever the second line gives fewer than two tab-separated fields
    after stripping, reading the first extracted value for the
    male/female canonicalization raises an index error, which the parser
    propagates; so a file of two lines or more that is parsed
    successfully has at least two fields in its data row. *)
Theorem parser_needs_two_data_columns
        (f line0 line1 : string) (rest : list string) :
  splitlines f = line0 :: line1 :: rest ->
  ((List.length (tab_fields line1) < 2)%nat ->
   canonical_sex (columns_2_to_6 (tab_fields line1)) = Raise IndexError
   /\ parse_file f = Raise IndexError)
  /\ (forall parsed_data,
        parse_file f = Ok parsed_data ->
        (2 <= List.length (tab_fields line1))%nat).
Proof.
  intros Hl.
  assert (Hfail : (List.length (tab_fields line1) < 2)%nat ->
                  canonical_sex (columns_2_to_6 (tab_fields line1)) = Raise IndexError
                  /\ parse_file f = Raise IndexError).
  { intros Hshort.
    rewrite (parse_file_two_lines f line0 line1 rest Hl).
    unfold columns_2_to_6. rewrite (columns_empty _ Hshort).
    split; reflexivity. }
  split; [exact Hfail |].
  intros parsed_data Hok.
  destruct (Nat.lt_ge_cases (List.length (tab_fields line1)) 2) as [Hshort | Hge];
    [| exact Hge].
  destruct (Hfail Hshort) as [_ Hr]. congruence.
Qed.

Lemma parser_needs_two_data_columns_witness :
  let f := tsv ["s_name"; "reads_chry"; "ratio_chry_chrx"]
           ++ String LF "S1" ++ String LF EmptyString in
  parse_file f = Raise IndexError.
Proof.
  intros f.
  apply (parser_needs_two_data_columns f
           (tsv ["s_name"; "reads_chry"; "ratio_chry_chrx"]) "S1" []).
  - reflexivity.
  - vm_compute. lia.
Defined.

End SexParser.

(* ================================================================= *)
(** * Floats: quotients that cannot overflow *)

Section FloatFacts.
Import Py.

Lemma digits2_pos_size (p : positive) : digits2_pos p = Pos.size p.
Proof. induction p; simpl; congruence. Qed.

Lemma Zdigits2_nonneg (n : Z) : 0 <= Zdigits2 n.
Proof. destruct n; simpl; lia. Qed.

Lemma Zdigits2_upper (n : Z) : 0 <= n -> n < 2 ^ Zdigits2 n.
Proof.
  destruct n as [| p | p]; intros H; [reflexivity | | lia].
  unfold Zdigits2. rewrite digits2_pos_size.
  pose proof (Pos.size_gt p) as Hs.
  pose proof (Pos2Z.inj_pow 2 (Pos.size p)) as E.
  rewrite <- E. lia.
Qed.

Lemma Zdigits2_lower (p : positive) : 2 ^ (Zdigits2 (Zpos p) - 1) <= Zpos p.
Proof.
  unfold Zdigits2. rewrite digits2_pos_size.
  pose proof (Pos.size_le p) as Hs.
  assert (H2 : 2 ^ Zpos (Pos.size p) <= 2 * Zpos p).
  { pose proof (Pos2Z.inj_pow 2 (Pos.size p)) as E. rewrite <- E. lia. }
  replace (Zpos (Pos.size p)) with (Z.succ (Zpos (Pos.size p) - 1)) in H2 by lia.
  rewrite Z.pow_succ_r in H2 by lia. lia.
Qed.

Lemma Zdigits2_le_of_lt_pow (n k : Z) :
  0 <= n -> 0 <= k -> n < 2 ^ k -> Zdigits2 n <= k.
Proof.
  intros Hn Hk Hlt. destruct n as [| p | p]; [simpl; lia | | lia].
  pose proof (Zdigits2_lower p) as Hlow.
  destruct (Z_le_gt_dec (Zdigits2 (Zpos p)) k) as [Hle | Hgt]; [exact Hle |].
  assert (2 ^ k <= 2 ^ (Zdigits2 (Zpos p) - 1))
    by (apply Z.pow_le_mono_r; lia).
  lia.
Qed.

Lemma Zdigits2_succ (n : Z) : 0 <= n -> Zdigits2 (n + 1) <= Zdigits2 n + 1.
Proof.
  intros Hn. pose proof (Zdigits2_nonneg n).
  apply Zdigits2_le_of_lt_pow; try lia.
  pose proof (Zdigits2_upper n Hn).
  rewrite Z.pow_add_r by lia. lia.
Qed.

Lemma Zdigits2_mono (m n : Z) : 0 <= m <= n -> Zdigits2 m <= Zdigits2 n.
Proof.
  intros H. apply Zdigits2_le_of_lt_pow; try lia.
  - apply Zdigits2_nonneg.
  - pose proof (Zdigits2_upper n). lia.
Qed.

Lemma shr_1_bounds (mrs : shr_record) :
  0 <= shr_m mrs -> 0 <= shr_m (shr_1 mrs) <= shr_m mrs.
Proof.
  destruct mrs as [m r s]. simpl.
  destruct m as [| [p | p |] | p]; simpl; lia.
Qed.

Lemma iter_pos_invariant {A : Type} (P : A -> Prop) (f : A -> A) :
  (forall x, P x -> P (f x)) ->
  forall (p : positive) (x : A), P x -> P (iter_pos f p x).
Proof.
  intros Hf. induction p as [p IH | p IH |]; intros x Hx; simpl; auto.
Qed.

Lemma shr_bounds (mrs : shr_record) (e n : Z) :
  0 <= shr_m mrs ->
  0 <= shr_m (fst (shr mrs e n)) <= shr_m mrs
  /\ snd (shr mrs e n) = (if 0 <? n then e + n else e).
Proof.
  intros Hm. destruct n as [| p | p]; simpl; try lia.
  split; [| reflexivity].
  apply (iter_pos_invariant (fun x => 0 <= shr_m x <= shr_m mrs)); [| lia].
  intros x Hx. pose proof (shr_1_bounds x). lia.
Qed.

Lemma shr_record_of_loc_m (m : Z) (l : location) :
  shr_m (shr_record_of_loc m l) = m.
Proof. destruct l as [| []]; reflexivity. Qed.

Lemma round_nearest_even_bounds (m : Z) (l : location) :
  m <= round_nearest_even m l <= m + 1.
Proof.
  destruct l as [| []]; simpl; try lia. destruct (Z.even m); lia.
Qed.

Lemma shr_fexp_bounds (m e : Z) (l : location) :
  0 <= m ->
  0 <= shr_m (fst (shr_fexp prec emax m e l)) <= m
  /\ snd (shr_fexp prec emax m e l) = Z.max e (fexp prec emax (Zdigits2 m + e)).
Proof.
  intros Hm. unfold shr_fexp.
  pose proof (shr_bounds (shr_record_of_loc m l) e
                (fexp prec emax (Zdigits2 m + e) - e)) as H.
  rewrite shr_record_of_loc_m in H. destruct (H Hm) as [Hb He].
  split; [exact Hb |]. rewrite He.
  destruct (0 <? fexp prec emax (Zdigits2 m + e) - e) eqn:E.
  - apply Z.ltb_lt in E. lia.
  - apply Z.ltb_ge in E. lia.
Qed.

Lemma binary_round_aux_no_overflow (s : bool) (m e : Z) (l : location) :
  0 <= m -> -1074 <= e <= 0 -> Zdigits2 m + e <= 1 ->
  is_inf (binary_round_aux prec emax s m e l) = false.
Proof.
  intros Hm He Hd. unfold binary_round_aux.
  pose proof (shr_fexp_bounds m e l Hm) as H1.
  destruct (shr_fexp prec emax m e l) as [mrs1 e1]. simpl in H1.
  destruct H1 as [Hm1 He1].
  set (m1 := round_nearest_even (shr_m mrs1) (loc_of_shr_record mrs1)).
  assert (Hr : 0 <= m1 <= m + 1).
  { pose proof (round_nearest_even_bounds (shr_m mrs1) (loc_of_shr_record mrs1)).
    unfold m1. lia. }
  pose proof (shr_fexp_bounds m1 e1 loc_Exact (proj1 Hr)) as H2.
  destruct (shr_fexp prec emax m1 e1 loc_Exact) as [mrs2 e2]. simpl in H2.
  destruct H2 as [Hm2 He2].
  assert (Hdig : Zdigits2 m1 <= Zdigits2 m + 1).
  { pose proof (Zdigits2_mono m1 (m + 1) Hr). pose proof (Zdigits2_succ m Hm). lia. }
  assert (Hfin : e2 <= emax - prec).
  { subst e2 e1. unfold fexp, emin, prec, emax in *. lia. }
  destruct (shr_m mrs2); try reflexivity.
  apply Z.leb_le in Hfin. rewrite Hfin. reflexivity.
Qed.

Lemma round_quotient_no_overflow (s : bool) (a b : Z) :
  0 <= a <= b -> 0 < b -> is_inf (round_quotient s a b) = false.
Proof.
  intros Ha Hb. unfold round_quotient.
  destruct a as [| p | p]; [reflexivity | | lia].
  unfold SFdiv_core_binary.
  set (e' := Z.min (fexp prec emax (Zdigits2 (Zpos p) + 0 - (Zdigits2 b + 0))) (0 - 0)).
  assert (He : -1074 <= e' <= 0).
  { unfold e', fexp, emin, prec, emax. lia. }
  set (m' := match 0 - 0 - e' with
             | Z0 => Zpos p
             | Zpos _ => Z.shiftl (Zpos p) (0 - 0 - e')
             | Zneg _ => 0
             end).
  assert (Hm' : m' = Zpos p * 2 ^ (- e')).
  { unfold m'. replace (0 - 0 - e') with (- e') by lia.
    destruct (- e') as [| k | k] eqn:Ek; try lia.
    - rewrite Z.shiftl_mul_pow2 by lia. reflexivity. }
  destruct (Z.div_eucl m' b) as [q r] eqn:Ediv.
  assert (Hq : q = m' / b) by (unfold Z.div; now rewrite Ediv).
  assert (Hpow : 0 < 2 ^ (- e')) by (apply Z.pow_pos_nonneg; lia).
  assert (Hq0 : 0 <= q).
  { subst q. apply Z.div_pos; lia. }
  assert (Hq1 : q <= 2 ^ (- e')).
  { subst q. apply Z.div_le_upper_bound; [lia |]. rewrite Hm'. nia. }
  apply binary_round_aux_no_overflow; [exact Hq0 | exact He |].
  assert (Zdigits2 q <= - e' + 1); [| lia].
  apply Zdigits2_le_of_lt_pow; try lia.
  rewrite Z.pow_add_r by lia. lia.
Qed.

Lemma int_truediv_defined (a b : Z) :
  b <> 0 -> Z.abs a <= Z.abs b -> exists q, int_truediv a b = Ok q.
Proof.
  intros Hb Hab. unfold int_truediv.
  destruct (b =? 0) eqn:E; [apply Z.eqb_eq in E; contradiction |].
  rewrite round_quotient_no_overflow by lia. eauto.
Qed.

Lemma int_truediv_zero (a : Z) : int_truediv a 0 = Raise ZeroDivisionError.
Proof. reflexivity. Qed.

End FloatFacts.

(* ================================================================= *)
(** * The MSH2 parser and its frequency derivation *)

Section MSH2.
Import Py targeted_MSH2 Spec.

Lemma dict_get_middle (pre post : dict) (k : string) (v : value) :
  ~ In k (keys pre) -> dict_get (pre ++ (k, v) :: post)%list k = Some v.
Proof.
  induction pre as [| [k0 v0] pre IH]; simpl; intros Hout.
  - now rewrite String.eqb_refl.
  - destruct (String.eqb k0 k) eqn:E.
    + apply String.eqb_eq in E. elim Hout. auto.
    + apply IH. tauto.
Qed.

Lemma dict_get_middle_other (pre post : dict) (k k' : string) (v v' : value) :
  k <> k' ->
  dict_get (pre ++ (k, v') :: post)%list k'
  = dict_get (pre ++ (k, v) :: post)%list k'.
Proof.
  intros Hne. induction pre as [| [k0 v0] pre IH]; simpl.
  - destruct (String.eqb k k') eqn:E; [| reflexivity].
    apply String.eqb_eq in E. contradiction.
  - now rewrite IH.
Qed.

Lemma keys_app (d1 d2 : dict) : keys (d1 ++ d2)%list = (keys d1 ++ keys d2)%list.
Proof. apply map_app. Qed.

Lemma NoDup_keys_head (pre rest : dict) (k : string) (v : value) :
  NoDup (keys (pre ++ (k, v) :: rest)%list) -> ~ In k (keys pre).
Proof.
  rewrite keys_app. simpl. intros H Hin.
  apply NoDup_remove_2 in H. apply H. apply in_or_app. now left.
Qed.

Lemma shift_head (pre rest : dict) (x : string * value) :
  (pre ++ x :: rest = (pre ++ [x]) ++ rest)%list.
Proof. now rewrite <- app_assoc. Qed.

Lemma keys_shift (pre rest : dict) (k : string) (v v' : value) :
  keys ((pre ++ [(k, v')]) ++ rest)%list = keys (pre ++ (k, v) :: rest)%list.
Proof. rewrite <- shift_head, !keys_app. reflexivity. Qed.

(** *** One iteration of the frequency loop *)

Lemma derive_step_wt (config cur : dict) (k : string) (v x : value) (w : Z) :
  String.eqb k wt_key = true ->
  dict_get cur k = Some x -> py_int x = Ok w ->
  derive_step config cur (k, v) = Ok (dict_set cur k (VInt w)).
Proof.
  intros Hk Hget Hint. unfold derive_step. rewrite Hk. simpl.
  unfold dict_getitem. rewrite Hget. simpl. rewrite Hint. reflexivity.
Qed.

Lemma frequency_ok (cur : dict) (v : value) (w c : Z) (q : float) :
  wt_ready w cur -> py_int v = Ok c -> int_truediv c (w + c) = Ok q ->
  frequency cur v = Ok (py_round (fmul q (float_of_Z 100)) 2).
Proof.
  intros (x & Hget & Hx) Hc Hq. unfold frequency, dict_getitem.
  rewrite Hc, Hget. simpl. rewrite Hx. simpl. rewrite Hq. reflexivity.
Qed.

(** The two f-strings are one text with the separator the comparison
    chooses. *)
Lemma variant_text_arms (x freq : float) (counts : value) :
  variant_text x freq counts
  = if fle x freq then format_sanger freq counts else format_freq freq counts.
Proof.
  unfold variant_text, separator, format_sanger, format_freq.
  destruct (fle x freq); reflexivity.
Qed.

Lemma derive_step_frequency (config cur : dict) (k : string) (v : value)
      (x fr : float) :
  threshold_is config x -> String.eqb k wt_key = false ->
  frequency cur v = Ok fr ->
  derive_step config cur (k, v) = Ok (dict_set cur k (VStr (variant_text x fr v))).
Proof.
  intros (t & Ht & Hx) Hk Hfr. unfold derive_step. rewrite Hk. cbn [negb].
  rewrite Hfr. cbn [bind]. unfold dict_getitem. rewrite Ht. cbn [bind].
  rewrite Hx. cbn [bind]. rewrite variant_text_arms.
  destruct (fle x fr); reflexivity.
Qed.

Lemma derive_step_variant (config cur : dict) (k : string) (v : value)
      (x : float) (w c : Z) (q : float) :
  threshold_is config x ->
  String.eqb k wt_key = false -> wt_ready w cur ->
  py_int v = Ok c -> int_truediv c (w + c) = Ok q ->
  derive_step config cur (k, v)
  = Ok (dict_set cur k
          (VStr (variant_text x (py_round (fmul q (float_of_Z 100)) 2) v))).
Proof.
  intros Hcfg Hk Hw Hc Hq. apply derive_step_frequency; [exact Hcfg | exact Hk |].
  exact (frequency_ok cur v w c q Hw Hc Hq).
Qed.

Lemma frequency_zero (cur : dict) (v : value) :
  wt_ready 0 cur -> py_int v = Ok 0 ->
  frequency cur v = Raise ZeroDivisionError.
Proof.
  intros (x & Hget & Hx) Hc. unfold frequency, dict_getitem.
  rewrite Hc, Hget. simpl. rewrite Hx. reflexivity.
Qed.

Lemma derive_step_shape (config cur cur' : dict) (k : string) (v : value) :
  derive_step config cur (k, v) = Ok cur' ->
  exists new, cur' = dict_set cur k new.
Proof.
  unfold derive_step. destruct (negb (String.eqb k wt_key)).
  - destruct (frequency cur v) as [fr |]; simpl; [| discriminate].
    destruct (dict_getitem config "sanger_threshold") as [t |]; simpl;
      [| discriminate].
    destruct (py_float t) as [x |]; simpl; [| discriminate].
    destruct (fle x fr); intros H; inversion H; eauto.
  - destruct (dict_getitem cur k) as [x |]; simpl; [| discriminate].
    destruct (py_int x) as [n |]; simpl; [| discriminate].
    intros H; inversion H; eauto.
Qed.

(** An iteration that returns has read its own value as an integer and
    has found the wild-type entry. *)
Lemma derive_step_ok_inv (config cur cur' : dict) (k : string) (v : value) :
  derive_step config cur (k, v) = Ok cur' ->
  dict_get cur k = Some v ->
  (exists n, py_int v = Ok n) /\ dict_get cur wt_key <> None.
Proof.
  unfold derive_step. destruct (String.eqb k wt_key) eqn:Hk; simpl.
  - intros H Hget. unfold dict_getitem in H. rewrite Hget in H. simpl in H.
    apply String.eqb_eq in Hk. subst k.
    destruct (py_int v) as [n |]; [| discriminate].
    split; [eauto | congruence].
  - intros H _. unfold frequency in H.
    destruct (py_int v) as [c |]; simpl in H; [| discriminate].
    unfold dict_getitem in H at 1.
    destruct (dict_get cur wt_key) as [x |]; [| discriminate].
    split; [eauto | discriminate].
Qed.

(** *** The loop under a usable threshold *)

Section UsableThreshold.

Variable config : dict.
Variable threshold : float.
Hypothesis config_threshold : threshold_is config threshold.

Lemma derive_loop_ok (w : Z) :
  forall (todo pre : dict),
    NoDup (keys (pre ++ todo)%list) ->
    wt_ready w (pre ++ todo)%list ->
    (forall k v, In (k, v) todo ->
                 if String.eqb k wt_key then py_int v = Ok w
                 else exists c q, py_int v = Ok c /\ int_truediv c (w + c) = Ok q) ->
    exists todo',
      for_each (derive_step config) todo (pre ++ todo)%list = Ok (pre ++ todo')%list
      /\ Forall2 (derived_entry threshold w) todo todo'.
Proof.
  induction todo as [| [k v] rest IH]; intros pre Hnd Hw Hall.
  - exists []. split; [reflexivity | constructor].
  - pose proof (NoDup_keys_head pre rest k v Hnd) as Hout.
    pose proof (Hall k v (or_introl eq_refl)) as Hhead.
    assert (Hrest : forall k' v', In (k', v') rest ->
              if String.eqb k' wt_key then py_int v' = Ok w
              else exists c q, py_int v' = Ok c /\ int_truediv c (w + c) = Ok q).
    { intros k' v' Hin. apply Hall. now right. }
    cbn [for_each].
    destruct (String.eqb k wt_key) eqn:Hk.
    + rewrite (derive_step_wt config _ k v v w Hk (dict_get_middle pre rest k v Hout) Hhead).
      cbn [bind]. rewrite dict_set_middle by assumption. rewrite shift_head.
      destruct (IH (pre ++ [(k, VInt w)])%list) as (todo' & Hrun & Hrel).
      * now rewrite (keys_shift pre rest k v).
      * exists (VInt w). rewrite <- shift_head. split; [| reflexivity].
        apply String.eqb_eq in Hk. subst k. now apply dict_get_middle.
      * exact Hrest.
      * exists ((k, VInt w) :: todo'). rewrite Hrun, <- app_assoc.
        split; [reflexivity |]. constructor; [| exact Hrel].
        split; [reflexivity |]. simpl. now rewrite Hk.
    + destruct Hhead as (c & q & Hc & Hq).
      rewrite (derive_step_variant config _ k v threshold w c q
                 config_threshold Hk Hw Hc Hq).
      cbn [bind]. rewrite dict_set_middle by assumption. rewrite shift_head.
      set (new := VStr (variant_text threshold
                          (py_round (fmul q (float_of_Z 100)) 2) v)).
      destruct (IH (pre ++ [(k, new)])%list) as (todo' & Hrun & Hrel).
      * now rewrite (keys_shift pre rest k v).
      * destruct Hw as (x & Hget & Hx). exists x. split; [| exact Hx].
        rewrite <- shift_head, (dict_get_middle_other pre rest k wt_key v new);
          [exact Hget |].
        intros ->. now rewrite String.eqb_refl in Hk.
      * exact Hrest.
      * exists ((k, new) :: todo'). rewrite Hrun, <- app_assoc.
        split; [reflexivity |]. constructor; [| exact Hrel].
        split; [reflexivity |]. simpl. rewrite Hk. exists c, q. auto.
Qed.

Lemma derived_keys (w : Z) (d d' : dict) :
  Forall2 (derived_entry threshold w) d d' -> keys d' = keys d.
Proof.
  induction 1 as [| old new d d' [Hk _] _ IH]; simpl; congruence.
Qed.

Lemma derived_lookup (w : Z) (d d' : dict) (k : string) (v : value) :
  Forall2 (derived_entry threshold w) d d' -> In (k, v) d ->
  exists v', In (k, v') d' /\ derived_entry threshold w (k, v) (k, v').
Proof.
  induction 1 as [| old new d d' Hrel _ IH]; simpl; intros Hin; [contradiction |].
  destruct Hin as [-> | Hin].
  - destruct new as [k' v']. pose proof Hrel as [Hk _]. simpl in Hk. subst k'.
    exists v'. auto.
  - destruct (IH Hin) as (v' & Hin' & Hr). eauto.
Qed.

(** With the wild-type count at zero, the first variant count that is
    zero stops the loop with a division by zero. *)
Lemma derive_loop_zero :
  forall (todo pre : dict),
    NoDup (keys (pre ++ todo)%list) ->
    wt_ready 0 (pre ++ todo)%list ->
    (forall k v, In (k, v) todo ->
                 exists n, py_int v = Ok n /\ (String.eqb k wt_key = true -> n = 0)) ->
    (exists k v, In (k, v) todo /\ String.eqb k wt_key = false /\ py_int v = Ok 0) ->
    for_each (derive_step config) todo (pre ++ todo)%list = Raise ZeroDivisionError.
Proof.
  induction todo as [| [k v] rest IH]; intros pre Hnd Hw Hall Hzero.
  - destruct Hzero as (k & v & [] & _).
  - pose proof (NoDup_keys_head pre rest k v Hnd) as Hout.
    destruct (Hall k v (or_introl eq_refl)) as (n & Hn & Hwt).
    assert (Hrest : forall k' v', In (k', v') rest ->
              exists n', py_int v' = Ok n' /\ (String.eqb k' wt_key = true -> n' = 0)).
    { intros k' v' Hin. apply Hall. now right. }
    cbn [for_each].
    destruct (String.eqb k wt_key) eqn:Hk.
    + rewrite (Hwt eq_refl) in Hn.
      rewrite (derive_step_wt config _ k v v 0 Hk (dict_get_middle pre rest k v Hout) Hn).
      cbn [bind]. rewrite dict_set_middle by assumption. rewrite shift_head.
      apply IH.
      * now rewrite (keys_shift pre rest k v).
      * exists (VInt 0). rewrite <- shift_head. split; [| reflexivity].
        apply String.eqb_eq in Hk. subst k. now apply dict_get_middle.
      * exact Hrest.
      * destruct Hzero as (k0 & v0 & [Heq | Hin] & Hk0 & Hv0); [| eauto].
        inversion Heq; subst. congruence.
    + destruct (Z.eq_dec n 0) as [-> | Hnz].
      * unfold derive_step. rewrite Hk. simpl.
        now rewrite (frequency_zero _ v Hw Hn).
      * destruct (int_truediv_defined n (0 + n)) as [q Hq]; [lia | simpl; lia |].
        rewrite (derive_step_variant config _ k v threshold 0 n q
                   config_threshold Hk Hw Hn Hq).
        cbn [bind]. rewrite dict_set_middle by assumption. rewrite shift_head.
        apply IH.
        -- now rewrite (keys_shift pre rest k v).
        -- destruct Hw as (x & Hget & Hx). exists x. split; [| exact Hx].
           rewrite <- shift_head, (dict_get_middle_other pre rest k wt_key v);
             [exact Hget |].
           intros ->. now rewrite String.eqb_refl in Hk.
        -- exact Hrest.
        -- destruct Hzero as (k0 & v0 & [Heq | Hin] & Hk0 & Hv0); [| eauto].
           inversion Heq; subst. congruence.
Qed.

End UsableThreshold.

(** A loop that returns has read every value as an integer, and has
    found the wild-type entry whenever it had an entry to visit. *)
Lemma derive_loop_inv (config : dict) :
  forall (todo pre r : dict),
    NoDup (keys (pre ++ todo)%list) ->
    for_each (derive_step config) todo (pre ++ todo)%list = Ok r ->
    forall k v, In (k, v) todo ->
                (exists n, py_int v = Ok n)
                /\ In wt_key (keys (pre ++ todo)%list).
Proof.
  induction todo as [| [k v] rest IH]; intros pre r Hnd Hrun k' v' Hin.
  - contradiction.
  - pose proof (NoDup_keys_head pre rest k v Hnd) as Hout.
    cbn [for_each] in Hrun.
    destruct (derive_step config (pre ++ (k, v) :: rest)%list (k, v))
      as [cur' |] eqn:Hstep; [| discriminate].
    cbn [bind] in Hrun.
    destruct (derive_step_ok_inv _ _ _ _ _ Hstep (dict_get_middle pre rest k v Hout))
      as [Hint Hwt].
    destruct (derive_step_shape _ _ _ _ _ Hstep) as [new ->].
    rewrite dict_set_middle, shift_head in Hrun by assumption.
    destruct Hin as [Heq | Hin].
    + inversion Heq; subst. split; [exact Hint |].
      destruct (in_dec string_dec wt_key (keys (pre ++ (k', v') :: rest)%list))
        as [Hyes | Hno]; [exact Hyes |].
      apply dict_get_None in Hno. contradiction.
    + rewrite <- (keys_shift pre rest k v new).
      refine (IH (pre ++ [(k, new)])%list r _ Hrun k' v' Hin).
      now rewrite (keys_shift pre rest k v).
Qed.

(** *** The extracted record *)

Lemma fold_store_NoDup (kvs : list (string * string)) (d : dict) :
  NoDup (keys d) -> NoDup (keys (fold_left store kvs d)).
Proof.
  revert d. induction kvs as [| kv kvs IH]; intros d Hnd; simpl; [exact Hnd |].
  apply IH. unfold store. now apply dict_set_NoDup.
Qed.

Lemma extract_NoDup (header_line value_line : string) :
  NoDup (keys (extract header_line value_line)).
Proof. unfold extract. apply fold_store_NoDup. constructor. Qed.

Lemma dict_set_values (d : dict) (k : string) (v : value) (P : value -> Prop) :
  P v -> (forall k' x, In (k', x) d -> P x) ->
  forall k' x, In (k', x) (dict_set d k v) -> P x.
Proof.
  intros Hv. induction d as [| [k0 v0] d IH]; simpl; intros Hd k' x Hin.
  - destruct Hin as [Heq | []]. inversion Heq; now subst.
  - destruct (String.eqb k0 k); simpl in Hin.
    + destruct Hin as [Heq | Hin]; [inversion Heq; now subst | eauto].
    + destruct Hin as [Heq | Hin]; [inversion Heq; subst; eauto |].
      apply (IH (fun k1 x1 H1 => Hd k1 x1 (or_intror H1)) k' x Hin).
Qed.

Lemma fold_store_text (kvs : list (string * string)) (d : dict) :
  (forall k x, In (k, x) d -> exists s, x = VStr s) ->
  forall k x, In (k, x) (fold_left store kvs d) -> exists s, x = VStr s.
Proof.
  revert d. induction kvs as [| kv kvs IH]; intros d Hd; simpl; [exact Hd |].
  apply IH. unfold store.
  apply (dict_set_values d (fst kv) (VStr (snd kv)) (fun x => exists s, x = VStr s));
    eauto.
Qed.

Lemma extract_text (header_line value_line k : string) (x : value) :
  In (k, x) (extract header_line value_line) -> exists s, x = VStr s.
Proof.
  unfold extract. apply fold_store_text. intros k' x' [].
Qed.

(** *** The parser by number of lines *)

Lemma parse_file_short (f : string) (config : dict) :
  (List.length (splitlines f) < 3)%nat -> parse_file f config = Ok [].
Proof.
  intros H. unfold parse_file.
  apply Nat.ltb_lt in H. now rewrite H.
Qed.

Lemma parse_file_three (f : string) (config : dict) :
  List.length (splitlines f) = 3%nat -> parse_file f config = Raise IndexError.
Proof.
  intros H. unfold parse_file.
  destruct (splitlines f) as [| l0 [| l1 [| l2 [| l3 rest]]]]; try discriminate.
  reflexivity.
Qed.

Lemma parse_file_four (f l0 l1 l2 l3 : string) (rest : list string)
      (config : dict) :
  splitlines f = l0 :: l1 :: l2 :: l3 :: rest ->
  parse_file f config = derive config (extract l2 l3).
Proof.
  intros H. unfold parse_file. rewrite H. reflexivity.
Qed.

Lemma parse_file_extracted (f : string) (config d : dict) :
  extracted f = Some d -> parse_file f config = derive config d.
Proof.
  unfold extracted.
  destruct (splitlines f) as [| l0 [| l1 [| l2 [| l3 rest]]]] eqn:E;
    try discriminate.
  intros H. inversion H; subst. now apply (parse_file_four f l0 l1 l2 l3 rest).
Qed.

Lemma extracted_NoDup (f : string) (d : dict) :
  extracted f = Some d -> NoDup (keys d).
Proof.
  unfold extracted.
  destruct (splitlines f) as [| l0 [| l1 [| l2 [| l3 rest]]]]; try discriminate.
  intros H. inversion H. apply extract_NoDup.
Qed.

(** Two thresholds that compare alike with every frequency choose the
    same arm. *)
Lemma derive_step_threshold (c1 c2 cur : dict) (x1 x2 : float)
      (item : string * value) :
  threshold_is c1 x1 -> threshold_is c2 x2 ->
  (forall fr, fle x1 fr = fle x2 fr) ->
  derive_step c1 cur item = derive_step c2 cur item.
Proof.
  intros (t1 & Ht1 & Hx1) (t2 & Ht2 & Hx2) Hsame.
  destruct item as [k v]. unfold derive_step.
  destruct (negb (String.eqb k wt_key)); [| reflexivity].
  destruct (frequency cur v) as [fr |]; simpl; [| reflexivity].
  unfold dict_getitem. rewrite Ht1, Ht2. simpl. rewrite Hx1, Hx2. simpl.
  now rewrite (Hsame fr).
Qed.

Lemma for_each_ext {A St : Type} (body body' : St -> A -> result St)
      (xs : list A) (s : St) :
  (forall s x, body s x = body' s x) ->
  for_each body xs s = for_each body' xs s.
Proof.
  intros Hb. revert s. induction xs as [| x xs IH]; intros s; simpl.
  - reflexivity.
  - rewrite Hb. destruct (body' s x); simpl; auto.
Qed.

Lemma derive_threshold (c1 c2 d : dict) (x1 x2 : float) :
  threshold_is c1 x1 -> threshold_is c2 x2 ->
  (forall fr, fle x1 fr = fle x2 fr) ->
  derive c1 d = derive c2 d.
Proof.
  intros H1 H2 Hsame. unfold derive. apply for_each_ext.
  intros s x. now apply (derive_step_threshold c1 c2 s x1 x2).
Qed.

Lemma derive_ok (config d : dict) (x : float) (wv : value) (w : Z) :
  NoDup (keys d) -> threshold_is config x ->
  dict_get d wt_key = Some wv -> py_int wv = Ok w ->
  (forall k v, In (k, v) d -> k <> wt_key ->
               exists c q, py_int v = Ok c /\ int_truediv c (w + c) = Ok q) ->
  exists d', derive config d = Ok d' /\ Forall2 (derived_entry x w) d d'.
Proof.
  intros Hnd Hcfg Hget Hw Hall.
  destruct (derive_loop_ok config x Hcfg w d [] Hnd) as (d' & Hrun & Hrel).
  - exists wv. auto.
  - intros k v Hin. destruct (String.eqb k wt_key) eqn:Hk.
    + apply String.eqb_eq in Hk. subst k.
      rewrite (In_dict_get d wt_key v Hnd Hin) in Hget. congruence.
    + apply (Hall k v Hin). intros ->. now rewrite String.eqb_refl in Hk.
  - exists d'. split; [exact Hrun | exact Hrel].
Qed.

(** C2, amended. For every just-parsed MSH2 record whose wild-type and
    variant fields read as non-negative integer counts with
    wt_count + variant_count different from zero for every variant, and
    under a configuration whose sanger_threshold [float()] accepts, the
    frequency derivation returns the record with the same keys in which
    the wild-type field is the plain integer wt_count and every variant
    field (every key but the wild-type key) is exactly the text
    "{frequency}%{separator}({variant field})" with
    frequency = round(variant_count / (wt_count + variant_count) * 100, 2),
    the separator being the no-break space U+00A0 when
    frequency >= float(sanger_threshold) and a space otherwise; in
    particular wt = 100 and variant = 25 give frequency 20.0 and, at the
    default threshold 28, the text "20.0% (25)", while at the threshold
    20 the same counts give "20.0%" U+00A0 "(25)". *)
Theorem frequency_derivation :
  (forall (config d : dict) (threshold : float) (wv : value) (wt_count : Z),
      NoDup (keys d) -> threshold_is config threshold ->
      dict_get d wt_key = Some wv -> py_int wv = Ok wt_count -> 0 <= wt_count ->
      (forall k v, In (k, v) d -> k <> wt_key ->
                   exists c, py_int v = Ok c /\ 0 <= c /\ wt_count + c <> 0) ->
      exists d',
        derive config d = Ok d'
        /\ keys d' = keys d
        /\ dict_get d' wt_key = Some (VInt wt_count)
        /\ forall k v, In (k, v) d -> k <> wt_key ->
             exists c q,
               py_int v = Ok c
               /\ int_truediv c (wt_count + c) = Ok q
               /\ let freq := py_round (fmul q (float_of_Z 100)) 2 in
                  dict_get d' k
                  = Some (VStr (float_repr freq ++ "%"
                                ++ String (if fle threshold freq then NBSP else SPACE)
                                          "("
                                ++ py_str v ++ ")")))
  /\ frequency example_record (VStr "25") = Ok (float_of_Z 20)
  /\ float_repr (float_of_Z 20) = "20.0"
  /\ derive (config_with (VInt 28)) example_record
     = Ok [(wt_key, VInt 100); ("MSH2_c.942+3A>T", VStr "20.0% (25)")]
  /\ derive (config_with (VInt 20)) example_record
     = Ok [(wt_key, VInt 100);
           ("MSH2_c.942+3A>T", VStr ("20.0%" ++ String NBSP "(25)"))].
Proof.
  split; [| repeat split; vm_compute; reflexivity].
  intros config d x wv w Hnd Hcfg Hget Hw Hw0 Hall.
  destruct (derive_ok config d x wv w Hnd Hcfg Hget Hw) as (d' & Hrun & Hrel).
  { intros k v Hin Hk. destruct (Hall k v Hin Hk) as (c & Hc & Hc0 & Hsum).
    destruct (int_truediv_defined c (w + c)) as [q Hq]; [lia | lia |]. eauto. }
  assert (Hnd' : NoDup (keys d')) by now rewrite (derived_keys x w d d' Hrel).
  exists d'. split; [exact Hrun |]. split; [exact (derived_keys x w d d' Hrel) |].
  split.
  - destruct (derived_lookup x w d d' wt_key wv Hrel (dict_get_In _ _ _ Hget))
      as (v' & Hin' & _ & Hv').
    cbn [fst snd] in Hv'. rewrite String.eqb_refl in Hv'.
    subst v'. now apply In_dict_get.
  - intros k v Hin Hk.
    destruct (derived_lookup x w d d' k v Hrel Hin) as (v' & Hin' & _ & Hv').
    cbn [fst snd] in Hv'.
    destruct (String.eqb k wt_key) eqn:E;
      [apply String.eqb_eq in E; contradiction |].
    destruct Hv' as (c & q & Hc & Hq & ->).
    exists c, q. split; [exact Hc |]. split; [exact Hq |]. cbv zeta.
    rewrite (In_dict_get d' k _ Hnd' Hin').
    unfold variant_text, separator.
    destruct (fle x (py_round (fmul q (float_of_Z 100)) 2)); reflexivity.
Qed.

Lemma frequency_derivation_witness :
  exists d',
    derive (config_with (VInt 28)) example_record = Ok d'
    /\ keys d' = keys example_record
    /\ dict_get d' wt_key = Some (VInt 100)
    /\ forall k v, In (k, v) example_record -> k <> wt_key ->
         exists c q,
           py_int v = Ok c
           /\ int_truediv c (100 + c) = Ok q
           /\ let freq := py_round (fmul q (float_of_Z 100)) 2 in
              dict_get d' k
              = Some (VStr (float_repr freq ++ "%"
                            ++ String (if fle (float_of_Z 28) freq
                                       then NBSP else SPACE) "("
                            ++ py_str v ++ ")")).
Proof.
  apply (proj1 frequency_derivation (config_with (VInt 28)) example_record
           (float_of_Z 28) (VStr "100") 100).
  - unfold example_record. simpl. repeat constructor; simpl; intuition discriminate.
  - exists (VInt 28). split; reflexivity.
  - reflexivity.
  - reflexivity.
  - lia.
  - intros k v [H | [H | []]] Hk; inversion H; subst.
    + now elim Hk.
    + exists 25. repeat split; [lia | lia].
Defined.

(** The claim as first stated fails in these ways, one for each
    condition of the amended statement.  At or above the threshold the
    text holds a no-break space, not a space: 100 and 50 at the threshold
    28 give "33.33%" U+00A0 "(50)".  Where both counts are zero the
    division raises.  Without a threshold in the configuration the lookup
    raises, and with a threshold that is not a number its conversion
    raises.  With a negative wild-type count the quotient can be too
    large for a float: 1 - 10^400 and 10^400 give the quotient 10^400. *)
Lemma frequency_derivation_fails_as_stated :
  (let d := [(wt_key, VStr "100"); ("MSH2_c.942+3A>T", VStr "50")] in
   (forall k v, In (k, v) d -> exists n, py_int v = Ok n)
   /\ derive (config_with (VInt 28)) d
      = Ok [(wt_key, VInt 100);
            ("MSH2_c.942+3A>T", VStr ("33.33%" ++ String NBSP "(50)"))]
   /\ derive (config_with (VInt 28)) d
      <> Ok [(wt_key, VInt 100); ("MSH2_c.942+3A>T", VStr "33.33% (50)")])
  /\ (let d := [(wt_key, VStr "0"); ("MSH2_c.942+3A>T", VStr "0")] in
      (forall k v, In (k, v) d -> py_int v = Ok 0)
      /\ derive (config_with (VInt 28)) d = Raise ZeroDivisionError)
  /\ derive [] example_record = Raise KeyError
  /\ derive (config_with (VStr "high")) example_record = Raise ValueError
  /\ (let d := [(wt_key, VStr ("-" ++ String.concat "" (repeat "9" 400)));
                ("MSH2_c.942+3A>T", VStr ("1" ++ zeros 400))] in
      (forall k v, In (k, v) d -> exists n, py_int v = Ok n)
      /\ derive (config_with (VInt 28)) d = Raise OverflowError).
Proof.
  split; [| split; [| split; [| split]]].
  - intros d. split; [| split].
    + intros k v [H | [H | []]]; inversion H; eexists; reflexivity.
    + vm_compute. reflexivity.
    + intros H. vm_compute in H. discriminate.
  - intros d. split.
    + intros k v [H | [H | []]]; inversion H; reflexivity.
    + reflexivity.
  - reflexivity.
  - vm_compute. reflexivity.
  - intros d. split.
    + intros k v [H | [H | []]]; inversion H; eexists; vm_compute; reflexivity.
    + vm_compute. reflexivity.
Qed.

(** C4. For every MSH2 record of integer counts in which the wild-type
    count is 0 and some variant count is 0, the frequency derivation
    raises a division-by-zero error, and the parser propagates it. *)
Theorem zero_counts_raise (config d : dict) (wv : value) :
  NoDup (keys d) -> threshold_usable config ->
  (forall k v, In (k, v) d -> exists n, py_int v = Ok n) ->
  dict_get d wt_key = Some wv -> py_int wv = Ok 0 ->
  (exists k v, In (k, v) d /\ k <> wt_key /\ py_int v = Ok 0) ->
  derive config d = Raise ZeroDivisionError
  /\ forall f, extracted f = Some d ->
               parse_file f config = Raise ZeroDivisionError.
Proof.
  intros Hnd (t & x & Ht & Hx) Hall Hget Hw (k0 & v0 & Hin0 & Hk0 & Hv0).
  assert (Hcfg : threshold_is config x) by (exists t; auto).
  assert (Hd : derive config d = Raise ZeroDivisionError).
  { apply (derive_loop_zero config x Hcfg d [] Hnd).
    - exists wv. auto.
    - intros k v Hin. destruct (Hall k v Hin) as [n Hn]. exists n.
      split; [exact Hn |]. intros Hk. apply String.eqb_eq in Hk. subst k.
      rewrite (In_dict_get d wt_key v Hnd Hin) in Hget. congruence.
    - exists k0, v0. split; [exact Hin0 |]. split; [| exact Hv0].
      now apply String.eqb_neq. }
  split; [exact Hd |].
  intros f Hf. now rewrite (parse_file_extracted f config d Hf).
Qed.

Lemma zero_counts_raise_witness :
  let d := [(wt_key, VStr "0"); ("MSH2_c.942+3A>T", VStr "5");
            ("MSH2_c.942+2T>A", VStr "0")] in
  derive (config_with (VInt 28)) d = Raise ZeroDivisionError.
Proof.
  intros d.
  apply (zero_counts_raise (config_with (VInt 28)) d (VStr "0")).
  - unfold d. simpl. repeat constructor; simpl; intuition discriminate.
  - exists (VInt 28), (float_of_Z 28). split; reflexivity.
  - intros k v [H | [H | [H | []]]]; inversion H; subst; eexists; reflexivity.
  - reflexivity.
  - reflexivity.
  - exists "MSH2_c.942+2T>A", (VStr "0").
    split; [simpl; auto | split; [discriminate | reflexivity]].
Defined.

(** C5, amended. Whenever the record extracted from lines 3 and 4 is not
    empty and lacks the wild-type key, or holds a value that does not
    read as an integer, the parser ends with an error raised by the
    frequency loop; nothing in the parser catches it. *)
Theorem malformed_record_raises (f : string) (config d : dict) :
  extracted f = Some d ->
  (d <> [] /\ dict_get d wt_key = None)
  \/ (exists k v, In (k, v) d /\ raises (py_int v)) ->
  raises (parse_file f config).
Proof.
  intros Hf Hbad. rewrite (parse_file_extracted f config d Hf).
  pose proof (extracted_NoDup f d Hf) as Hnd.
  destruct (derive config d) as [r | e] eqn:Hrun; [| exists e; reflexivity].
  exfalso. unfold derive in Hrun.
  pose proof (derive_loop_inv config d [] r Hnd Hrun) as Hinv.
  destruct Hbad as [[Hne Hnone] | (k & v & Hin & [e He])].
  - destruct d as [| [k v] d]; [now elim Hne |].
    destruct (Hinv k v (or_introl eq_refl)) as [_ Hwt].
    apply dict_get_None in Hnone. contradiction.
  - destruct (Hinv k v Hin) as [[n Hn] _]. congruence.
Qed.

Lemma malformed_record_raises_witness :
  let f := file_of ["# hotspot counts"; "# run 1";
                    "sample MSH2_c.942+3A>T MSH2_c.942+2T>A";
                    "S1 25 7"] in
  raises (parse_file f (config_with (VInt 28))).
Proof.
  intros f.
  apply (malformed_record_raises f (config_with (VInt 28))
           [("MSH2_c.942+3A>T", VStr "25"); ("MSH2_c.942+2T>A", VStr "7")]).
  - reflexivity.
  - left. split; [discriminate | reflexivity].
Defined.

(** The claim as first stated fails on an empty extracted record: the
    wild-type key is absent from it and the parser returns normally. *)
Lemma absent_wt_key_without_error :
  let f := file_of ["# hotspot counts"; "# run 1"; "sample"; "S1"] in
  (3 <= List.length (splitlines f))%nat
  /\ extracted f = Some []
  /\ dict_get [] wt_key = None
  /\ parse_file f (config_with (VInt 28)) = Ok []
  /\ ~ raises (parse_file f (config_with (VInt 28))).
Proof.
  intros f. repeat split; try reflexivity.
  - vm_compute. lia.
  - intros [e H]. vm_compute in H. discriminate.
Qed.

(** *** Two thresholds side by side *)

Lemma frequency_reads_wt (cur1 cur2 : dict) (v : value) :
  dict_get cur1 wt_key = dict_get cur2 wt_key ->
  frequency cur1 v = frequency cur2 v.
Proof. intros H. unfold frequency, dict_getitem. now rewrite H. Qed.

Lemma entry_pair_refl (x1 x2 : float) (d : dict) :
  Forall2 (entry_pair x1 x2) d d.
Proof.
  induction d as [| e d IH]; constructor; [| exact IH].
  split; [reflexivity | now left].
Qed.

Lemma dict_set_pair (x1 x2 : float) (cur1 cur2 : dict) (k : string)
      (v1 v2 : value) :
  Forall2 (entry_pair x1 x2) cur1 cur2 ->
  entry_pair x1 x2 (k, v1) (k, v2) ->
  Forall2 (entry_pair x1 x2) (dict_set cur1 k v1) (dict_set cur2 k v2).
Proof.
  intros Hrel Hnew.
  induction Hrel as [| [k1 a1] [k2 a2] d1 d2 [Hk Hv] Hrest IH]; simpl.
  - constructor; [exact Hnew | constructor].
  - simpl in Hk. subst k2. destruct (String.eqb k1 k).
    + constructor; [| exact Hrest].
      split; [reflexivity | exact (proj2 Hnew)].
    + constructor; [split; [reflexivity | exact Hv] | exact IH].
Qed.

(** An iteration under two thresholds, on two records that agree on the
    wild-type entry: the same error, or two records that still agree on
    it and differ by separators only. *)
Lemma derive_step_pair (c1 c2 : dict) (x1 x2 : float) (cur1 cur2 : dict)
      (item : string * value) :
  threshold_is c1 x1 -> threshold_is c2 x2 ->
  Forall2 (entry_pair x1 x2) cur1 cur2 ->
  dict_get cur1 wt_key = dict_get cur2 wt_key ->
  match derive_step c1 cur1 item, derive_step c2 cur2 item with
  | Ok s1, Ok s2 =>
      Forall2 (entry_pair x1 x2) s1 s2
      /\ dict_get s1 wt_key = dict_get s2 wt_key
  | Raise e1, Raise e2 => e1 = e2
  | _, _ => False
  end.
Proof.
  intros H1 H2 Hrel Hwt. destruct item as [k v].
  destruct (String.eqb k wt_key) eqn:Hk.
  - apply String.eqb_eq in Hk. subst k.
    unfold derive_step. rewrite String.eqb_refl. cbn [negb].
    unfold dict_getitem. rewrite <- Hwt.
    destruct (dict_get cur1 wt_key) as [a |]; cbn [bind]; [| reflexivity].
    destruct (py_int a) as [n |]; cbn [bind]; [| reflexivity].
    split.
    + apply dict_set_pair; [exact Hrel |]. split; [reflexivity | now left].
    + now rewrite !dict_get_set_same.
  - pose proof (frequency_reads_wt cur1 cur2 v Hwt) as Hsame.
    destruct (frequency cur1 v) as [fr | e] eqn:Hfr.
    + rewrite (derive_step_frequency c1 cur1 k v x1 fr H1 Hk Hfr).
      rewrite (derive_step_frequency c2 cur2 k v x2 fr H2 Hk (eq_sym Hsame)).
      assert (Hne : k <> wt_key) by (intros ->; now rewrite String.eqb_refl in Hk).
      split.
      * apply dict_set_pair; [exact Hrel |]. split; [reflexivity |].
        right. exists fr, v. split; reflexivity.
      * now rewrite !dict_get_set_other.
    + unfold derive_step. rewrite Hk. cbn [negb].
      rewrite <- Hsame, Hfr. reflexivity.
Qed.

Lemma derive_loop_pair (c1 c2 : dict) (x1 x2 : float) :
  threshold_is c1 x1 -> threshold_is c2 x2 ->
  forall (todo cur1 cur2 : dict),
    Forall2 (entry_pair x1 x2) cur1 cur2 ->
    dict_get cur1 wt_key = dict_get cur2 wt_key ->
    match for_each (derive_step c1) todo cur1,
          for_each (derive_step c2) todo cur2 with
    | Ok r1, Ok r2 => Forall2 (entry_pair x1 x2) r1 r2
    | Raise e1, Raise e2 => e1 = e2
    | _, _ => False
    end.
Proof.
  intros H1 H2. induction todo as [| item todo IH]; intros cur1 cur2 Hrel Hwt;
    cbn [for_each].
  - exact Hrel.
  - pose proof (derive_step_pair c1 c2 x1 x2 cur1 cur2 item H1 H2 Hrel Hwt) as Hs.
    destruct (derive_step c1 cur1 item) as [s1 | e1],
             (derive_step c2 cur2 item) as [s2 | e2];
      cbn [bind]; try contradiction.
    + destruct Hs as [Hrel' Hwt']. now apply IH.
    + exact Hs.
Qed.

(** C6, amended. The threshold is not without effect: the two arms of
    the comparison store different texts.  For every input and any two
    threshold values that [float()] accepts, the parser raises the same
    error under both, or returns two records with the same keys in the
    same order whose values are equal or are the texts
    "{frequency}%{separator}({count})" of one frequency and one count,
    each with the separator its threshold chooses (the no-break space
    U+00A0 when frequency >= threshold, a space otherwise).  Two
    thresholds that compare alike with every frequency give the same
    outcome. *)
Theorem threshold_selects_separator (f : string) (t1 t2 : value)
        (x1 x2 : float) :
  py_float t1 = Ok x1 -> py_float t2 = Ok x2 ->
  match parse_file f (config_with t1), parse_file f (config_with t2) with
  | Ok r1, Ok r2 => Forall2 (entry_pair x1 x2) r1 r2
  | Raise e1, Raise e2 => e1 = e2
  | _, _ => False
  end
  /\ ((forall freq, fle x1 freq = fle x2 freq) ->
      parse_file f (config_with t1) = parse_file f (config_with t2)).
Proof.
  intros Hx1 Hx2.
  assert (H1 : threshold_is (config_with t1) x1) by (exists t1; auto).
  assert (H2 : threshold_is (config_with t2) x2) by (exists t2; auto).
  unfold parse_file.
  destruct (List.length (splitlines f) <? 3)%nat;
    [split; [constructor | reflexivity] |].
  destruct (list_getitem (splitlines f) 2) as [l2 |]; cbn [bind];
    [| split; reflexivity].
  destruct (list_getitem (splitlines f) 3) as [l3 |]; cbn [bind];
    [| split; reflexivity].
  split.
  - unfold derive. apply (derive_loop_pair _ _ x1 x2 H1 H2);
      [apply entry_pair_refl | reflexivity].
  - intros Hsame. now apply (derive_threshold _ _ _ x1 x2).
Qed.

Lemma threshold_selects_separator_witness :
  let f := file_of ["# hotspot counts"; "# run 1";
                    "sample MSH2_c.942+3_wt MSH2_c.942+3A>T";
                    "S1 100 25"] in
  match parse_file f (config_with (VInt 28)),
        parse_file f (config_with (VInt 10)) with
  | Ok r1, Ok r2 => Forall2 (entry_pair (float_of_Z 28) (float_of_Z 10)) r1 r2
  | Raise e1, Raise e2 => e1 = e2
  | _, _ => False
  end.
Proof.
  intros f.
  apply (threshold_selects_separator f (VInt 28) (VInt 10)
           (float_of_Z 28) (float_of_Z 10)); reflexivity.
Defined.

(** The claim as first stated fails on the counts 100 and 25, whose
    frequency 20.0 lies between the thresholds 10 and 28: under 28 the
    text holds a space, under 10 the no-break space, and the two records
    differ.  A threshold too large for a float changes the outcome
    altogether: with 2^1024 the conversion of the threshold raises. *)
Lemma threshold_changes_record :
  let f := file_of ["# hotspot counts"; "# run 1";
                    "sample MSH2_c.942+3_wt MSH2_c.942+3A>T";
                    "S1 100 25"] in
  parse_file f (config_with (VInt 28))
  = Ok [(wt_key, VInt 100); ("MSH2_c.942+3A>T", VStr "20.0% (25)")]
  /\ parse_file f (config_with (VInt 10))
     = Ok [(wt_key, VInt 100);
           ("MSH2_c.942+3A>T", VStr ("20.0%" ++ String NBSP "(25)"))]
  /\ parse_file f (config_with (VInt 28)) <> parse_file f (config_with (VInt 10))
  /\ parse_file f (config_with (VInt (2 ^ 1024))) = Raise OverflowError.
Proof.
  intros f.
  assert (H1 : parse_file f (config_with (VInt 28))
               = Ok [(wt_key, VInt 100); ("MSH2_c.942+3A>T", VStr "20.0% (25)")])
    by (vm_compute; reflexivity).
  assert (H2 : parse_file f (config_with (VInt 10))
               = Ok [(wt_key, VInt 100);
                     ("MSH2_c.942+3A>T", VStr ("20.0%" ++ String NBSP "(25)"))])
    by (vm_compute; reflexivity).
  split; [exact H1 |]. split; [exact H2 |]. split.
  - rewrite H1, H2. intros H. vm_compute in H. discriminate.
  - vm_compute. reflexivity.
Qed.

(** C3: the guard on the number of lines against the lines read.  With
    fewer than three lines the parser returns the empty record; with four
    or more it runs the derivation on the record extracted from lines 3
    and 4; with exactly three lines, which the guard lets through, reading
    line 4 raises an index error. *)
Theorem three_line_input_raises (config : dict) :
  let f := file_of ["# hotspot counts"; "# run 1";
                    "sample MSH2_c.942+3_wt MSH2_c.942+3A>T"] in
  List.length (splitlines f) = 3%nat
  /\ parse_file f config = Raise IndexError.
Proof.
  intros f. split; reflexivity.
Qed.

End MSH2.

(* ================================================================= *)
(** * Sample names, merging and the module runs *)

Section SampleNames.
Import Py sample_gender.

Lemma length_app_string (a b : string) :
  String.length (a ++ b) = (String.length a + String.length b)%nat.
Proof. induction a as [| c a IH]; simpl; congruence. Qed.

Lemma substring_prefix (a b : string) :
  substring 0 (String.length a) (a ++ b) = a.
Proof.
  induction a as [| c a IH]; simpl.
  - destruct b; reflexivity.
  - now rewrite IH.
Qed.

Lemma substring_whole (b : string) : substring 0 (String.length b) b = b.
Proof. induction b as [| c b IH]; simpl; congruence. Qed.

Lemma substring_suffix (a b : string) (m : nat) :
  substring (String.length a) m (a ++ b) = substring 0 m b.
Proof. induction a as [| c a IH]; simpl; auto. Qed.

Lemma substring_split (s : string) (k : nat) :
  (k <= String.length s)%nat ->
  s = substring 0 k s ++ substring k (String.length s - k) s.
Proof.
  revert k. induction s as [| c s IH]; intros k Hk; simpl in *.
  - destruct k; reflexivity.
  - destruct k as [| k]; simpl.
    + now rewrite substring_whole.
    + f_equal. apply IH. lia.
Qed.

Lemma endswith_app (base suffix : string) : endswith (base ++ suffix) suffix = true.
Proof.
  unfold endswith. rewrite length_app_string.
  replace (String.length base + String.length suffix - String.length suffix)%nat
    with (String.length base) by lia.
  rewrite substring_suffix, substring_whole, String.eqb_refl.
  rewrite andb_true_r. apply Nat.leb_le. lia.
Qed.

Lemma endswith_inv (s suffix : string) :
  endswith s suffix = true ->
  s = substring 0 (String.length s - String.length suffix) s ++ suffix.
Proof.
  unfold endswith. intros H. apply andb_true_iff in H. destruct H as [Hle Heq].
  apply Nat.leb_le in Hle. apply String.eqb_eq in Heq.
  rewrite (substring_split s (String.length s - String.length suffix)) at 1 by lia.
  replace (String.length s - (String.length s - String.length suffix))%nat
    with (String.length suffix) by lia.
  now rewrite Heq.
Qed.

(** X1. The extension of a method is taken off the end of a sample name
    exactly once, and only when the name ends with it: a name
    [base ++ extension] becomes [base], whatever [base] is, and a name is
    changed only by losing that suffix. *)
Theorem clean_s_name_removes_suffix (s_name extension : string) :
  extension <> "" ->
  (forall base, clean_s_name (base ++ extension) extension = base)
  /\ (clean_s_name s_name extension = s_name
      \/ s_name = clean_s_name s_name extension ++ extension).
Proof.
  intros Hne.
  assert (Hpos : (0 < String.length extension)%nat).
  { destruct extension; [contradiction | simpl; lia]. }
  split.
  - intros base. unfold clean_s_name. rewrite endswith_app.
    unfold str_slice_to, len. rewrite length_app_string.
    destruct (- Z.of_nat (String.length extension) <? 0) eqn:E;
      [| apply Z.ltb_ge in E; lia].
    replace (Z.to_nat (Z.max (Z.of_nat (String.length base + String.length extension)
                              + - Z.of_nat (String.length extension)) 0))
      with (String.length base) by lia.
    apply substring_prefix.
  - unfold clean_s_name. destruct (endswith s_name extension) eqn:E; [| now left].
    right. unfold str_slice_to, len.
    destruct (- Z.of_nat (String.length extension) <? 0) eqn:E';
      [| apply Z.ltb_ge in E'; lia].
    pose proof (endswith_inv s_name extension E) as Hs.
    assert (Hle : (String.length extension <= String.length s_name)%nat).
    { unfold endswith in E. apply andb_true_iff in E. destruct E as [E _].
      now apply Nat.leb_le in E. }
    replace (Z.to_nat (Z.max (Z.of_nat (String.length s_name)
                              + - Z.of_nat (String.length extension)) 0))
      with (String.length s_name - String.length extension)%nat by lia.
    exact Hs.
Qed.

Lemma clean_s_name_removes_suffix_witness :
  (forall base, clean_s_name (base ++ "_hetx") "_hetx" = base)
  /\ (clean_s_name "S1_hetx_hetx" "_hetx" = "S1_hetx_hetx"
      \/ "S1_hetx_hetx" = clean_s_name "S1_hetx_hetx" "_hetx" ++ "_hetx").
Proof.
  apply (clean_s_name_removes_suffix "S1_hetx_hetx" "_hetx"). discriminate.
Defined.

End SampleNames.

(* ================================================================= *)
(** * More on the sex-prediction parser *)

Section SexParserShape.
Import Py sample_gender Spec.

Lemma slice_length {A : Type} (lo hi : nat) (xs : list A) :
  (List.length (slice lo hi xs) <= hi - lo)%nat.
Proof. unfold slice. apply firstn_le_length. Qed.

Lemma dict_set_length (d : dict) (k : string) (v : value) :
  (List.length (dict_set d k v) <= S (List.length d))%nat.
Proof.
  induction d as [| [k0 v0] d IH]; simpl; [lia |].
  destruct (String.eqb k0 k); simpl; lia.
Qed.

Lemma coerced_fold_length (kvs : list (string * string)) (d : dict) :
  (List.length (fold_left (fun d kv => dict_set d (fst kv) (coerce (snd kv))) kvs d)
   <= List.length d + List.length kvs)%nat.
Proof.
  revert d. induction kvs as [| kv kvs IH]; intros d; simpl; [lia |].
  pose proof (IH (dict_set d (fst kv) (coerce (snd kv)))) as H.
  pose proof (dict_set_length d (fst kv) (coerce (snd kv))). lia.
Qed.

Lemma coerced_fold_NoDup (kvs : list (string * string)) (d : dict) :
  NoDup (keys d) ->
  NoDup (keys (fold_left (fun d kv => dict_set d (fst kv) (coerce (snd kv))) kvs d)).
Proof.
  revert d. induction kvs as [| kv kvs IH]; intros d Hnd; simpl; [exact Hnd |].
  apply IH. now apply dict_set_NoDup.
Qed.

Lemma coerce_shape (v : string) : text_or_number (coerce v).
Proof.
  unfold coerce, text_or_number.
  destruct (float_of_str v) as [x | e]; [| left; eauto].
  destruct (is_nan x) eqn:E; [left | right]; eauto.
Qed.

Lemma coerced_fold_shape (kvs : list (string * string)) (d : dict) :
  (forall k x, In (k, x) d -> text_or_number x) ->
  forall k x,
    In (k, x) (fold_left (fun d kv => dict_set d (fst kv) (coerce (snd kv))) kvs d) ->
    text_or_number x.
Proof.
  revert d. induction kvs as [| kv kvs IH]; intros d Hd; simpl; [exact Hd |].
  apply IH.
  apply (dict_set_values d (fst kv) (coerce (snd kv)) text_or_number);
    [apply coerce_shape | exact Hd].
Qed.

(** What a successful parse returns: nothing, or the coerced record of
    at most five renamed headers against at most five values of which
    the first is canonical. *)
Lemma parse_file_ok_form (f : string) (d : dict) :
  parse_file f = Ok d ->
  d = []
  \/ exists line0 line1 rest first others headers,
      splitlines f = line0 :: line1 :: rest
      /\ columns_2_to_6 (tab_fields line1) = first :: others
      /\ rename_headers (columns_2_to_6 (tab_fields line0)) = Ok headers
      /\ List.length headers = List.length (columns_2_to_6 (tab_fields line0))
      /\ d = coerced_record headers (canonical first :: others).
Proof.
  intros H.
  destruct (splitlines f) as [| line0 [| line1 rest]] eqn:Hl.
  - unfold parse_file in H. rewrite Hl in H. simpl in H. inversion H. now left.
  - unfold parse_file in H. rewrite Hl in H. simpl in H. inversion H. now left.
  - rewrite (parse_file_two_lines f line0 line1 rest Hl) in H.
    destruct (columns_2_to_6 (tab_fields line1)) as [| first others] eqn:Hv;
      [discriminate |].
    rewrite canonical_sex_cons in H. cbn [bind] in H.
    destruct (rename_headers_total (columns_2_to_6 (tab_fields line0)))
      as (headers & Hh & Hlen).
    rewrite Hh in H. cbn [bind] in H. rewrite store_all in H. inversion H.
    right. exists line0, line1, rest, first, others, headers. auto 10.
Qed.

(** X2. A record returned by the sex-prediction parser has at most five
    fields, pairwise distinct keys, and values that are text or floats
    other than NaN; it never holds an integer or a NaN. *)
Theorem parsed_record_shape (f : string) (d : dict) :
  parse_file f = Ok d ->
  (List.length d <= 5)%nat
  /\ NoDup (keys d)
  /\ forall k v, In (k, v) d -> text_or_number v.
Proof.
  intros H. destruct (parse_file_ok_form f d H)
    as [-> | (l0 & l1 & rest & first & others & hs & _ & _ & _ & Hlen & ->)].
  - simpl. split; [lia |]. split; [constructor | intros k v []].
  - unfold coerced_record. split; [| split].
    + pose proof (coerced_fold_length (combine hs (canonical first :: others)) []) as Hl.
      pose proof (slice_length 1 6 (tab_fields l0)) as Hs.
      unfold columns_2_to_6 in Hlen.
      rewrite length_combine in Hl. simpl in *. lia.
    + apply coerced_fold_NoDup. constructor.
    + apply coerced_fold_shape. intros k x [].
Qed.

Lemma parsed_record_shape_witness :
  let f := tsv ["s_name"; "reads_chry"; "ratio_chry_chrx"; "a"; "b"; "c"; "d"; "e"]
           ++ String LF (tsv ["S1"; "Male"; "0.5"; "nan"; "x"; "1"; "2"; "3"]) in
  exists d,
    parse_file f = Ok d
    /\ (List.length d <= 5)%nat
    /\ NoDup (keys d)
    /\ forall k v, In (k, v) d -> text_or_number v.
Proof.
  intros f. eexists. split; [vm_compute; reflexivity |].
  apply (parsed_record_shape f). vm_compute. reflexivity.
Defined.

Lemma columns_empty_iff {A : Type} (fields : list A) :
  slice 1 6 fields = [] <-> (List.length fields < 2)%nat.
Proof.
  split; [| apply columns_empty].
  destruct fields as [| a [| b fields]]; simpl; intros H; try lia.
  unfold slice in H. simpl in H. discriminate.
Qed.

(** X3. The parser returns the empty record, which its caller skips, in
    two cases only: the file has fewer than two lines, or its header
    line has fewer than two tab-separated fields while its data row has
    two or more. *)
Theorem parsed_record_empty_iff (f : string) :
  parse_file f = Ok []
  <-> (List.length (splitlines f) < 2)%nat
      \/ exists line0 line1 rest,
          splitlines f = line0 :: line1 :: rest
          /\ (List.length (tab_fields line0) < 2)%nat
          /\ (2 <= List.length (tab_fields line1))%nat.
Proof.
  split.
  - intros H.
    destruct (splitlines f) as [| line0 [| line1 rest]] eqn:Hl;
      [left; simpl; lia | left; simpl; lia | right].
    exists line0, line1, rest. split; [reflexivity |].
    rewrite (parse_file_two_lines f line0 line1 rest Hl) in H.
    destruct (columns_2_to_6 (tab_fields line1)) as [| first others] eqn:Hv;
      [discriminate |].
    assert (Hrow : (2 <= List.length (tab_fields line1))%nat).
    { destruct (Nat.lt_ge_cases (List.length (tab_fields line1)) 2) as [Hs | Hg];
        [| exact Hg].
      unfold columns_2_to_6 in Hv. rewrite (columns_empty _ Hs) in Hv. discriminate. }
    split; [| exact Hrow].
    rewrite canonical_sex_cons in H. cbn [bind] in H.
    destruct (columns_2_to_6 (tab_fields line0)) as [| h t] eqn:Hh.
    + now apply columns_empty_iff.
    + destruct (rename_headers_cons h t) as (k & Hk & _).
      rewrite Hk in H. cbn [bind] in H. rewrite store_all in H.
      pose proof (coerced_record_first_key k (canonical first) t others) as Hkey.
      inversion H as [Hd]. rewrite Hd in Hkey. discriminate.
  - intros [Hshort | (line0 & line1 & rest & Hl & H0 & H1)].
    + unfold parse_file. apply Nat.ltb_lt in Hshort. now rewrite Hshort.
    + rewrite (parse_file_two_lines f line0 line1 rest Hl).
      destruct (columns_nonempty (tab_fields line1) H1) as (first & others & Hv).
      unfold columns_2_to_6. rewrite Hv, canonical_sex_cons. cbn [bind].
      rewrite (columns_empty _ H0). reflexivity.
Qed.

Lemma param_map_functional (c k k' : string) :
  In (c, k) param_map -> In (c, k') param_map -> k = k'.
Proof.
  unfold param_map. simpl.
  intros [H | [H | [H | []]]] [H' | [H' | [H' | []]]];
    inversion H; inversion H'; subst; try reflexivity; discriminate.
Qed.

Lemma coerced_record_head_lookup (k v : string) (ks vs : list string) :
  ~ In k ks ->
  dict_get (coerced_record (k :: ks) (v :: vs)) k = Some (coerce v).
Proof.
  intros Hout. unfold coerced_record. simpl.
  rewrite coerced_fold_untouched.
  - simpl. now rewrite String.eqb_refl.
  - intros Hin. apply Hout. apply in_map_iff in Hin.
    destruct Hin as ([k' v'] & <- & Hin). simpl. eapply in_combine_l; eauto.
Qed.

(** X4. When exactly one source column (reads_chry, het_fraction or
    coverage_sry) occurs in the extracted headers and its internal key is
    not itself one of the other headers, the value of the first
    extracted column is stored under that internal key, after
    canonicalization and coercion: a call spelled "male" in any case is
    stored as the text "M" and "female" as "F". *)
Theorem gender_call_stored
        (f line0 line1 : string) (rest : list string)
        (h : string) (t : list string) (first : string) (others : list string)
        (c k : string) :
  splitlines f = line0 :: line1 :: rest ->
  columns_2_to_6 (tab_fields line0) = h :: t ->
  columns_2_to_6 (tab_fields line1) = first :: others ->
  In (c, k) param_map -> In c (h :: t) ->
  (forall c', In c' source_columns -> In c' (h :: t) -> c' = c) ->
  ~ In k t ->
  exists d,
    parse_file f = Ok d
    /\ hd_error (keys d) = Some k
    /\ dict_get d k = Some (coerce (canonical first))
    /\ (lower first = "male" -> dict_get d k = Some (VStr "M"))
    /\ (lower first = "female" -> dict_get d k = Some (VStr "F")).
Proof.
  intros Hl Hh Hv Hmap Hin Honly Hout.
  destruct (rename_headers_cons h t) as (k' & Hk & [[_ Hnone] | (c' & Hm & Hc')]).
  { elim (Hnone c); [| exact Hin].
    unfold source_columns. change c with (fst (c, k)). now apply in_map. }
  assert (c' = c) as ->.
  { apply Honly; [| exact Hc'].
    unfold source_columns. change c' with (fst (c', k')). now apply in_map. }
  assert (k' = k) as -> by (eapply param_map_functional; eauto).
  exists (coerced_record (k :: t) (canonical first :: others)).
  assert (Hget : dict_get (coerced_record (k :: t) (canonical first :: others)) k
                 = Some (coerce (canonical first)))
    by now apply coerced_record_head_lookup.
  split; [| split; [apply coerced_record_first_key | split; [exact Hget |]]].
  - rewrite (parse_file_two_lines f line0 line1 rest Hl), Hh, Hv.
    rewrite canonical_sex_cons. cbn [bind]. rewrite Hk. cbn [bind].
    apply store_all.
  - split; intros Hcase; rewrite Hget; unfold canonical; rewrite Hcase;
      reflexivity.
Qed.

Lemma gender_call_stored_witness :
  let f := tsv ["#file"; "gender"; "reads_chry"; "reads_chrx"; "ratio_chry_chrx"]
           ++ String LF (tsv ["S1.bam"; "MALE"; "1200"; "9000"; "0.1333"]) in
  exists d,
    parse_file f = Ok d
    /\ hd_error (keys d) = Some "gender_xy"
    /\ dict_get d "gender_xy" = Some (coerce (canonical "MALE"))
    /\ (lower "MALE" = "male" -> dict_get d "gender_xy" = Some (VStr "M"))
    /\ (lower "MALE" = "female" -> dict_get d "gender_xy" = Some (VStr "F")).
Proof.
  intros f.
  apply (gender_call_stored f
           (tsv ["#file"; "gender"; "reads_chry"; "reads_chrx"; "ratio_chry_chrx"])
           (tsv ["S1.bam"; "MALE"; "1200"; "9000"; "0.1333"]) []
           "gender" ["reads_chry"; "reads_chrx"; "ratio_chry_chrx"]
           "MALE" ["1200"; "9000"; "0.1333"] "reads_chry" "gender_xy").
  - reflexivity.
  - reflexivity.
  - reflexivity.
  - simpl. auto.
  - simpl. auto.
  - unfold source_columns. simpl.
    intros c' [<- | [<- | [<- | []]]] [H | [H | [H | [H | []]]]];
      try reflexivity; discriminate.
  - simpl. intros [H | [H | [H | []]]]; discriminate.
Defined.

End SexParserShape.

(* ================================================================= *)
(** * The consensus pass over the registry *)

Section ConsensusPass.
Import Py sample_gender Spec.

(** What the derivation does to one record: both derived fields are
    set, within their ranges, every other field keeps its value, and the
    fields that were there keep their places. *)
Lemma consensus_record_effect (data data' : dict) :
  consensus_record data = Ok data' ->
  (exists p g,
      dict_get data' "certainty" = Some (VFloat p) /\ In p certainty_levels
      /\ dict_get data' "calc_gender" = Some (VStr g) /\ In g consensus_calls)
  /\ (forall k, k <> "certainty" -> k <> "calc_gender" ->
                dict_get data' k = dict_get data k)
  /\ exists added, keys data' = (keys data ++ added)%list
                   /\ incl added ["certainty"; "calc_gender"].
Proof.
  intros H.
  pose proof (vote_table (classify data "gender_xy")
                (classify data "gender_hetx") (classify data "gender_sry")) as V.
  cbv zeta in V. destruct V as [Ht (p & g & Hv & Hp & Hg & _)].
  rewrite <- gender_counts_tally in Ht.
  destruct (consensus_record_fields data p g) as (d2 & Hd & Hc & Hcg & Hframe);
    [now rewrite Ht |].
  assert (d2 = data') by congruence. subst d2.
  split; [exists p, g; auto |]. split; [exact Hframe |].
  unfold consensus_record in H. rewrite Ht, Hv in H. simpl in H.
  inversion H as [Hd']. clear H.
  set (d1 := dict_set data "certainty" (VFloat p)).
  assert (H1 : exists a1, keys d1 = (keys data ++ a1)%list /\ incl a1 ["certainty"]).
  { unfold d1. destruct (in_dec string_dec "certainty" (keys data)) as [Hi | Ho].
    - exists []. rewrite keys_dict_set_present by assumption.
      rewrite app_nil_r. split; [reflexivity | intros x []].
    - exists ["certainty"]. rewrite keys_dict_set_absent by assumption.
      split; [reflexivity | apply incl_refl]. }
  destruct H1 as (a1 & Hk1 & Hi1).
  destruct (in_dec string_dec "calc_gender" (keys d1)) as [Hi | Ho].
  - exists a1. rewrite keys_dict_set_present by assumption.
    split; [exact Hk1 |]. intros x Hx. specialize (Hi1 x Hx). simpl in *. tauto.
  - exists (a1 ++ ["calc_gender"])%list. rewrite keys_dict_set_absent by assumption.
    rewrite Hk1, <- app_assoc. split; [reflexivity |].
    intros x Hx. apply in_app_or in Hx. destruct Hx as [Hx | Hx].
    + specialize (Hi1 x Hx). simpl in *. tauto.
    + simpl in *. tauto.
Qed.

(** X5. The consensus pass never raises; it keeps the samples and their
    order, gives every record a certainty among 0.0, 1/3, 2/3, 1.0 and a
    call among "M", "F", "Unknown", leaves every other field with its
    value, and keeps the fields that were there in their places, adding
    the derived ones at the end. *)
Theorem consensus_pass_is_total_and_framed (samplegender_data : registry) :
  exists derived,
    _calculate_gender_consensus samplegender_data = Ok derived
    /\ map fst derived = map fst samplegender_data
    /\ Forall2
         (fun old new =>
            (exists p g,
                dict_get (snd new) "certainty" = Some (VFloat p)
                /\ In p certainty_levels
                /\ dict_get (snd new) "calc_gender" = Some (VStr g)
                /\ In g consensus_calls)
            /\ (forall k, k <> "certainty" -> k <> "calc_gender" ->
                          dict_get (snd new) k = dict_get (snd old) k)
            /\ exists added, keys (snd new) = (keys (snd old) ++ added)%list
                             /\ incl added ["certainty"; "calc_gender"])
         samplegender_data derived.
Proof.
  destruct (calculate_gender_consensus_total samplegender_data)
    as (derived & Hrun & Hall).
  exists derived. split; [exact Hrun |]. clear Hrun.
  induction Hall as [| old new reg reg' [Hname Hrec] _ IH].
  - split; constructor.
  - destruct IH as [IHn IHr]. split.
    + simpl. now rewrite Hname, IHn.
    + constructor; [| exact IHr]. now apply consensus_record_effect.
Qed.

(** X6. Running the consensus pass on its own output returns that output
    unchanged: no field is added twice and none changes value or
    place. *)
Theorem consensus_pass_rerun (samplegender_data derived : registry) :
  _calculate_gender_consensus samplegender_data = Ok derived ->
  _calculate_gender_consensus derived = Ok derived.
Proof.
  revert derived.
  induction samplegender_data as [| [sample data] reg IH]; intros derived H;
    simpl in H.
  - inversion H. reflexivity.
  - destruct (consensus_record data) as [data' |] eqn:Hd; [| discriminate].
    cbn [bind] in H.
    destruct (_calculate_gender_consensus reg) as [reg' |] eqn:Hr; [| discriminate].
    cbn [bind] in H. inversion H. simpl.
    rewrite (consensus_record_rerun data data' Hd). cbn [bind].
    rewrite (IH reg' eq_refl). reflexivity.
Qed.

Lemma consensus_pass_rerun_witness :
  let reg := [("S1", [("gender_xy", VStr "M"); ("gender_sry", VStr "F")]);
              ("S2", [("gender_hetx", VStr "F"); ("certainty", VStr "old")])] in
  exists derived,
    _calculate_gender_consensus reg = Ok derived
    /\ _calculate_gender_consensus derived = Ok derived.
Proof.
  intros reg. eexists. split; [vm_compute; reflexivity |].
  apply (consensus_pass_rerun reg). vm_compute. reflexivity.
Defined.

End ConsensusPass.

(* ================================================================= *)
(** * Tables of records and the loops that fill them *)

Section Tables.
Import Py.
Context {V : Type}.

Lemma odict_get_set_same (t : list (string * V)) (k : string) (v : V) :
  odict_get (odict_set t k v) k = Some v.
Proof.
  induction t as [| [k' v'] t IH]; simpl.
  - now rewrite String.eqb_refl.
  - destruct (String.eqb k' k) eqn:E; simpl; rewrite E; auto.
Qed.

Lemma odict_get_set_other (t : list (string * V)) (k k' : string) (v : V) :
  k <> k' -> odict_get (odict_set t k v) k' = odict_get t k'.
Proof.
  intros Hne. induction t as [| [k0 v0] t IH]; simpl.
  - destruct (String.eqb k k') eqn:E; auto.
    apply String.eqb_eq in E. contradiction.
  - destruct (String.eqb k0 k) eqn:E; simpl.
    + apply String.eqb_eq in E. subst k0.
      destruct (String.eqb k k') eqn:E'; auto.
      apply String.eqb_eq in E'. contradiction.
    + now rewrite IH.
Qed.

Lemma odict_get_None (t : list (string * V)) (k : string) :
  odict_get t k = None <-> ~ In k (map fst t).
Proof.
  induction t as [| [k' v'] t IH]; simpl.
  - tauto.
  - destruct (String.eqb k' k) eqn:E.
    + apply String.eqb_eq in E. split; [discriminate | intros H; elim H; auto].
    + apply String.eqb_neq in E. rewrite IH. tauto.
Qed.

Lemma odict_set_names (t : list (string * V)) (k : string) (v : V) :
  map fst (odict_set t k v)
  = if odict_mem t k then map fst t else (map fst t ++ [k])%list.
Proof.
  unfold odict_mem. induction t as [| [k' v'] t IH]; simpl.
  - reflexivity.
  - destruct (String.eqb k' k) eqn:E; simpl; [reflexivity |].
    rewrite IH. destruct (odict_get t k); reflexivity.
Qed.

Lemma odict_mem_set (t : list (string * V)) (k : string) (v : V) :
  odict_mem (odict_set t k v) k = true.
Proof. unfold odict_mem. now rewrite odict_get_set_same. Qed.

Lemma ignore_samples_names (ign : string -> bool) (t : list (string * V))
      (s : string) :
  In s (map fst (multiqc.ignore_samples ign t)) -> ign s = false.
Proof.
  unfold multiqc.ignore_samples. intros H. apply in_map_iff in H.
  destruct H as ([s' v] & <- & H). apply filter_In in H. simpl in *.
  destruct H as [_ H]. now destruct (ign s').
Qed.

Lemma ignore_samples_get (ign : string -> bool) (t : list (string * V))
      (s : string) :
  odict_get (multiqc.ignore_samples ign t) s
  = if ign s then None else odict_get t s.
Proof.
  unfold multiqc.ignore_samples. induction t as [| [k v] t IH]; simpl.
  - now destruct (ign s).
  - destruct (ign k) eqn:Ek; simpl.
    + rewrite IH. destruct (String.eqb k s) eqn:E; [| reflexivity].
      apply String.eqb_eq in E. subst k. now rewrite Ek.
    + rewrite IH. destruct (String.eqb k s) eqn:E; [| reflexivity].
      apply String.eqb_eq in E. subst k. now rewrite Ek.
Qed.

End Tables.

Section Loops.
Import Py.

(** [d.update(other)], field by field: a field of [other] wins, the
    fields of [d] that [other] lacks stay. *)
Lemma dict_update_lookup (other d : dict) (k : string) :
  NoDup (keys other) ->
  dict_get (dict_update d other) k
  = match dict_get other k with
    | Some v => Some v
    | None => dict_get d k
    end.
Proof.
  unfold dict_update. revert d.
  induction other as [| [k0 v0] other IH]; intros d Hnd; simpl.
  - reflexivity.
  - inversion Hnd as [| ? ? Hout Hnd']; subst.
    rewrite IH by assumption.
    destruct (String.eqb k0 k) eqn:E.
    + apply String.eqb_eq in E. subst k0.
      apply dict_get_None in Hout. rewrite Hout. apply dict_get_set_same.
    + apply String.eqb_neq in E.
      destruct (dict_get other k); [reflexivity |].
      now apply dict_get_set_other.
Qed.

(** Writing a record into itself changes nothing. *)
Lemma dict_update_self (d : dict) : NoDup (keys d) -> dict_update d d = d.
Proof.
  intros Hnd. unfold dict_update.
  assert (H : forall part, incl part d ->
            fold_left (fun acc kv => dict_set acc (fst kv) (snd kv)) part d = d).
  { induction part as [| [k v] part IH]; intros Hincl; simpl; [reflexivity |].
    rewrite dict_set_same_value.
    - apply IH. intros x Hx. apply Hincl. now right.
    - apply In_dict_get; [exact Hnd |]. apply Hincl. now left. }
  apply H. apply incl_refl.
Qed.

Lemma dict_update_NoDup (d other : dict) :
  NoDup (keys d) -> NoDup (keys (dict_update d other)).
Proof.
  unfold dict_update. revert d.
  induction other as [| kv other IH]; intros d Hnd; simpl; [exact Hnd |].
  apply IH. now apply dict_set_NoDup.
Qed.

(** An element on which the body raises, whatever the state, ends the
    loop with an exception; with [E] when the body raises nothing
    else. *)
Lemma for_each_raises_at {A St : Type} (body : St -> A -> result St)
      (E : exn) (xs : list A) (x : A) :
  (forall s y e, body s y = Raise e -> e = E) ->
  In x xs -> (forall s, body s x = Raise E) ->
  forall s, for_each body xs s = Raise E.
Proof.
  intros Honly Hin Hx. induction xs as [| y xs IH]; intros s; [contradiction |].
  cbn [for_each]. destruct (body s y) as [s' | e] eqn:Hb; cbn [bind].
  - destruct Hin as [-> | Hin]; [rewrite Hx in Hb; discriminate | now apply IH].
  - now rewrite (Honly s y e Hb).
Qed.

Lemma for_each_only {A St : Type} (body : St -> A -> result St)
      (E : exn) (xs : list A) :
  (forall s y e, body s y = Raise e -> e = E) ->
  forall s e, for_each body xs s = Raise e -> e = E.
Proof.
  intros Honly. induction xs as [| y xs IH]; intros s e; cbn [for_each].
  - discriminate.
  - destruct (body s y) as [s' | e'] eqn:Hb; cbn [bind].
    + apply IH.
    + intros H. inversion H; subst. eapply Honly; eauto.
Qed.

Lemma for_each_unchanged {A St : Type} (body : St -> A -> result St)
      (xs : list A) (s : St) :
  (forall x, In x xs -> body s x = Ok s) -> for_each body xs s = Ok s.
Proof.
  induction xs as [| y xs IH]; intros H; cbn [for_each]; [reflexivity |].
  rewrite (H y (or_introl eq_refl)). cbn [bind].
  apply IH. intros x Hx. apply H. now right.
Qed.

Lemma for_each_invariant {A St : Type} (body : St -> A -> result St)
      (P : St -> Prop) (xs : list A) :
  (forall s x s', body s x = Ok s' -> P s') ->
  forall s r, P s -> for_each body xs s = Ok r -> P r.
Proof.
  intros Hstep. induction xs as [| y xs IH]; intros s r Hs; cbn [for_each].
  - intros H. inversion H. now subst.
  - destruct (body s y) as [s' |] eqn:Hb; cbn [bind]; [| discriminate].
    apply IH. eapply Hstep; eauto.
Qed.

End Loops.

(* ================================================================= *)
(** * The sex-prediction module run *)

Section SexModule.
Import Py sample_gender Spec multiqc.

Lemma parse_file_NoDup (f : string) (d : dict) :
  parse_file f = Ok d -> NoDup (keys d).
Proof.
  intros H. destruct (parse_file_ok_form f d H)
    as [-> | (l0 & l1 & rest & first & others & hs & _ & _ & _ & _ & ->)].
  - constructor.
  - unfold coerced_record. apply coerced_fold_NoDup. constructor.
Qed.

Lemma parse_file_only_IndexError (f : string) (e : exn) :
  parse_file f = Raise e -> e = IndexError.
Proof.
  destruct (splitlines f) as [| line0 [| line1 rest]] eqn:Hl.
  - unfold parse_file. rewrite Hl. discriminate.
  - unfold parse_file. rewrite Hl. discriminate.
  - rewrite (parse_file_two_lines f line0 line1 rest Hl).
    destruct (columns_2_to_6 (tab_fields line1)) as [| first others];
      [intros H; inversion H; reflexivity |].
    rewrite canonical_sex_cons. cbn [bind].
    destruct (rename_headers_total (columns_2_to_6 (tab_fields line0)))
      as (headers & Hh & _).
    rewrite Hh. cbn [bind]. rewrite store_all. discriminate.
Qed.

Lemma ingest_file_parsed (extension : string) (data : registry) (f : log_file)
      (parsed : dict) :
  parse_file (file_f f) = Ok parsed ->
  ingest_file extension data f
  = match parsed with
    | [] => Ok data
    | _ :: _ =>
        let s := clean_s_name (file_s_name f) extension in
        Ok (odict_set data s
              (match odict_get data s with
               | Some record => dict_update record parsed
               | None => parsed
               end))
    end.
Proof.
  intros Hp. unfold ingest_file. rewrite Hp. cbn [bind].
  destruct parsed as [| kv parsed]; [reflexivity |].
  unfold odict_mem, odict_getitem.
  destruct (odict_get data (clean_s_name (file_s_name f) extension));
    reflexivity.
Qed.

Lemma ingest_file_only_IndexError (extension : string) (data : registry)
      (f : log_file) (e : exn) :
  ingest_file extension data f = Raise e -> e = IndexError.
Proof.
  destruct (parse_file (file_f f)) as [parsed | e'] eqn:Hp.
  - rewrite (ingest_file_parsed extension data f parsed Hp).
    destruct parsed; discriminate.
  - unfold ingest_file. rewrite Hp. cbn [bind]. intros H. inversion H; subst.
    now apply (parse_file_only_IndexError (file_f f)).
Qed.

(** X7. A file with a non-empty parsed record is merged field by field
    into the registry: the record of its sample (the file's name without
    the extension of the method) takes every field of the parsed record
    and keeps the fields it had that the parsed record lacks; the other
    samples are untouched, and a new sample goes to the end of the
    registry. *)
Theorem ingest_file_merges (extension : string) (samplegender_data : registry)
        (f : log_file) (parsed : dict) :
  parse_file (file_f f) = Ok parsed -> parsed <> [] ->
  let s_name := clean_s_name (file_s_name f) extension in
  exists merged,
    ingest_file extension samplegender_data f = Ok merged
    /\ (forall other, other <> s_name ->
                      odict_get merged other = odict_get samplegender_data other)
    /\ (exists record,
           odict_get merged s_name = Some record
           /\ forall k,
               dict_get record k
               = match dict_get parsed k with
                 | Some v => Some v
                 | None =>
                     match odict_get samplegender_data s_name with
                     | Some old => dict_get old k
                     | None => None
                     end
                 end)
    /\ map fst merged
       = if odict_mem samplegender_data s_name then map fst samplegender_data
         else (map fst samplegender_data ++ [s_name])%list.
Proof.
  intros Hp Hne s_name.
  rewrite (ingest_file_parsed extension samplegender_data f parsed Hp).
  destruct parsed as [| kv parsed'] eqn:Ep; [now elim Hne |]. rewrite <- Ep in *.
  cbv zeta. fold s_name. eexists. split; [reflexivity |].
  split; [| split].
  - intros other Ho. apply odict_get_set_other. congruence.
  - eexists. split; [apply odict_get_set_same |].
    intros k. destruct (odict_get samplegender_data s_name) as [old |].
    + apply dict_update_lookup. now apply (parse_file_NoDup (file_f f)).
    + destruct (dict_get parsed k); reflexivity.
  - apply odict_set_names.
Qed.

Lemma ingest_file_merges_witness :
  let xy := {| file_s_name := "S1_xy";
               file_f := tsv ["#file"; "gender"; "reads_chry"]
                         ++ String LF (tsv ["S1.bam"; "male"; "1200"]) |} in
  let old := [("S1", [("gender_hetx", VStr "F"); ("reads_chry", VStr "stale")])] in
  exists merged,
    ingest_file "_xy" old xy = Ok merged
    /\ merged = [("S1", [("gender_hetx", VStr "F");
                         ("reads_chry", VFloat (float_of_Z 1200));
                         ("gender_xy", VStr "M")])].
Proof.
  intros xy old.
  destruct (ingest_file_merges "_xy" old xy
              [("gender_xy", VStr "M"); ("reads_chry", VFloat (float_of_Z 1200))])
    as (merged & Hrun & _).
  - vm_compute. reflexivity.
  - discriminate.
  - exists merged. split; [exact Hrun |].
    vm_compute in Hrun. inversion Hrun. reflexivity.
Defined.

Lemma collect_only_IndexError (find_log_files : string -> list log_file)
      (e : exn) :
  collect find_log_files = Raise e -> e = IndexError.
Proof.
  unfold collect. apply for_each_only.
  intros s [method ext] e'. apply for_each_only.
  intros s' f e''. apply ingest_file_only_IndexError.
Qed.

(** X8. One file whose data row has fewer than two tab-separated fields
    ends the whole module run with an index error, whichever method it
    was found under and whatever the other files hold: no parser error
    is caught in the loops. *)
Theorem malformed_file_aborts_the_run
        (find_log_files : string -> list log_file)
        (is_ignore_sample : string -> bool)
        (method extension : string) (f : log_file)
        (line0 line1 : string) (rest : list string) :
  In (method, extension) method_dict ->
  In f (find_log_files method) ->
  splitlines (file_f f) = line0 :: line1 :: rest ->
  (List.length (tab_fields line1) < 2)%nat ->
  __init__ find_log_files is_ignore_sample = Failed IndexError.
Proof.
  intros Hm Hf Hl Hshort.
  assert (Hp : parse_file (file_f f) = Raise IndexError).
  { rewrite (parse_file_two_lines (file_f f) line0 line1 rest Hl).
    unfold columns_2_to_6. now rewrite (columns_empty _ Hshort). }
  assert (Hc : collect find_log_files = Raise IndexError).
  { unfold collect.
    apply (for_each_raises_at _ IndexError method_dict (method, extension)).
    - intros s [m x] e. apply for_each_only.
      intros s' f' e'. apply ingest_file_only_IndexError.
    - exact Hm.
    - intros s. simpl.
      apply (for_each_raises_at _ IndexError (find_log_files method) f).
      + intros s' f' e'. apply ingest_file_only_IndexError.
      + exact Hf.
      + intros s'. unfold ingest_file. now rewrite Hp. }
  unfold __init__. now rewrite Hc.
Qed.

Lemma malformed_file_aborts_the_run_witness :
  let good := {| file_s_name := "S1_xy";
                 file_f := tsv ["#file"; "gender"; "reads_chry"]
                           ++ String LF (tsv ["S1.bam"; "male"; "1200"]) |} in
  let bad := {| file_s_name := "S2_sry";
                file_f := tsv ["#file"; "gender"; "coverage_sry"]
                          ++ String LF "S2.bam" |} in
  let find := fun method =>
                if String.eqb method "sample_gender/xy" then [good]
                else if String.eqb method "sample_gender/sry" then [bad]
                else [] in
  __init__ find (fun _ => false) = Failed IndexError.
Proof.
  intros good bad find.
  apply (malformed_file_aborts_the_run find (fun _ => false)
           "sample_gender/sry" "_sry" bad
           (tsv ["#file"; "gender"; "coverage_sry"]) "S2.bam" []).
  - simpl. auto.
  - simpl. auto.
  - reflexivity.
  - vm_compute. lia.
Defined.

Lemma Forall2_In_r {A B : Type} (R : A -> B -> Prop) (xs : list A) (ys : list B)
      (y : B) :
  Forall2 R xs ys -> In y ys -> exists x, In x xs /\ R x y.
Proof.
  induction 1 as [| x0 y0 xs ys Hr _ IH]; simpl; intros Hin; [contradiction |].
  destruct Hin as [-> | Hin]; [eauto |].
  destruct (IH Hin) as (x & Hx & Hxy). eauto.
Qed.

(** X9. When the module run ends with data to report, that data is not
    empty, holds the samples that were collected and not ignored, in
    their order, and every record in it carries a certainty among 0.0,
    1/3, 2/3, 1.0 and a call among "M", "F", "Unknown". *)
Theorem reported_data_is_derived
        (find_log_files : string -> list log_file)
        (is_ignore_sample : string -> bool) (reported : registry) :
  __init__ find_log_files is_ignore_sample = Reported reported ->
  reported <> []
  /\ (exists collected,
         collect find_log_files = Ok collected
         /\ map fst reported = map fst (ignore_samples is_ignore_sample collected))
  /\ forall sample record,
      In (sample, record) reported ->
      is_ignore_sample sample = false
      /\ exists p g,
          dict_get record "certainty" = Some (VFloat p) /\ In p certainty_levels
          /\ dict_get record "calc_gender" = Some (VStr g)
          /\ In g consensus_calls.
Proof.
  unfold __init__. destruct (collect find_log_files) as [collected |] eqn:Hc;
    [| discriminate].
  cbv zeta.
  destruct (List.length (ignore_samples is_ignore_sample collected) =? 0)%nat
    eqn:Hlen; [discriminate |].
  destruct (calculate_gender_consensus_total
              (ignore_samples is_ignore_sample collected)) as (derived & Hrun & Hall).
  rewrite Hrun. intros H. inversion H; subst derived. clear H.
  assert (Hnames : map fst reported
                   = map fst (ignore_samples is_ignore_sample collected)).
  { clear Hrun Hlen. induction Hall as [| old new xs ys [Hn _] _ IH]; simpl;
      [reflexivity | now rewrite Hn, IH]. }
  split; [| split].
  - intros ->. apply Nat.eqb_neq in Hlen.
    apply (f_equal (@List.length string)) in Hnames.
    rewrite !length_map in Hnames. simpl in Hnames. lia.
  - exists collected. auto.
  - intros sample record Hin. split.
    + apply (ignore_samples_names is_ignore_sample collected).
      rewrite <- Hnames. change sample with (fst (sample, record)).
      now apply in_map.
    + destruct (Forall2_In_r _ _ _ _ Hall Hin) as ([s0 old] & _ & _ & Hrec).
      simpl in Hrec. now destruct (consensus_record_effect old record Hrec).
Qed.

Lemma reported_data_is_derived_witness :
  let xy := {| file_s_name := "S1_xy";
               file_f := tsv ["#file"; "gender"; "reads_chry"]
                         ++ String LF (tsv ["S1.bam"; "male"; "1200"]) |} in
  let find := fun method =>
                if String.eqb method "sample_gender/xy" then [xy] else [] in
  exists reported,
    __init__ find (fun _ => false) = Reported reported /\ reported <> [].
Proof.
  intros xy find. eexists. split; [vm_compute; reflexivity |].
  apply (reported_data_is_derived find (fun _ => false)).
  vm_compute. reflexivity.
Defined.

(** X10. When every file found, under every method, parses to the empty
    record (in particular when no file is found at all), the module run
    ends with [UserWarning] and reports nothing. *)
Theorem nothing_parsed_gives_UserWarning
        (find_log_files : string -> list log_file)
        (is_ignore_sample : string -> bool) :
  (forall method extension f,
      In (method, extension) method_dict -> In f (find_log_files method) ->
      parse_file (file_f f) = Ok []) ->
  __init__ find_log_files is_ignore_sample = UserWarning.
Proof.
  intros Hall.
  assert (Hc : collect find_log_files = Ok []).
  { unfold collect. apply for_each_unchanged. intros [method ext] Hm.
    apply for_each_unchanged. intros f Hf. simpl in Hf.
    unfold ingest_file. now rewrite (Hall method ext f Hm Hf). }
  unfold __init__. rewrite Hc. reflexivity.
Qed.

Lemma nothing_parsed_gives_UserWarning_witness :
  let stub := {| file_s_name := "S1_xy"; file_f := tsv ["#file"; "gender"] |} in
  let find := fun method =>
                if String.eqb method "sample_gender/xy" then [stub] else [] in
  __init__ find (fun _ => false) = UserWarning.
Proof.
  intros stub find.
  apply (nothing_parsed_gives_UserWarning find (fun _ => false)).
  intros method extension f Hm Hf. unfold find in Hf.
  destruct (String.eqb method "sample_gender/xy"); [| contradiction].
  destruct Hf as [<- | []]. reflexivity.
Defined.

End SexModule.

(* ================================================================= *)
(** * More on the MSH2 parser and its frequency loop *)

Section MSH2Shape.
Import Py targeted_MSH2 Spec multiqc.

(** *** The extracted record *)

Lemma dict_set_absent (d : dict) (k : string) (v : value) :
  ~ In k (keys d) -> dict_set d k v = (d ++ [(k, v)])%list.
Proof.
  induction d as [| [k0 v0] d IH]; simpl; intros Hout; [reflexivity |].
  destruct (String.eqb k0 k) eqn:E.
  - apply String.eqb_eq in E. elim Hout. auto.
  - f_equal. apply IH. tauto.
Qed.

Lemma fold_store_pairs (kvs : list (string * string)) (d : dict) :
  NoDup (keys d ++ map fst kvs) ->
  fold_left store kvs d
  = (d ++ map (fun kv => (fst kv, VStr (snd kv))) kvs)%list.
Proof.
  revert d. induction kvs as [| [k v] kvs IH]; intros d Hnd; simpl.
  - now rewrite app_nil_r.
  - unfold store at 2. simpl.
    rewrite dict_set_absent.
    + rewrite IH.
      * now rewrite <- app_assoc.
      * unfold keys in *. rewrite map_app, <- app_assoc. exact Hnd.
    + intros Hin. apply NoDup_remove_2 in Hnd. apply Hnd.
      apply in_or_app. now left.
Qed.

Lemma fold_store_length (kvs : list (string * string)) (d : dict) :
  (List.length (fold_left store kvs d) <= List.length d + List.length kvs)%nat.
Proof.
  revert d. induction kvs as [| kv kvs IH]; intros d; simpl; [lia |].
  pose proof (IH (store d kv)) as H.
  pose proof (dict_set_length d (fst kv) (VStr (snd kv))) as H'.
  change (dict_set d (fst kv) (VStr (snd kv))) with (store d kv) in H'. lia.
Qed.

(** X11. The record read off lines 3 and 4 has at most five fields, all
    of them text, under pairwise distinct keys; when the header names of
    columns 2-6 are pairwise distinct it is exactly the list of those
    names paired, in column order, with the values of columns 2-6, as
    far as both lines reach. *)
Theorem extract_pairs_columns (header_line value_line : string) :
  let headers := slice 1 6 (split SPACE (strip header_line)) in
  let values := slice 1 6 (split SPACE (strip value_line)) in
  (List.length (extract header_line value_line) <= 5)%nat
  /\ NoDup (keys (extract header_line value_line))
  /\ (forall k v, In (k, v) (extract header_line value_line) ->
                  exists s, v = VStr s)
  /\ (NoDup headers ->
      extract header_line value_line
      = map (fun kv => (fst kv, VStr (snd kv))) (combine headers values)).
Proof.
  intros headers values. split; [| split; [| split]].
  - unfold extract. fold headers values.
    pose proof (fold_store_length (combine headers values) []) as H.
    pose proof (slice_length 1 6 (split SPACE (strip header_line))) as Hs.
    rewrite length_combine in H. fold headers in Hs. simpl in *. lia.
  - apply extract_NoDup.
  - intros k v. apply extract_text.
  - intros Hnd. unfold extract. fold headers values.
    rewrite fold_store_pairs; [reflexivity |]. simpl.
    now apply combine_keys_NoDup.
Qed.

(** *** The record after a loop that returned *)

Lemma derive_step_result (config cur cur' : dict) (k : string) (v : value) :
  derive_step config cur (k, v) = Ok cur' ->
  dict_get cur k = Some v ->
  exists new, cur' = dict_set cur k new /\ formatted_entry (k, v) (k, new).
Proof.
  unfold derive_step, formatted_entry. cbn [fst snd].
  destruct (String.eqb k wt_key) eqn:Hk; simpl.
  - intros H Hget. unfold dict_getitem in H. rewrite Hget in H. simpl in H.
    destruct (py_int v) as [n |]; [| discriminate]. simpl in H.
    inversion H. exists (VInt n). split; [reflexivity |]. eauto.
  - intros H _.
    destruct (frequency cur v) as [fr |]; simpl in H; [| discriminate].
    destruct (dict_getitem config "sanger_threshold") as [t |]; simpl in H;
      [| discriminate].
    destruct (py_float t) as [x |]; simpl in H; [| discriminate].
    destruct (fle x fr); inversion H.
    + exists (VStr (format_sanger fr v)). split; [reflexivity |].
      split; [reflexivity |]. exists fr, NBSP. split; [now right | reflexivity].
    + exists (VStr (format_freq fr v)). split; [reflexivity |].
      split; [reflexivity |]. exists fr, SPACE. split; [now left | reflexivity].
Qed.

Lemma derive_loop_shape (config : dict) :
  forall (todo pre r : dict),
    NoDup (keys (pre ++ todo)%list) ->
    for_each (derive_step config) todo (pre ++ todo)%list = Ok r ->
    exists todo', r = (pre ++ todo')%list /\ Forall2 formatted_entry todo todo'.
Proof.
  induction todo as [| [k v] rest IH]; intros pre r Hnd Hrun.
  - cbn [for_each] in Hrun. inversion Hrun. exists []. split; [reflexivity | constructor].
  - pose proof (NoDup_keys_head pre rest k v Hnd) as Hout.
    cbn [for_each] in Hrun.
    destruct (derive_step config (pre ++ (k, v) :: rest)%list (k, v))
      as [cur' |] eqn:Hstep; [| discriminate].
    cbn [bind] in Hrun.
    destruct (derive_step_result _ _ _ _ _ Hstep (dict_get_middle pre rest k v Hout))
      as (new & -> & Hnew).
    rewrite dict_set_middle, shift_head in Hrun by assumption.
    destruct (IH (pre ++ [(k, new)])%list r) as (todo' & -> & Hrel).
    + now rewrite (keys_shift pre rest k v).
    + exact Hrun.
    + exists ((k, new) :: todo'). rewrite <- app_assoc.
      split; [reflexivity |]. constructor; assumption.
Qed.

Lemma derive_shape (config d d' : dict) :
  NoDup (keys d) -> derive config d = Ok d' -> Forall2 formatted_entry d d'.
Proof.
  intros Hnd Hrun.
  destruct (derive_loop_shape config d [] d' Hnd Hrun) as (todo' & -> & Hrel).
  exact Hrel.
Qed.

Lemma formatted_keys (d d' : dict) :
  Forall2 formatted_entry d d' -> keys d' = keys d.
Proof.
  induction 1 as [| old new d d' [Hk _] _ IH]; simpl; congruence.
Qed.

Lemma formatted_lookup (d d' : dict) (k : string) (v : value) :
  Forall2 formatted_entry d d' -> In (k, v) d ->
  exists v', In (k, v') d' /\ formatted_entry (k, v) (k, v').
Proof.
  induction 1 as [| old new d d' Hrel _ IH]; simpl; intros Hin; [contradiction |].
  destruct Hin as [-> | Hin].
  - destruct new as [k' v']. pose proof Hrel as [Hk _]. simpl in Hk. subst k'.
    exists v'. auto.
  - destruct (IH Hin) as (v' & Hin' & Hr). eauto.
Qed.

(** X12. Whenever the frequency loop returns, the record has the same
    keys in the same order; its wild-type entry holds the integer its
    text read as, and every other entry holds a text of the form
    "{frequency}%{separator}({value})" around the value the entry had,
    the separator being a space or the no-break space U+00A0. *)
Theorem derive_keeps_keys_and_formats (config d d' : dict) :
  NoDup (keys d) -> derive config d = Ok d' ->
  keys d' = keys d
  /\ forall k v,
      In (k, v) d ->
      if String.eqb k wt_key
      then exists n, py_int v = Ok n /\ dict_get d' k = Some (VInt n)
      else exists fr sep,
          (sep = SPACE \/ sep = NBSP)
          /\ dict_get d' k
             = Some (VStr (float_repr fr ++ "%" ++ String sep "("
                           ++ py_str v ++ ")")).
Proof.
  intros Hnd Hrun. pose proof (derive_shape config d d' Hnd Hrun) as Hrel.
  pose proof (formatted_keys d d' Hrel) as Hkeys.
  split; [exact Hkeys |].
  intros k v Hin.
  destruct (formatted_lookup d d' k v Hrel Hin) as (v' & Hin' & _ & Hv').
  assert (Hget : dict_get d' k = Some v').
  { apply In_dict_get; [now rewrite Hkeys | exact Hin']. }
  cbn [fst snd] in Hv'. destruct (String.eqb k wt_key).
  - destruct Hv' as (n & Hn & ->). eauto.
  - destruct Hv' as (fr & sep & Hsep & ->). eauto.
Qed.

Lemma derive_keeps_keys_and_formats_witness :
  let d := [("MSH2_c.942+2T>A", VStr "-3"); (wt_key, VStr "+1_0");
            ("MSH2_c.942+3A>T", VStr "025")] in
  exists d',
    derive default_config d = Ok d'
    /\ d' = [("MSH2_c.942+2T>A", VStr "-42.86% (-3)"); (wt_key, VInt 10);
             ("MSH2_c.942+3A>T", VStr ("71.43%" ++ String NBSP "(025)"))]
    /\ keys d' = keys d.
Proof.
  intros d. eexists. split; [vm_compute; reflexivity |].
  split; [reflexivity |].
  apply (derive_keeps_keys_and_formats default_config d).
  - unfold d. simpl. repeat constructor; simpl; intuition discriminate.
  - vm_compute. reflexivity.
Defined.

(** *** The record after a loop that returned, with its frequencies *)

Lemma derive_step_derived (config cur cur' : dict) (x : float) (w : Z)
      (k : string) (v : value) :
  threshold_is config x -> wt_ready w cur ->
  derive_step config cur (k, v) = Ok cur' -> dict_get cur k = Some v ->
  exists new, cur' = dict_set cur k new /\ derived_entry x w (k, v) (k, new).
Proof.
  intros Hcfg Hw Hstep Hkv. pose proof Hw as (a & Hget & Ha).
  unfold derived_entry. cbn [fst snd].
  destruct (String.eqb k wt_key) eqn:Hk.
  - pose proof Hk as Hk'. apply String.eqb_eq in Hk'. subst k.
    rewrite Hget in Hkv. inversion Hkv; subst a.
    rewrite (derive_step_wt config cur wt_key v v w Hk Hget Ha) in Hstep.
    inversion Hstep. eauto.
  - destruct (py_int v) as [c | e] eqn:Hc.
    2:{ unfold derive_step, frequency in Hstep. rewrite Hk, Hc in Hstep.
        discriminate. }
    destruct (int_truediv c (w + c)) as [q | e] eqn:Hq.
    2:{ unfold derive_step, frequency, dict_getitem in Hstep.
        rewrite Hk, Hc, Hget in Hstep. cbn [negb bind] in Hstep.
        rewrite Ha in Hstep. cbn [bind] in Hstep. rewrite Hq in Hstep.
        discriminate. }
    rewrite (derive_step_variant config cur k v x w c q Hcfg Hk Hw Hc Hq) in Hstep.
    inversion Hstep. eexists. split; [reflexivity |].
    split; [reflexivity |]. exists c, q. auto.
Qed.

Lemma derive_loop_derived (config : dict) (x : float) (w : Z) :
  threshold_is config x ->
  forall (todo pre r : dict),
    NoDup (keys (pre ++ todo)%list) ->
    wt_ready w (pre ++ todo)%list ->
    for_each (derive_step config) todo (pre ++ todo)%list = Ok r ->
    exists todo', r = (pre ++ todo')%list /\ Forall2 (derived_entry x w) todo todo'.
Proof.
  intros Hcfg. induction todo as [| [k v] rest IH]; intros pre r Hnd Hw Hrun.
  - cbn [for_each] in Hrun. inversion Hrun. exists []. split; [reflexivity | constructor].
  - pose proof (NoDup_keys_head pre rest k v Hnd) as Hout.
    cbn [for_each] in Hrun.
    destruct (derive_step config (pre ++ (k, v) :: rest)%list (k, v))
      as [cur' |] eqn:Hstep; [| discriminate].
    cbn [bind] in Hrun.
    destruct (derive_step_derived _ _ _ x w _ _ Hcfg Hw Hstep
                (dict_get_middle pre rest k v Hout)) as (new & -> & Hnew).
    rewrite dict_set_middle, shift_head in Hrun by assumption.
    destruct (IH (pre ++ [(k, new)])%list r) as (todo' & -> & Hrel).
    + now rewrite (keys_shift pre rest k v).
    + rewrite <- shift_head. destruct (String.eqb k wt_key) eqn:Hk.
      * destruct Hnew as [_ Hnew]. cbn [fst snd] in Hnew. rewrite Hk in Hnew.
        subst new. apply String.eqb_eq in Hk. subst k.
        exists (VInt w). split; [now apply dict_get_middle | reflexivity].
      * destruct Hw as (a & Hget & Ha). exists a. split; [| exact Ha].
        rewrite (dict_get_middle_other pre rest k wt_key v new); [exact Hget |].
        intros ->. now rewrite String.eqb_refl in Hk.
    + exact Hrun.
    + exists ((k, new) :: todo'). rewrite <- app_assoc.
      split; [reflexivity |]. constructor; assumption.
Qed.

(** A loop that returns on a record that is not empty has found the
    wild-type count and has derived every entry from it. *)
Lemma derive_derived (config d d' : dict) (x : float) :
  NoDup (keys d) -> threshold_is config x -> derive config d = Ok d' ->
  d <> [] ->
  exists w, wt_ready w d /\ Forall2 (derived_entry x w) d d'.
Proof.
  intros Hnd Hcfg Hrun Hne.
  pose proof (derive_loop_inv config d [] d' Hnd Hrun) as Hinv.
  destruct d as [| [k0 v0] rest]; [now elim Hne |].
  destruct (Hinv k0 v0 (or_introl eq_refl)) as [_ Hwt].
  cbn [app] in Hwt. unfold keys in Hwt. apply in_map_iff in Hwt.
  destruct Hwt as ([k wv] & Hk & Hin). cbn [fst] in Hk. subst k.
  destruct (Hinv wt_key wv Hin) as [[w Hw] _].
  assert (Hready : wt_ready w ((k0, v0) :: rest)).
  { exists wv. split; [now apply In_dict_get | exact Hw]. }
  exists w. split; [exact Hready |].
  destruct (derive_loop_derived config x w Hcfg ((k0, v0) :: rest) [] d' Hnd
              Hready Hrun) as (todo' & -> & Hrel).
  exact Hrel.
Qed.

(** *** The characters of a derived text *)

Lemma chars_app (a b : string) :
  list_ascii_of_string (a ++ b)
  = (list_ascii_of_string a ++ list_ascii_of_string b)%list.
Proof. induction a as [| c a IH]; simpl; congruence. Qed.

Lemma has_char_app (c : ascii) (a b : string) :
  has_char c (a ++ b) = has_char c a || has_char c b.
Proof. unfold has_char. now rewrite chars_app, existsb_app. Qed.

Lemma has_char_cons (c a : ascii) (s : string) :
  has_char c (String a s) = Ascii.eqb c a || has_char c s.
Proof. reflexivity. Qed.

Lemma s_contains_char (c : ascii) (s : string) :
  s_contains (String c EmptyString) s = has_char c s.
Proof.
  unfold s_contains.
  induction s as [| a s IH]; [reflexivity |].
  rewrite has_char_cons. cbn [index prefix].
  destruct (ascii_dec c a) as [-> | Hne].
  - rewrite Ascii.eqb_refl. destruct s; reflexivity.
  - apply Ascii.eqb_neq in Hne. rewrite Hne. cbn [orb]. rewrite <- IH.
    destruct (index 0 (String c EmptyString) s); reflexivity.
Qed.

Lemma no_nbsp_uint (u : Decimal.uint) :
  has_char NBSP (NilEmpty.string_of_uint u) = false.
Proof. induction u; simpl; auto. Qed.

Lemma no_nbsp_nat (n : Z) : has_char NBSP (str_of_nat_Z n) = false.
Proof.
  unfold str_of_nat_Z, NilZero.string_of_uint.
  destruct (N.to_uint (Z.to_N n)); try reflexivity; apply no_nbsp_uint.
Qed.

Lemma no_nbsp_rstrip_zeros (s : string) :
  has_char NBSP s = false -> has_char NBSP (rstrip_zeros s) = false.
Proof.
  induction s as [| a s IH]; [auto |].
  rewrite has_char_cons. intros H. apply orb_false_iff in H. destruct H as [Ha Hs].
  cbn [rstrip_zeros]. specialize (IH Hs).
  destruct (rstrip_zeros s) as [| b r].
  - destruct (Ascii.eqb a "0"); [reflexivity |].
    rewrite has_char_cons, Ha. reflexivity.
  - rewrite has_char_cons, Ha. exact IH.
Qed.

Lemma no_nbsp_zeros (n : nat) : has_char NBSP (zeros n) = false.
Proof. induction n as [| n IH]; [reflexivity | exact IH]. Qed.

Lemma no_nbsp_substring (s : string) :
  has_char NBSP s = false ->
  forall n m, has_char NBSP (substring n m s) = false.
Proof.
  induction s as [| a s IH]; intros H n m.
  - destruct n, m; reflexivity.
  - rewrite has_char_cons in H. apply orb_false_iff in H. destruct H as [Ha Hs].
    destruct n as [| n]; [destruct m as [| m] |]; cbn [substring].
    + reflexivity.
    + rewrite has_char_cons, Ha. now apply IH.
    + now apply IH.
Qed.

Lemma no_nbsp_pad2 (s : string) :
  has_char NBSP s = false -> has_char NBSP (pad2 s) = false.
Proof.
  intros H. destruct s as [| a [| b r]]; exact H.
Qed.

Lemma no_nbsp_digits (x : float) (ds : string) (decpt : Z) :
  shortest_digits x = Some (ds, decpt) -> has_char NBSP ds = false.
Proof.
  unfold shortest_digits. destruct x as [| | | sg m e]; try discriminate.
  destruct (match e with
            | Zneg p => (Zpos m, 2 ^ Zpos p)
            | _ => (Zpos m * 2 ^ e, 1)
            end) as [num den].
  destruct (shortest_from 17 (S754_finite sg m e) num den (decpt_of num den) 1)
    as [[c e10] |]; [| discriminate].
  intros H. inversion H. apply no_nbsp_rstrip_zeros, no_nbsp_nat.
Qed.

(** The rendering of a float holds digits, a sign, a point, an exponent
    mark or the letters of "inf" and "nan": never a no-break space. *)
Lemma no_nbsp_float_repr (x : float) : has_char NBSP (float_repr x) = false.
Proof.
  unfold float_repr. destruct x as [sg | sg | | sg m e];
    try (destruct sg; reflexivity); try reflexivity.
  assert (Hsign : has_char NBSP (if sg then "-" else "") = false)
    by (destruct sg; reflexivity).
  destruct (shortest_digits (S754_finite sg m e)) as [[ds decpt] |] eqn:Hd;
    [| rewrite has_char_app, Hsign; reflexivity].
  pose proof (no_nbsp_digits _ _ _ Hd) as Hds.
  destruct ((decpt <=? -4) || (16 <? decpt)).
  - rewrite !has_char_app, Hsign, no_nbsp_pad2 by apply no_nbsp_nat.
    assert (Hfrac : has_char NBSP
                      match ds with
                      | String c EmptyString => ds
                      | String c r => String c (String "." r)
                      | EmptyString => ds
                      end = false).
    { destruct ds as [| c [| c' r]]; exact Hds. }
    rewrite Hfrac. destruct (decpt - 1 <? 0); reflexivity.
  - destruct (decpt <=? 0).
    + rewrite !has_char_app, Hsign, no_nbsp_zeros, Hds. reflexivity.
    + destruct (Z.of_nat (String.length ds) <=? decpt).
      * rewrite !has_char_app, Hsign, no_nbsp_zeros, Hds. reflexivity.
      * rewrite !has_char_app, Hsign, !no_nbsp_substring by exact Hds.
        reflexivity.
Qed.

(** The rule looks for the no-break space, and a derived text holds one
    outside the count exactly when the frequency reached the threshold. *)
Lemma has_nbsp_variant_text (x freq : float) (counts : value) :
  has_char NBSP (py_str counts) = false ->
  has_char NBSP (variant_text x freq counts) = fle x freq.
Proof.
  intros Hc. unfold variant_text, separator.
  rewrite !has_char_app, no_nbsp_float_repr, Hc.
  destruct (fle x freq); reflexivity.
Qed.

(** *** The highlighting rule *)

(** X13. The rule "sanger" of the table marks the cells at or above the
    threshold: whenever the frequency loop returns, a cell of a column
    for which the table declares that [s_contains] rule (the four variant
    columns), whose count text holds no no-break space of its own,
    matches the rule exactly when the frequency derived from its count
    and the wild-type count is at or above the threshold. *)
Theorem sanger_rule_marks_threshold
        (config d d' : dict) (threshold : float)
        (column pattern : string) (counts : value) :
  NoDup (keys d) -> threshold_is config threshold ->
  derive config d = Ok d' ->
  In (column, Some pattern) headers -> In (column, counts) d ->
  s_contains pattern (py_str counts) = false ->
  exists w c q cell,
    wt_ready w d /\ py_int counts = Ok c /\ int_truediv c (w + c) = Ok q
    /\ dict_get d' column = Some (VStr cell)
    /\ s_contains pattern cell
       = fle threshold (py_round (fmul q (float_of_Z 100)) 2).
Proof.
  intros Hnd Hcfg Hrun Hcol Hin Hclean.
  assert (Hpat : pattern = String NBSP EmptyString
                 /\ String.eqb column wt_key = false).
  { unfold headers in Hcol. simpl in Hcol.
    destruct Hcol as [H | [H | [H | [H | [H | []]]]]]; inversion H; subst;
      split; reflexivity. }
  destruct Hpat as [-> Hk].
  assert (Hne : d <> []) by (intros ->; contradiction).
  destruct (derive_derived config d d' threshold Hnd Hcfg Hrun Hne)
    as (w & Hw & Hrel).
  destruct (derived_lookup threshold w d d' column counts Hrel Hin)
    as (v' & Hin' & _ & Hv').
  cbn [fst snd] in Hv'. rewrite Hk in Hv'.
  destruct Hv' as (c & q & Hc & Hq & ->).
  exists w, c, q. eexists. split; [exact Hw |]. split; [exact Hc |].
  split; [exact Hq |]. split.
  - apply In_dict_get; [| exact Hin'].
    now rewrite (derived_keys threshold w d d' Hrel).
  - rewrite s_contains_char in *. now apply has_nbsp_variant_text.
Qed.

Lemma sanger_rule_marks_threshold_witness :
  let d := [(wt_key, VStr "100"); ("MSH2_c.942+2T>G", VStr "50");
            ("MSH2_c.942+2T>C", VStr "25")] in
  let d' := [(wt_key, VInt 100);
             ("MSH2_c.942+2T>G", VStr ("33.33%" ++ String NBSP "(50)"));
             ("MSH2_c.942+2T>C", VStr "20.0% (25)")] in
  exists w c q cell,
    wt_ready w d /\ py_int (VStr "25") = Ok c /\ int_truediv c (w + c) = Ok q
    /\ dict_get d' "MSH2_c.942+2T>C" = Some (VStr cell)
    /\ s_contains (String NBSP EmptyString) cell
       = fle (float_of_Z 28) (py_round (fmul q (float_of_Z 100)) 2).
Proof.
  intros d d'.
  apply (sanger_rule_marks_threshold default_config d d' (float_of_Z 28)).
  - unfold d. simpl. repeat constructor; simpl; intuition discriminate.
  - exists (VInt 28). split; reflexivity.
  - vm_compute. reflexivity.
  - unfold headers. simpl. auto 6.
  - unfold d. simpl. auto.
  - reflexivity.
Defined.

End MSH2Shape.

(* ================================================================= *)
(** * Reruns, thresholds and edge frequencies of the MSH2 loop *)

Section MSH2Edges.
Import Py targeted_MSH2 Spec multiqc.

(** *** A formatted cell does not read as an integer *)

Lemma lstrip_by_keeps (p : ascii -> bool) (c : ascii) (s : string) :
  p c = false -> In c (list_ascii_of_string s) ->
  In c (list_ascii_of_string (lstrip_by p s)).
Proof.
  intros Hp. induction s as [| a s IH]; simpl; [tauto |].
  destruct (p a) eqn:Ea; simpl; [| tauto].
  intros [-> | H]; [congruence | auto].
Qed.

Lemma rstrip_by_keeps (p : ascii -> bool) (c : ascii) (s : string) :
  p c = false -> In c (list_ascii_of_string s) ->
  In c (list_ascii_of_string (rstrip_by p s)).
Proof.
  intros Hp. induction s as [| a s IH]; simpl; [tauto |].
  intros [-> | H].
  - destruct (rstrip_by p s); [rewrite Hp |]; simpl; auto.
  - specialize (IH H). destruct (rstrip_by p s); [contradiction | simpl; auto].
Qed.

Lemma digitpart_from_chars (after_digit : bool) (s : string) (ds : list Z) :
  digitpart_from after_digit s = Some ds ->
  forall c, In c (list_ascii_of_string s) ->
            is_digit c = true \/ c = "_"%char.
Proof.
  revert after_digit ds. induction s as [| a s IH]; intros b ds H c Hin;
    simpl in *; [contradiction |].
  destruct (is_digit a) eqn:Ed.
  - destruct (digitpart_from true s) as [ds' |] eqn:E; [| discriminate].
    destruct Hin as [<- | Hin]; [now left | eauto].
  - destruct (Ascii.eqb a "_") eqn:Eu; [| discriminate].
    destruct b; [| discriminate].
    destruct Hin as [<- | Hin]; [right; now apply Ascii.eqb_eq | eauto].
Qed.

Lemma int_of_str_percent (s : string) :
  In "%"%char (list_ascii_of_string s) -> int_of_str s = Raise ValueError.
Proof.
  intros Hin. unfold int_of_str.
  assert (Hs : In "%"%char (list_ascii_of_string (strip_literal s))).
  { unfold strip_literal. apply rstrip_by_keeps; [reflexivity |].
    apply lstrip_by_keeps; [reflexivity | exact Hin]. }
  destruct (take_sign (strip_literal s)) as [neg body] eqn:Et.
  assert (Hb : In "%"%char (list_ascii_of_string body)).
  { unfold take_sign in Et. destruct (strip_literal s) as [| a r]; [contradiction |].
    destruct (Ascii.eqb a "+") eqn:E1.
    - inversion Et; subst.
      destruct Hs as [Ha | Hs]; [subst a; discriminate | exact Hs].
    - destruct (Ascii.eqb a "-") eqn:E2; inversion Et; subst; [| exact Hs].
      destruct Hs as [Ha | Hs]; [subst a; discriminate | exact Hs]. }
  destruct (digitpart body) as [ds |] eqn:Ed; [| reflexivity].
  destruct (digitpart_from_chars false body ds Ed "%"%char Hb) as [H | H];
    discriminate.
Qed.

Lemma formatted_text_not_int (fr : float) (rest : string) :
  py_int (VStr (float_repr fr ++ "%" ++ rest)) = Raise ValueError.
Proof.
  simpl. apply int_of_str_percent.
  rewrite chars_app. apply in_or_app. right. simpl. auto.
Qed.

(** A second run over a record the loop has formatted stops at the
    first entry that is not the wild-type one. *)
Lemma rerun_loop_raises (config : dict) :
  forall (todo pre : dict),
    NoDup (keys (pre ++ todo)%list) ->
    (forall k v, In (k, v) todo ->
                 if String.eqb k wt_key then exists n, v = VInt n
                 else exists fr rest, v = VStr (float_repr fr ++ "%" ++ rest)) ->
    (exists k v, In (k, v) todo /\ String.eqb k wt_key = false) ->
    for_each (derive_step config) todo (pre ++ todo)%list = Raise ValueError.
Proof.
  induction todo as [| [k v] rest IH]; intros pre Hnd Hall Hvar.
  - destruct Hvar as (k & v & [] & _).
  - pose proof (NoDup_keys_head pre rest k v Hnd) as Hout.
    pose proof (Hall k v (or_introl eq_refl)) as Hhead.
    cbn [for_each]. destruct (String.eqb k wt_key) eqn:Hk.
    + destruct Hhead as [n ->].
      rewrite (derive_step_wt config _ k (VInt n) (VInt n) n Hk
                 (dict_get_middle pre rest k (VInt n) Hout) eq_refl).
      cbn [bind]. rewrite dict_set_middle by assumption. rewrite shift_head.
      apply IH.
      * now rewrite (keys_shift pre rest k (VInt n)).
      * intros k' v' Hin. apply Hall. now right.
      * destruct Hvar as (k0 & v0 & [Heq | Hin] & Hk0); [| eauto].
        inversion Heq; subst. congruence.
    + destruct Hhead as (fr & text & ->).
      unfold derive_step. rewrite Hk. cbn [negb].
      unfold frequency. rewrite formatted_text_not_int. reflexivity.
Qed.

(** X14. The frequency loop cannot be run twice: on a record it has
    already formatted, with at least one entry besides the wild-type
    one, a second run raises a value error (the formatted text does not
    read as an integer), whatever the configuration. *)
Theorem derive_twice_raises (config config' d d' : dict) :
  NoDup (keys d) -> derive config d = Ok d' ->
  (exists k, In k (keys d) /\ k <> wt_key) ->
  derive config' d' = Raise ValueError.
Proof.
  intros Hnd Hrun (k0 & Hk0 & Hne).
  pose proof (derive_shape config d d' Hnd Hrun) as Hrel.
  pose proof (formatted_keys d d' Hrel) as Hkeys.
  unfold derive. apply (rerun_loop_raises config' d' []).
  - simpl. now rewrite Hkeys.
  - intros k v Hin.
    assert (Hex : exists old, formatted_entry old (k, v)).
    { clear Hkeys Hk0 Hnd Hrun. induction Hrel as [| old new xs ys Hr _ IH];
        [contradiction |].
      destruct Hin as [-> | Hin]; [eauto | auto]. }
    destruct Hex as ([k' v'] & Hk' & Hv). cbn [fst snd] in *. subst k'.
    destruct (String.eqb k wt_key).
    + destruct Hv as (n & _ & ->). eauto.
    + destruct Hv as (fr & sep & _ & ->). eauto.
  - rewrite <- Hkeys in Hk0. unfold keys in Hk0. apply in_map_iff in Hk0.
    destruct Hk0 as ([k v] & <- & Hin). exists k, v. split; [exact Hin |].
    now apply String.eqb_neq.
Qed.

Lemma derive_twice_raises_witness :
  derive default_config
         [(wt_key, VInt 100); ("MSH2_c.942+3A>T", VStr "20.0% (25)")]
  = Raise ValueError.
Proof.
  apply (derive_twice_raises default_config default_config example_record).
  - unfold example_record. simpl. repeat constructor; simpl; intuition discriminate.
  - vm_compute. reflexivity.
  - exists "MSH2_c.942+3A>T". split; [simpl; auto | discriminate].
Defined.

(** *** The threshold is looked up once per variant entry *)

Lemma missing_threshold_loop (config : dict) (w : Z) :
  dict_get config "sanger_threshold" = None ->
  forall (todo pre : dict),
    NoDup (keys (pre ++ todo)%list) ->
    wt_ready w (pre ++ todo)%list ->
    (forall k v, In (k, v) todo ->
                 if String.eqb k wt_key then py_int v = Ok w
                 else exists c q, py_int v = Ok c /\ int_truediv c (w + c) = Ok q) ->
    (exists k v, In (k, v) todo /\ String.eqb k wt_key = false) ->
    for_each (derive_step config) todo (pre ++ todo)%list = Raise KeyError.
Proof.
  intros Hcfg. induction todo as [| [k v] rest IH]; intros pre Hnd Hw Hall Hvar.
  - destruct Hvar as (k & v & [] & _).
  - pose proof (NoDup_keys_head pre rest k v Hnd) as Hout.
    pose proof (Hall k v (or_introl eq_refl)) as Hhead.
    cbn [for_each]. destruct (String.eqb k wt_key) eqn:Hk.
    + rewrite (derive_step_wt config _ k v v w Hk
                 (dict_get_middle pre rest k v Hout) Hhead).
      cbn [bind]. rewrite dict_set_middle by assumption. rewrite shift_head.
      apply IH.
      * now rewrite (keys_shift pre rest k v).
      * exists (VInt w). rewrite <- shift_head. split; [| reflexivity].
        apply String.eqb_eq in Hk. subst k. now apply dict_get_middle.
      * intros k' v' Hin. apply Hall. now right.
      * destruct Hvar as (k0 & v0 & [Heq | Hin] & Hk0); [| eauto].
        inversion Heq; subst. congruence.
    + destruct Hhead as (c & q & Hc & Hq).
      unfold derive_step. rewrite Hk. cbn [negb].
      rewrite (frequency_ok _ v w c q Hw Hc Hq). cbn [bind].
      unfold dict_getitem. rewrite Hcfg. reflexivity.
Qed.

(** X15. With a configuration that lacks the key "sanger_threshold", a
    record of counts that could be derived (non-negative counts, non-zero
    denominators) ends in a key error as soon as it has one entry
    besides the wild-type one; a record holding the wild-type entry alone
    is derived without the configuration being looked at. *)
Theorem missing_threshold_key (config d : dict) (wv : value) (wt_count : Z) :
  dict_get config "sanger_threshold" = None ->
  NoDup (keys d) ->
  dict_get d wt_key = Some wv -> py_int wv = Ok wt_count -> 0 <= wt_count ->
  (forall k v, In (k, v) d -> k <> wt_key ->
               exists c, py_int v = Ok c /\ 0 <= c /\ wt_count + c <> 0) ->
  ((exists k, In k (keys d) /\ k <> wt_key) ->
   derive config d = Raise KeyError)
  /\ ((forall k, In k (keys d) -> k = wt_key) ->
      derive config d = Ok [(wt_key, VInt wt_count)]).
Proof.
  intros Hcfg Hnd Hget Hw Hw0 Hall. split.
  - intros (k0 & Hk0 & Hne). unfold derive.
    apply (missing_threshold_loop config wt_count Hcfg d [] Hnd).
    + exists wv. auto.
    + intros k v Hin. destruct (String.eqb k wt_key) eqn:Hk.
      * apply String.eqb_eq in Hk. subst k.
        rewrite (In_dict_get d wt_key v Hnd Hin) in Hget. congruence.
      * apply String.eqb_neq in Hk.
        destruct (Hall k v Hin Hk) as (c & Hc & Hc0 & Hsum).
        destruct (int_truediv_defined c (wt_count + c)) as [q Hq]; [lia | lia |].
        eauto.
    + unfold keys in Hk0. apply in_map_iff in Hk0.
      destruct Hk0 as ([k v] & <- & Hin). exists k, v. split; [exact Hin |].
      now apply String.eqb_neq.
  - intros Honly.
    destruct d as [| [k v] [| [k' v'] d]].
    + discriminate.
    + assert (k = wt_key) as -> by (apply Honly; simpl; auto).
      cbn [dict_get] in Hget. rewrite String.eqb_refl in Hget.
      inversion Hget; subst v.
      unfold derive. cbn [for_each].
      rewrite (derive_step_wt config _ wt_key wv wv wt_count (String.eqb_refl _)).
      * reflexivity.
      * cbn [dict_get]. now rewrite String.eqb_refl.
      * exact Hw.
    + assert (k = wt_key) as -> by (apply Honly; simpl; auto).
      assert (k' = wt_key) as -> by (apply Honly; simpl; auto).
      simpl in Hnd. inversion Hnd as [| ? ? Hout _]. elim Hout. simpl. auto.
Qed.

Lemma missing_threshold_key_witness :
  derive [] example_record = Raise KeyError.
Proof.
  apply (missing_threshold_key [] example_record (VStr "100") 100).
  - reflexivity.
  - unfold example_record. simpl. repeat constructor; simpl; intuition discriminate.
  - reflexivity.
  - reflexivity.
  - lia.
  - intros k v [H | [H | []]] Hk; inversion H; subst.
    + now elim Hk.
    + exists 25. repeat split; [lia | lia].
  - exists "MSH2_c.942+3A>T". split; [simpl; auto | discriminate].
Defined.

(** *** Frequencies at the two ends *)

Lemma round_quotient_self (s : bool) (a : Z) :
  0 < a -> round_quotient s a a = S754_finite s 4503599627370496 (-52).
Proof.
  intros Ha. unfold round_quotient.
  destruct a as [| p | p]; try lia.
  unfold SFdiv_core_binary.
  replace (Zdigits2 (Zpos p) + 0 - (Zdigits2 (Zpos p) + 0)) with 0 by lia.
  change (Z.min (fexp prec emax 0) (0 - 0)) with (-53).
  change (0 - 0 - -53) with 53.
  rewrite Z.shiftl_mul_pow2 by lia.
  assert (Hdiv : Z.div_eucl (Zpos p * 2 ^ 53) (Zpos p) = (2 ^ 53, 0)).
  { pose proof (Z.div_eucl_eq (Zpos p * 2 ^ 53) (Zpos p)) as E.
    pose proof (Z.mod_pos_bound (Zpos p * 2 ^ 53) (Zpos p)) as B.
    unfold Z.modulo in B.
    assert (Hq : (Zpos p * 2 ^ 53) / Zpos p = 2 ^ 53)
      by (rewrite Z.mul_comm; apply Z.div_mul; lia).
    assert (Hr : (Zpos p * 2 ^ 53) mod Zpos p = 0)
      by (rewrite Z.mul_comm; apply Z.mod_mul; lia).
    unfold Z.div in Hq. unfold Z.modulo in Hr.
    destruct (Z.div_eucl (Zpos p * 2 ^ 53) (Zpos p)) as [q r].
    simpl in Hq, Hr. now subst. }
  rewrite Hdiv.
  assert (Hloc : new_location (Zpos p) 0 = loc_Exact).
  { unfold new_location, new_location_even, new_location_odd.
    destruct (Z.even (Zpos p)); reflexivity. }
  rewrite Hloc. destruct s; vm_compute; reflexivity.
Qed.

(** X16. The two ends of the frequency: a variant count of zero against
    a positive wild-type count is stored as "0.0%", the separator, and
    the count in parentheses, and any non-zero variant count against a
    wild-type count of zero as "100.0%", the separator, and the count in
    parentheses, the count being the variant value as it was.  The
    separator is the no-break space U+00A0 when the threshold is at most
    the frequency and a space otherwise: at the threshold 28 a space
    after "0.0%" and a no-break space after "100.0%". *)
Theorem frequency_at_the_ends (config parsed_data : dict) (threshold : float)
        (variant : string) (counts wt : value) (w c : Z) :
  threshold_is config threshold -> variant <> wt_key ->
  dict_get parsed_data wt_key = Some wt -> py_int wt = Ok w ->
  py_int counts = Ok c ->
  (c = 0 -> 0 < w ->
   derive_step config parsed_data (variant, counts)
   = Ok (dict_set parsed_data variant
           (VStr ("0.0%" ++ separator threshold (S754_zero false)
                  ++ "(" ++ py_str counts ++ ")"))))
  /\ (w = 0 -> c <> 0 ->
      derive_step config parsed_data (variant, counts)
      = Ok (dict_set parsed_data variant
              (VStr ("100.0%" ++ separator threshold (float_of_Z 100)
                     ++ "(" ++ py_str counts ++ ")"))))
  /\ separator (float_of_Z 28) (S754_zero false) = " "
  /\ separator (float_of_Z 28) (float_of_Z 100) = String NBSP EmptyString.
Proof.
  intros Hcfg Hne Hget Hw Hc.
  assert (Hk : String.eqb variant wt_key = false) by now apply String.eqb_neq.
  assert (Hready : wt_ready w parsed_data) by (exists wt; auto).
  split; [| split; [| split; reflexivity]].
  - intros -> Hpos.
    assert (Hq : int_truediv 0 (w + 0) = Ok (S754_zero false)).
    { unfold int_truediv. replace (w + 0) with w by lia.
      destruct (w =? 0) eqn:E; [apply Z.eqb_eq in E; lia |].
      assert (Hs : (w <? 0) = false) by (apply Z.ltb_ge; lia).
      rewrite Hs. reflexivity. }
    rewrite (derive_step_variant config parsed_data variant counts threshold
               w 0 _ Hcfg Hk Hready Hc Hq).
    reflexivity.
  - intros -> Hnz.
    assert (Hq : int_truediv c (0 + c)
                 = Ok (S754_finite false 4503599627370496 (-52))).
    { unfold int_truediv. replace (0 + c) with c by lia.
      destruct (c =? 0) eqn:E; [apply Z.eqb_eq in E; contradiction |].
      rewrite round_quotient_self by lia.
      destruct (c <? 0); reflexivity. }
    rewrite (derive_step_variant config parsed_data variant counts threshold
               0 c _ Hcfg Hk Hready Hc Hq).
    replace (py_round (fmul (S754_finite false 4503599627370496 (-52))
                            (float_of_Z 100)) 2)
      with (float_of_Z 100) by (vm_compute; reflexivity).
    unfold variant_text.
    replace (float_repr (float_of_Z 100)) with "100.0" by (vm_compute; reflexivity).
    reflexivity.
Qed.

Lemma frequency_at_the_ends_witness :
  derive_step default_config [(wt_key, VStr "0")] ("MSH2_c.942+3A>T", VStr "7")
  = Ok [(wt_key, VStr "0");
        ("MSH2_c.942+3A>T", VStr ("100.0%" ++ String NBSP "(7)"))].
Proof.
  refine (proj1 (proj2 (frequency_at_the_ends
                          default_config [(wt_key, VStr "0")] (float_of_Z 28)
                          "MSH2_c.942+3A>T" (VStr "7") (VStr "0") 0 7
                          _ _ eq_refl eq_refl eq_refl)) eq_refl _).
  - exists (VInt 28). split; reflexivity.
  - discriminate.
  - lia.
Defined.

End MSH2Edges.

(* ================================================================= *)
(** * The MSH2 module run *)

Section MSH2Module.
Import Py targeted_MSH2 Spec multiqc.

Lemma msh2_parse_file_NoDup (f : string) (config parsed : dict) :
  parse_file f config = Ok parsed -> NoDup (keys parsed).
Proof.
  destruct (splitlines f) as [| l0 [| l1 [| l2 [| l3 rest]]]] eqn:Hl;
    try (unfold parse_file; rewrite Hl; simpl; intros H; inversion H;
         constructor).
  rewrite (parse_file_four f l0 l1 l2 l3 rest config Hl). intros H.
  pose proof (extract_NoDup l2 l3) as Hnd.
  now rewrite (formatted_keys _ _ (derive_shape config _ parsed Hnd H)).
Qed.

Lemma msh2_ingest_parsed (msh2_config : dict) (ign : string -> bool)
      (data : varcount_data) (f : log_file) (parsed : dict) :
  parse_file (file_f f) msh2_config = Ok parsed ->
  ingest_file msh2_config ign data f
  = Ok (ignore_samples ign
          (odict_set data (file_s_name f)
             (dict_update (match odict_get data (file_s_name f) with
                           | Some record => record
                           | None => parsed
                           end) parsed))).
Proof.
  intros Hp. unfold ingest_file. rewrite Hp. cbn [bind].
  unfold varcount_data, dict in *.
  destruct (odict_get data (file_s_name f)) as [record |] eqn:Hg.
  - unfold odict_mem, odict_getitem. rewrite Hg. cbn [negb]. cbv iota.
    rewrite Hg. reflexivity.
  - unfold odict_mem, odict_getitem. rewrite Hg. cbn [negb]. cbv iota.
    rewrite odict_get_set_same. cbn [bind].
    f_equal. f_equal.
    clear. induction data as [| [k v] data IH]; simpl.
    + now rewrite String.eqb_refl.
    + destruct (String.eqb k (file_s_name f)) eqn:E; simpl; rewrite E;
        [reflexivity | now rewrite IH].
Qed.

Lemma msh2_ingest_only_parse_errors (msh2_config : dict) (ign : string -> bool)
      (data : varcount_data) (f : log_file) (e : exn) :
  ingest_file msh2_config ign data f = Raise e ->
  parse_file (file_f f) msh2_config = Raise e.
Proof.
  destruct (parse_file (file_f f) msh2_config) as [parsed | e'] eqn:Hp.
  - rewrite (msh2_ingest_parsed msh2_config ign data f parsed Hp). discriminate.
  - unfold ingest_file. rewrite Hp. cbn [bind]. congruence.
Qed.

(** X17. A parsed file is merged into the MSH2 table under the name of
    its sample, field by field: the fields of the parsed record win, the
    fields the sample already had and the parsed record lacks stay; a new
    sample is entered even when its record is empty; the records of the
    other samples are untouched; and after the step no ignored sample is
    left in the table. *)
Theorem msh2_ingest_merges (msh2_config : dict) (is_ignore_sample : string -> bool)
        (MSH2_varcount_data : varcount_data) (f : log_file) (parsed : dict) :
  parse_file (file_f f) msh2_config = Ok parsed ->
  let s_name := file_s_name f in
  exists merged,
    ingest_file msh2_config is_ignore_sample MSH2_varcount_data f = Ok merged
    /\ (forall sample, is_ignore_sample sample = true ->
                       odict_get merged sample = None)
    /\ (forall other, other <> s_name -> is_ignore_sample other = false ->
                      odict_get merged other = odict_get MSH2_varcount_data other)
    /\ (is_ignore_sample s_name = false ->
        exists record,
          odict_get merged s_name = Some record
          /\ forall k,
              dict_get record k
              = match dict_get parsed k with
                | Some v => Some v
                | None =>
                    match odict_get MSH2_varcount_data s_name with
                    | Some old => dict_get old k
                    | None => None
                    end
                end).
Proof.
  intros Hp s_name.
  rewrite (msh2_ingest_parsed msh2_config is_ignore_sample MSH2_varcount_data
             f parsed Hp).
  fold s_name. eexists. split; [reflexivity |].
  pose proof (msh2_parse_file_NoDup (file_f f) msh2_config parsed Hp) as Hnd.
  split; [| split].
  - intros sample Hs. rewrite ignore_samples_get. now rewrite Hs.
  - intros other Hne Hs. rewrite ignore_samples_get, Hs.
    apply odict_get_set_other. congruence.
  - intros Hs. eexists. split.
    + rewrite ignore_samples_get, Hs. apply odict_get_set_same.
    + intros k. rewrite dict_update_lookup by assumption.
      destruct (dict_get parsed k) eqn:Ek; [reflexivity |].
      destruct (odict_get MSH2_varcount_data s_name); [reflexivity | exact Ek].
Qed.

Lemma msh2_ingest_merges_witness :
  let short := {| file_s_name := "S2"; file_f := "# hotspot counts" |} in
  let table := [("S1", [(wt_key, VInt 100)])] in
  exists merged,
    ingest_file default_config (fun _ => false) table short = Ok merged
    /\ merged = [("S1", [(wt_key, VInt 100)]); ("S2", [])].
Proof.
  intros short table.
  destruct (msh2_ingest_merges default_config (fun _ => false) table short [])
    as (merged & Hrun & _).
  - reflexivity.
  - exists merged. split; [exact Hrun |].
    vm_compute in Hrun. inversion Hrun. reflexivity.
Defined.

Lemma msh2_ingest_keeps (msh2_config : dict) (ign : string -> bool)
      (data merged : varcount_data) (f : log_file) :
  ingest_file msh2_config ign data f = Ok merged ->
  (forall sample, In sample (map fst merged) -> ign sample = false)
  /\ (ign (file_s_name f) = false -> odict_mem merged (file_s_name f) = true)
  /\ (forall sample, ign sample = false -> odict_mem data sample = true ->
                     odict_mem merged sample = true).
Proof.
  intros H.
  destruct (parse_file (file_f f) msh2_config) as [parsed | e] eqn:Hp.
  - rewrite (msh2_ingest_parsed msh2_config ign data f parsed Hp) in H.
    inversion H. clear H. split; [| split].
    + intros sample. apply ignore_samples_names.
    + intros Hs. unfold odict_mem.
      now rewrite ignore_samples_get, Hs, odict_get_set_same.
    + intros sample Hs Hm. unfold odict_mem in *.
      rewrite ignore_samples_get, Hs.
      destruct (string_dec (file_s_name f) sample) as [<- | Hne].
      * now rewrite odict_get_set_same.
      * now rewrite odict_get_set_other.
  - unfold ingest_file in H. rewrite Hp in H. discriminate.
Qed.

Lemma msh2_run_keeps (msh2_config : dict) (ign : string -> bool)
      (files : list log_file) :
  forall (data table : varcount_data),
    for_each (ingest_file msh2_config ign) files data = Ok table ->
    (forall sample, ign sample = false -> odict_mem data sample = true ->
                    odict_mem table sample = true)
    /\ (forall f, In f files -> ign (file_s_name f) = false ->
                  odict_mem table (file_s_name f) = true).
Proof.
  induction files as [| f files IH]; intros data table H; cbn [for_each] in H.
  - inversion H. subst. split; [auto | intros f []].
  - destruct (ingest_file msh2_config ign data f) as [data' |] eqn:Hs;
      [| discriminate].
    cbn [bind] in H. destruct (IH data' table H) as [IH1 IH2].
    destruct (msh2_ingest_keeps msh2_config ign data data' f Hs) as (_ & K2 & K3).
    split.
    + intros sample Hi Hm. apply IH1; auto.
    + intros f' [<- | Hin] Hi; [apply IH1; auto | now apply IH2].
Qed.

(** X18. When the MSH2 module run returns its table, the table holds
    no ignored sample and holds the sample of every file found whose name
    is not ignored, whether or not the file had enough lines to be
    parsed; the run fails only with the error of a parser. *)
Theorem msh2_table_samples (find_log_files : string -> list log_file)
        (is_ignore_sample : string -> bool)
        (targeted_MSH2_config : option dict) :
  (forall table,
      __init__ find_log_files is_ignore_sample targeted_MSH2_config = Ok table ->
      (forall sample, In sample (map fst table) ->
                      is_ignore_sample sample = false)
      /\ (forall f, In f (find_log_files "targeted_MSH2") ->
                    is_ignore_sample (file_s_name f) = false ->
                    odict_mem table (file_s_name f) = true))
  /\ (forall e,
         __init__ find_log_files is_ignore_sample targeted_MSH2_config = Raise e ->
         exists f, In f (find_log_files "targeted_MSH2")
                   /\ parse_file (file_f f) (msh2_config_of targeted_MSH2_config)
                      = Raise e).
Proof.
  unfold __init__. cbv zeta.
  set (cfg := msh2_config_of targeted_MSH2_config).
  set (files := find_log_files "targeted_MSH2"). clearbody files.
  split.
  - intros table H. split.
    + revert H.
      apply (for_each_invariant (ingest_file cfg is_ignore_sample)
               (fun t => forall sample, In sample (map fst t) ->
                                        is_ignore_sample sample = false)).
      * intros s x s' Hs. now destruct (msh2_ingest_keeps cfg _ s s' x Hs).
      * intros sample [].
    + now destruct (msh2_run_keeps cfg is_ignore_sample files [] table H).
  - intros e. generalize (@nil (string * dict)).
    induction files as [| f files IH]; intros data H; cbn [for_each] in H;
      [discriminate |].
    destruct (ingest_file cfg is_ignore_sample data f) as [data' |] eqn:Hs;
      cbn [bind] in H.
    + destruct (IH data' H) as (f' & Hin & Hp). exists f'. split; [now right | exact Hp].
    + inversion H; subst. exists f. split; [now left |].
      now apply (msh2_ingest_only_parse_errors cfg is_ignore_sample data).
Qed.

Lemma msh2_table_samples_witness :
  let good := {| file_s_name := "S1";
                 file_f := file_of ["# hotspot counts"; "# run 1";
                                    "sample MSH2_c.942+3_wt MSH2_c.942+3A>T";
                                    "S1 100 25"] |} in
  let short := {| file_s_name := "S2"; file_f := "# hotspot counts" |} in
  let skipped := {| file_s_name := "NTC"; file_f := "" |} in
  let find := fun _ : string => [good; skipped; short] in
  exists table,
    __init__ find (String.eqb "NTC") None = Ok table
    /\ map fst table = ["S1"; "S2"]
    /\ (forall sample, In sample (map fst table) ->
                       String.eqb "NTC" sample = false)
    /\ odict_mem table "S2" = true.
Proof.
  intros good short skipped find.
  exists [("S1", [("MSH2_c.942+3_wt", VInt 100);
                  ("MSH2_c.942+3A>T", VStr "20.0% (25)")]);
          ("S2", [])].
  assert (Hrun : __init__ find (String.eqb "NTC") None
                 = Ok [("S1", [("MSH2_c.942+3_wt", VInt 100);
                               ("MSH2_c.942+3A>T", VStr "20.0% (25)")]);
                       ("S2", [])])
    by (vm_compute; reflexivity).
  split; [exact Hrun | split; [reflexivity |]].
  destruct (msh2_table_samples find (String.eqb "NTC") None) as [Hok _].
  destruct (Hok _ Hrun) as [Hno Hall].
  split; [exact Hno |].
  apply (Hall short); [right; right; left; reflexivity | reflexivity].
Defined.

End MSH2Module.
